(** * Battery-management-system simulation: cell and pack state updates

    Shallow embedding of [bms_simulation.py] (classes [BatteryCell] and
    [BatteryPack], and the simulation loop of the script, without its
    plots) and the properties of its state-update model.

    Numbers.  The Python code computes on [float] (and on [int] literals
    that are converted to [float] as soon as they meet one).  The model is
    written once over an interface [PyNum] of the arithmetic the code uses
    and instantiated twice:
      - at [Q], exact rational arithmetic, where the general theorems are
        proved;
      - at [float], IEEE-754 binary64 (the arithmetic of CPython's
        [float]), where concrete runs are evaluated.
    What exact rationals hide is stated apart: theorems on overflow take
    exact rationals with a square that may raise ([Q_partial_square]) or
    any instance of [PyNum]; theorems on rounding take any arithmetic on
    rationals within a relative error of the exact one.

    Errors.  The code has no [raise] of its own; what it can raise comes from
    the arithmetic: [ZeroDivisionError] from [/] with a zero divisor, and, on
    floats, [OverflowError] from [**] when the power of a finite number is
    out of range ([*] and [/] overflow silently to infinity).  Fallible
    functions return a [result].

    State.  Methods mutate [self]; here they take the object and return the
    updated one.  A call that raises has no result, but the objects it has
    already written stay written: module [InPlace] gives the state such a
    call leaves behind. *)

From Stdlib Require Import ZArith NArith QArith Qabs Qminmax Lia Lqa List Bool.
From Stdlib Require Import PrimFloat SpecFloat FloatOps.
Import ListNotations.

(* Decimal literals such as 3.7 denote the nearest binary64 value, as they do
   in Python. *)
Set Warnings "-inexact-float".

Set Implicit Arguments.

(** ** Exceptions *)

Inductive exn : Type :=
| ZeroDivisionError
| OverflowError.

Inductive result (A : Type) : Type :=
| Ok (a : A)
| Raise (e : exn).

Arguments Ok {A} a.
Arguments Raise {A} e.

Definition bind {A B : Type} (r : result A) (k : A -> result B) : result B :=
  match r with
  | Ok a => k a
  | Raise e => Raise e
  end.

Notation "x <- r ;; k" := (bind r (fun x => k))
  (at level 61, r at next level, right associativity).

(** [for x in xs: f(x)] where [f] may raise: the loop stops at the first
    exception.  The objects already updated at that point are not kept in
    the model (nothing below depends on the state left by an aborted call). *)
Fixpoint for_each {A : Type} (f : A -> result A) (xs : list A) : result (list A) :=
  match xs with
  | [] => Ok []
  | x :: rest =>
      y <- f x ;;
      ys <- for_each f rest ;;
      Ok (y :: ys)
  end.

(** ** The arithmetic of the source *)

Class PyNum (A : Type) : Type := {
  num_of_Z : Z -> A;          (* an [int] literal or an [int] used as a float *)
  lit_0_05 : A;               (* the literal [0.05] *)
  lit_0_01 : A;               (* the literal [0.01] *)
  num_add : A -> A -> A;
  num_sub : A -> A -> A;
  num_mul : A -> A -> A;
  num_div : A -> A -> A;      (* [/] with a non-zero divisor *)
  num_opp : A -> A;
  num_pow2 : A -> result A;   (* [x ** 2] *)
  num_ltb : A -> A -> bool;   (* [<] *)
  num_eqb : A -> A -> bool    (* [==], numeric equality *)
}.

Declare Scope num_scope.
Delimit Scope num_scope with num.
Notation "x + y" := (num_add x y) : num_scope.
Notation "x - y" := (num_sub x y) : num_scope.
Notation "x * y" := (num_mul x y) : num_scope.
Notation "x / y" := (num_div x y) : num_scope.
Notation "- x" := (num_opp x) : num_scope.
Notation "x <? y" := (num_ltb x y) : num_scope.
Notation "x =? y" := (num_eqb x y) : num_scope.
Abbreviation int z := (num_of_Z z%Z) (only parsing).

Section Generic.
Context {A : Type} `{PyNum A}.
Local Open Scope num_scope.

(** [a / b] where [b] is not a literal: raises on a zero divisor. *)
Definition py_div (a b : A) : result A :=
  if b =? (int 0) then Raise ZeroDivisionError else Ok (a / b).

(** [max(a, b)] and [min(a, b)] of Python: the first argument is kept
    unless the second is strictly greater (resp. smaller). *)
Definition py_max (a b : A) : A := if a <? b then b else a.
Definition py_min (a b : A) : A := if b <? a then b else a.

(** [sum(xs)]: starts from the integer 0 and adds from the left. *)
Definition py_sum (xs : list A) : A := fold_left num_add xs (int 0).
End Generic.

(** Exact rationals. *)
#[export] Instance Q_PyNum : PyNum Q := {|
  num_of_Z := inject_Z;
  lit_0_05 := 5 # 100;
  lit_0_01 := 1 # 100;
  num_add := Qplus;
  num_sub := Qminus;
  num_mul := Qmult;
  num_div := Qdiv;
  num_opp := Qopp;
  num_pow2 := fun x => Ok (Qmult x x);
  num_ltb := fun a b => negb (Qle_bool b a);
  num_eqb := Qeq_bool
|}.

(** Binary64.  An [int] is converted bit by bit; every step is exact while
    the value is below 2^53, which covers every integer literal of the source
    and any cycle count a run can reach. *)
Fixpoint float_of_pos (p : positive) : float :=
  match p with
  | xH => PrimFloat.one
  | xO q => PrimFloat.mul PrimFloat.two (float_of_pos q)
  | xI q => PrimFloat.add (PrimFloat.mul PrimFloat.two (float_of_pos q)) PrimFloat.one
  end.

Definition float_of_Z (z : Z) : float :=
  match z with
  | Z0 => PrimFloat.zero
  | Zpos p => float_of_pos p
  | Zneg p => PrimFloat.opp (float_of_pos p)
  end.

(** [x ** 2] on floats: the correctly rounded square, except that CPython
    reports an infinite result of a finite argument as [OverflowError].
    CPython computes the power with the C library's [pow], which for some
    arguments differs from the correctly rounded square in the last bit;
    every binary64 run below uses a current among 0, 1, -1, 1e200, infinity
    and NaN, whose squares are exact or out of range. *)
Definition float_pow2 (x : float) : result float :=
  let y := PrimFloat.mul x x in
  if PrimFloat.is_finite x && PrimFloat.is_infinity y
  then Raise OverflowError else Ok y.

#[export] Instance float_PyNum : PyNum float := {|
  num_of_Z := float_of_Z;
  lit_0_05 := 0.05%float;
  lit_0_01 := 0.01%float;
  num_add := PrimFloat.add;
  num_sub := PrimFloat.sub;
  num_mul := PrimFloat.mul;
  num_div := PrimFloat.div;
  num_opp := PrimFloat.opp;
  num_pow2 := float_pow2;
  num_ltb := PrimFloat.ltb;
  num_eqb := PrimFloat.eqb
|}.

(** ** class BatteryCell *)

Module BatteryCell.

Record t (A : Type) : Type := mk {
  capacity_ah : A;       (* battery capacity in Ah *)
  voltage_nominal : A;   (* nominal voltage in volts *)
  soc : A;               (* state of charge (%) *)
  soh : A;               (* state of health (%) *)
  temp : A;              (* cell temperature (deg C) *)
  voltage : A
}.

Section Methods.
Context {A : Type} `{PyNum A}.
Local Open Scope num_scope.

(** [__init__] assigns the same literals to the thermal attributes of
    every cell and no method writes them: they are constants here.
    ([thermal_resistance = 0.1] is never read.) *)
Definition thermal_capacity : A := int 500.
Definition ambient_temp : A := int 25.

Definition init (capacity_ah voltage_nominal initial_soc initial_soh initial_temp : A) : t A :=
  {| capacity_ah := capacity_ah;
     voltage_nominal := voltage_nominal;
     soc := initial_soc;
     soh := initial_soh;
     temp := initial_temp;
     voltage := voltage_nominal |}.

(** The call [BatteryCell(capacity_ah, voltage_nominal)] with the default
    arguments [initial_soc=100, initial_soh=100, initial_temp=25]. *)
Definition init_default (capacity_ah voltage_nominal : A) : t A :=
  init capacity_ah voltage_nominal (int 100) (int 100) (int 25).

Definition set_soc (c : t A) (x : A) : t A :=
  mk (capacity_ah c) (voltage_nominal c) x (soh c) (temp c) (voltage c).
Definition set_soh (c : t A) (x : A) : t A :=
  mk (capacity_ah c) (voltage_nominal c) (soc c) x (temp c) (voltage c).
Definition set_temp (c : t A) (x : A) : t A :=
  mk (capacity_ah c) (voltage_nominal c) (soc c) (soh c) x (voltage c).
Definition set_voltage (c : t A) (x : A) : t A :=
  mk (capacity_ah c) (voltage_nominal c) (soc c) (soh c) (temp c) x.

Definition update_voltage (c : t A) : t A :=
  let capacity_effect := soh c / (int 100) in
  set_voltage c (voltage_nominal c * (soc c / (int 100)) * capacity_effect).

Definition cool_down (c : t A) : t A :=
  let cooling_rate := (temp c - ambient_temp) * lit_0_01 in
  set_temp c (temp c - cooling_rate).

Definition generate_heat (c : t A) (current dt : A) : result (t A) :=
  let resistance := lit_0_05 in
  squared <- num_pow2 current ;;
  let heat_generated := squared * resistance * dt in
  let delta_temp := heat_generated / thermal_capacity in
  Ok (cool_down (set_temp c (temp c + delta_temp))).

Definition discharge (c : t A) (current dt : A) : result (t A) :=
  let delta_ah := current * dt / (int 3600) in
  q <- py_div delta_ah (capacity_ah c) ;;
  let soc_drop := q * (int 100) in
  let c1 := set_soc c (py_max (soc c - soc_drop) (int 0)) in
  c2 <- generate_heat c1 current dt ;;
  Ok (update_voltage c2).

Definition charge (c : t A) (current dt : A) : result (t A) :=
  let delta_ah := current * dt / (int 3600) in
  q <- py_div delta_ah (capacity_ah c) ;;
  let soc_gain := q * (int 100) in
  let c1 := set_soc c (py_min (soc c + soc_gain) (int 100)) in
  c2 <- generate_heat c1 current dt ;;
  Ok (update_voltage c2).

(** [cycles] is the pack's counter, an [int]. *)
Definition degrade_health (c : t A) (cycles : N) : t A :=
  let c1 := set_soh c (soh c - lit_0_01 * int (Z.of_N cycles)) in
  if soh c1 <? (int 60) then set_soh c1 (int 60) else c1.

End Methods.
End BatteryCell.

(** ** class BatteryPack *)

Module BatteryPack.

Record t (A : Type) : Type := mk {
  cells : list (BatteryCell.t A);
  cycles : N        (* starts at 0 and is only ever incremented *)
}.

Section Methods.
Context {A : Type} `{PyNum A}.
Local Open Scope num_scope.

(** [range(num_cells)] is empty for [num_cells <= 0]. *)
Definition init (num_cells : Z) (cell_capacity cell_voltage : A) : t A :=
  {| cells := repeat (BatteryCell.init_default cell_capacity cell_voltage)
                     (Z.to_nat num_cells);
     cycles := 0 |}.

Definition step_cell (current dt : A) (c : BatteryCell.t A) : result (BatteryCell.t A) :=
  if (int 0) <? current then BatteryCell.discharge c current dt
  else if current <? (int 0) then BatteryCell.charge c (- current) dt
  else Ok c.

Definition all_soc (x : A) (cs : list (BatteryCell.t A)) : bool :=
  forallb (fun c => BatteryCell.soc c =? x) cs.

Definition simulate_step (p : t A) (current dt : A) : result (t A) :=
  cs <- for_each (step_cell current dt) (cells p) ;;
  if all_soc (int 100) cs || all_soc (int 0) cs then
    let n := (cycles p + 1)%N in
    Ok {| cells := map (fun c => BatteryCell.degrade_health c n) cs;
          cycles := n |}
  else
    Ok {| cells := cs; cycles := cycles p |}.

Definition get_pack_voltage (p : t A) : A :=
  py_sum (map (@BatteryCell.voltage A) (cells p)).

Definition len (p : t A) : A := int (Z.of_nat (length (cells p))).

Definition get_average_soc (p : t A) : result A :=
  py_div (py_sum (map (@BatteryCell.soc A) (cells p))) (len p).
Definition get_average_temp (p : t A) : result A :=
  py_div (py_sum (map (@BatteryCell.temp A) (cells p))) (len p).
Definition get_average_soh (p : t A) : result A :=
  py_div (py_sum (map (@BatteryCell.soh A) (cells p))) (len p).

(** A driver: one [simulate_step] per (current, dt) of a profile. *)
Fixpoint run (p : t A) (profile : list (A * A)) : result (t A) :=
  match profile with
  | [] => Ok p
  | (current, dt) :: rest =>
      p' <- simulate_step p current dt ;;
      run p' rest
  end.

End Methods.
End BatteryPack.

(** ** The simulation loop of the script *)

Module Driver.

(** One entry of [time_data], [soc_data], [temp_data], [voltage_data] and
    [soh_data]. *)
Record sample (A : Type) : Type := mk_sample {
  time_min : A;
  avg_soc : A;
  avg_temp : A;
  pack_voltage : A;
  avg_soh : A
}.

Section Loop.
Context {A : Type} `{PyNum A}.
Local Open Scope num_scope.

(** [current = 1.0 if time < 3600 else -1.0]. *)
Definition current_at (time : A) : A :=
  if time <? int 3600 then int 1 else - (int 1).

(** The five [append]s of one iteration, in the order of the source. *)
Definition read_out (time : A) (p : BatteryPack.t A) : result (sample A) :=
  let t := time / int 60 in
  s <- BatteryPack.get_average_soc p ;;
  tp <- BatteryPack.get_average_temp p ;;
  let v := BatteryPack.get_pack_voltage p in
  h <- BatteryPack.get_average_soh p ;;
  Ok (mk_sample t s tp v h).

(** [for step in range(num_steps)], with [steps] the values of [step]. *)
Fixpoint loop (p : BatteryPack.t A) (dt : A) (steps : list nat)
  : result (BatteryPack.t A * list (sample A)) :=
  match steps with
  | [] => Ok (p, [])
  | step :: rest =>
      let time := int (Z.of_nat step) * dt in
      let current := current_at time in
      p1 <- BatteryPack.simulate_step p current dt ;;
      x <- read_out time p1 ;;
      r <- loop p1 dt rest ;;
      Ok (fst r, x :: snd r)
  end.

(** The current profile the loop applies. *)
Definition profile (dt : A) (steps : list nat) : list (A * A) :=
  map (fun step => (current_at (int (Z.of_nat step) * dt), dt)) steps.

(** [num_steps = sim_time // dt] on integers, and the whole loop. *)
Definition simulate (p : BatteryPack.t A) (sim_time dt : Z)
  : result (BatteryPack.t A * list (sample A)) :=
  if (dt =? 0)%Z then Raise ZeroDivisionError
  else loop p (int dt) (seq 0 (Z.to_nat (sim_time / dt))).

End Loop.
End Driver.

(** ** The same methods, with the state an exception leaves behind

    The methods update [self] in place.  When a call raises, what it had
    already written stays written: [discharge] and [charge] assign [soc]
    before [generate_heat] can raise, and the loop of [simulate_step] has
    updated the cells before the one that raises.  Here every method returns
    the object as the call leaves it, together with the exception, if any. *)

Module InPlace.
Section Methods.
Context {A : Type} `{PyNum A}.
Local Open Scope num_scope.

Definition generate_heat (c : BatteryCell.t A) (current dt : A)
  : BatteryCell.t A * option exn :=
  let resistance := lit_0_05 in
  match num_pow2 current with
  | Raise e => (c, Some e)
  | Ok squared =>
      let heat_generated := squared * resistance * dt in
      let delta_temp := heat_generated / BatteryCell.thermal_capacity in
      (BatteryCell.cool_down
         (BatteryCell.set_temp c (BatteryCell.temp c + delta_temp)), None)
  end.

Definition discharge (c : BatteryCell.t A) (current dt : A)
  : BatteryCell.t A * option exn :=
  let delta_ah := current * dt / (int 3600) in
  match py_div delta_ah (BatteryCell.capacity_ah c) with
  | Raise e => (c, Some e)
  | Ok q =>
      let soc_drop := q * (int 100) in
      let c1 := BatteryCell.set_soc c (py_max (BatteryCell.soc c - soc_drop) (int 0)) in
      match generate_heat c1 current dt with
      | (c2, Some e) => (c2, Some e)
      | (c2, None) => (BatteryCell.update_voltage c2, None)
      end
  end.

Definition charge (c : BatteryCell.t A) (current dt : A)
  : BatteryCell.t A * option exn :=
  let delta_ah := current * dt / (int 3600) in
  match py_div delta_ah (BatteryCell.capacity_ah c) with
  | Raise e => (c, Some e)
  | Ok q =>
      let soc_gain := q * (int 100) in
      let c1 := BatteryCell.set_soc c (py_min (BatteryCell.soc c + soc_gain) (int 100)) in
      match generate_heat c1 current dt with
      | (c2, Some e) => (c2, Some e)
      | (c2, None) => (BatteryCell.update_voltage c2, None)
      end
  end.

Definition step_cell (current dt : A) (c : BatteryCell.t A)
  : BatteryCell.t A * option exn :=
  if (int 0) <? current then discharge c current dt
  else if current <? (int 0) then charge c (- current) dt
  else (c, None).

(** [for x in xs: f(x)]: the objects before the one that raises are
    updated, that one is as its call left it, the ones after it are
    untouched. *)
Fixpoint for_each {X : Type} (f : X -> X * option exn) (xs : list X)
  : list X * option exn :=
  match xs with
  | [] => ([], None)
  | x :: rest =>
      match f x with
      | (y, Some e) => (y :: rest, Some e)
      | (y, None) =>
          let (ys, r) := for_each f rest in (y :: ys, r)
      end
  end.

(** An exception in the loop leaves [simulate_step] before the cycle test. *)
Definition simulate_step (p : BatteryPack.t A) (current dt : A)
  : BatteryPack.t A * option exn :=
  match for_each (step_cell current dt) (BatteryPack.cells p) with
  | (cs, Some e) =>
      ({| BatteryPack.cells := cs; BatteryPack.cycles := BatteryPack.cycles p |}, Some e)
  | (cs, None) =>
      if BatteryPack.all_soc (int 100) cs || BatteryPack.all_soc (int 0) cs then
        let n := (BatteryPack.cycles p + 1)%N in
        ({| BatteryPack.cells := map (fun c => BatteryCell.degrade_health c n) cs;
            BatteryPack.cycles := n |}, None)
      else
        ({| BatteryPack.cells := cs; BatteryPack.cycles := BatteryPack.cycles p |}, None)
  end.

(** A caller that makes every call of the profile, catching what a call
    raises and going on with the pack as that call left it. *)
Definition run (p : BatteryPack.t A) (profile : list (A * A)) : BatteryPack.t A :=
  fold_left (fun q step => fst (simulate_step q (fst step) (snd step))) profile p.

End Methods.
End InPlace.

(** ** What decides whether a step raises *)

Section Outcome.
Context {A : Type} `{PyNum A}.
Local Open Scope num_scope.

(** The loop of [simulate_step] calls [discharge] or [charge]: the current
    is strictly positive or strictly negative (a zero or NaN current is
    neither). *)
Definition moving (current : A) : bool :=
  ((int 0) <? current) || (current <? (int 0)).

(** The value handed to [discharge] or [charge]. *)
Definition magnitude (current : A) : A :=
  if (int 0) <? current then current else - current.

(** The [soc_drop] of [discharge] and the [soc_gain] of [charge]. *)
Definition soc_change (c : BatteryCell.t A) (current dt : A) : A :=
  (current * dt / (int 3600)) / BatteryCell.capacity_ah c * (int 100).

End Outcome.

Local Open Scope Q_scope.

(** Exact rationals with a square that may raise, as [**] does on floats
    when the result is out of range: [pow2] says for which arguments. *)
Definition Q_partial_square (pow2 : Q -> result Q) : PyNum Q := {|
  num_of_Z := inject_Z;
  lit_0_05 := 5 # 100;
  lit_0_01 := 1 # 100;
  num_add := Qplus;
  num_sub := Qminus;
  num_mul := Qmult;
  num_div := Qdiv;
  num_opp := Qopp;
  num_pow2 := pow2;
  num_ltb := fun a b => negb (Qle_bool b a);
  num_eqb := Qeq_bool
|}.


(** The change of [soc], in percent, produced by [current] amps flowing for
    [dt] seconds, as [discharge] and [charge] compute it (at [Q], where the
    division by a non-zero capacity does not raise). *)
Definition soc_delta (c : BatteryCell.t Q) (current dt : Q) : Q :=
  (current * dt / 3600) / BatteryCell.capacity_ah c * 100.

(** The cell [generate_heat] returns at [Q], where [**] cannot overflow. *)
Definition heated (c : BatteryCell.t Q) (current dt : Q) : BatteryCell.t Q :=
  BatteryCell.cool_down
    (BatteryCell.set_temp c (BatteryCell.temp c + current * current * 0.05 * dt / 500)).

(** The ranges of the data model: [soc] in 0..100 and [soh] in 60..100. *)
Definition in_range (c : BatteryCell.t Q) : Prop :=
  (0 <= BatteryCell.soc c <= 100) /\ (60 <= BatteryCell.soh c <= 100).

(** A cell of the data model: positive capacity, [soc] and [soh] in range. *)
Definition cell_ok (c : BatteryCell.t Q) : Prop :=
  0 < BatteryCell.capacity_ah c /\ in_range c.

(** A current profile all of whose time steps are positive. *)
Definition positive_dt (profile : list (Q * Q)) : Prop :=
  Forall (fun step => 0 < snd step) profile.

(** The stored [voltage] agrees with the attributes it is derived from. *)
Definition voltage_consistent (c : BatteryCell.t Q) : Prop :=
  BatteryCell.voltage c
  == BatteryCell.voltage_nominal c * (BatteryCell.soc c / 100) * (BatteryCell.soh c / 100).

(** All cells of the pack are in the same state: any two of them are the
    same record, so they agree on [soc], [soh], [temp], [voltage] and the
    two fixed attributes. *)
Definition identical_cells {A : Type} (p : BatteryPack.t A) : Prop :=
  forall c1 c2, In c1 (BatteryPack.cells p) -> In c2 (BatteryPack.cells p) -> c1 = c2.

(** ** Concrete inputs *)

(** The pack of the driver script:
    [BatteryPack(num_cells=4, cell_capacity=2.5, cell_voltage=3.7)]. *)
Definition driver_pack : BatteryPack.t Q := BatteryPack.init 4 2.5 3.7.
Definition driver_pack_binary64 : BatteryPack.t float :=
  BatteryPack.init 4 2.5%float 3.7%float.

(** One of its cells, [BatteryCell(2.5, 3.7)]. *)
Definition driver_cell : BatteryCell.t Q := BatteryCell.init_default 2.5 3.7.
Definition driver_cell_binary64 : BatteryCell.t float :=
  BatteryCell.init_default 2.5%float 3.7%float.

(** [BatteryCell(2.5, 3.7, initial_soc=50)]. *)
Definition half_charged_cell : BatteryCell.t Q := BatteryCell.init 2.5 3.7 50 100 25.

(** A short profile: discharge, charge, rest. *)
Definition short_profile : list (Q * Q) := [(1, 10); (-1, 10); (0, 10)].

(** The profile of the driver script, [sim_time = 7200] and [dt = 10]:
    [current = 1.0 if time < 3600 else -1.0] for [time = step * dt],
    [step] in [range(720)]. *)
Definition driver_profile_binary64 : list (float * float) :=
  (repeat (1, 10) 360 ++ repeat (-1, 10) 360)%float.

(** A pack of one cell built with [initial_soh=50], below the floor of 60. *)
Definition low_health_pack : BatteryPack.t Q :=
  {| BatteryPack.cells := [BatteryCell.init 2.5 3.7 100 50 25];
     BatteryPack.cycles := 0 |}.

(** [BatteryPack(num_cells=0, cell_capacity=2.5, cell_voltage=3.7)]. *)
Definition empty_pack : BatteryPack.t Q := BatteryPack.init 0 2.5 3.7.

(** Three cells at 100 % and one at 99.99 %. *)
Definition outlier_pack : BatteryPack.t Q :=
  {| BatteryPack.cells :=
       [BatteryCell.init 2.5 3.7 99.99 100 25; BatteryCell.init_default 2.5 3.7;
        BatteryCell.init_default 2.5 3.7; BatteryCell.init_default 2.5 3.7];
     BatteryPack.cycles := 0 |}.

(** ** Predicates of the further properties *)

(** The attributes [__init__] fixes and no method writes. *)
Definition same_fixed {A : Type} (c c' : BatteryCell.t A) : Prop :=
  BatteryCell.capacity_ah c' = BatteryCell.capacity_ah c /\
  BatteryCell.voltage_nominal c' = BatteryCell.voltage_nominal c.

(** The temperature rise [delta_temp] that [generate_heat] adds in a step
    [(current, dt)], before cooling. *)
Definition step_heat (step : Q * Q) : Q :=
  fst step ^ 2 * 0.05 * snd step / 500.

(** A non-empty list of cells that all have capacity [C] and charge [s]. *)
Definition uniform (C s : Q) (cs : list (BatteryCell.t Q)) : Prop :=
  cs <> [] /\
  Forall (fun c => BatteryCell.capacity_ah c == C /\ BatteryCell.soc c == s) cs.

(** [BatteryCell(2.5, 3.7, initial_soc=0.05)], nearly empty. *)
Definition nearly_empty_pack : BatteryPack.t Q :=
  {| BatteryPack.cells := [BatteryCell.init 2.5 3.7 0.05 100 25;
                           BatteryCell.init 2.5 3.7 0.05 100 25];
     BatteryPack.cycles := 0 |}.

(** ** Inputs of the revised properties *)

(** A square that is out of range above 1000, as [**] is above 2^512. *)
Definition small_square (x : Q) : result Q :=
  if Qle_bool (Qabs x) 1000 then Ok (x * x) else Raise OverflowError.

(** A profile with a call that raises (2000 A) between two that return. *)
Definition overflow_profile : list (Q * Q) := [(1, 10); (2000, 10); (-1, 10)].

(** [BatteryPack(4, -2.5, -3.7)]: the constructor accepts it. *)
Definition negative_capacity_pack : BatteryPack.t Q := BatteryPack.init 4 (-2.5) (-3.7).

(** [BatteryCell(2.5, 3.7, initial_soc=15.9)] in binary64. *)
Definition rounding_cell_binary64 : BatteryCell.t float :=
  BatteryCell.init 2.5%float 3.7%float 15.9%float 100%float 25%float.

(** Three cells after one discharge step of the driver, in binary64. *)
Definition three_cell_pack_binary64 : BatteryPack.t float :=
  BatteryPack.init 3 2.5%float 3.7%float.

(** The rational number a finite binary64 value stands for. *)
Definition Q_of_float (x : float) : option Q :=
  match Prim2SF x with
  | S754_zero _ => Some 0
  | S754_finite s m e =>
      let v := inject_Z (Z.pos m) * Qpower 2 e in
      Some (if s then - v else v)
  | _ => None
  end.

(** The unit roundoff of binary64, 2^-53. *)
Definition unit_roundoff : Q := Qpower 2 (-53).

(** * Properties *)

Unset Implicit Arguments.
Import BatteryCell.

(** ** The arithmetic at [Q] *)

Lemma ltb_Q_true (a b : Q) : num_ltb a b = true <-> a < b.
Proof.
  cbn. rewrite negb_true_iff. split; intro E.
  - apply Qnot_le_lt. intro L. apply Qle_bool_iff in L. congruence.
  - destruct (Qle_bool b a) eqn:L; [|reflexivity].
    apply Qle_bool_iff in L. lra.
Qed.

Lemma ltb_Q_false (a b : Q) : num_ltb a b = false <-> b <= a.
Proof.
  cbn. rewrite negb_false_iff. apply Qle_bool_iff.
Qed.

Lemma eqb_Q_true (a b : Q) : num_eqb a b = true <-> a == b.
Proof. cbn. apply Qeq_bool_iff. Qed.

Lemma eqb_Q_false (a b : Q) : num_eqb a b = false <-> ~ a == b.
Proof.
  cbn. split; intro E.
  - intro K. apply Qeq_bool_iff in K. congruence.
  - destruct (Qeq_bool a b) eqn:K; [|reflexivity].
    apply Qeq_bool_iff in K. contradiction.
Qed.

Lemma py_div_Q_ok (a b : Q) : ~ b == 0 -> py_div a b = Ok (a / b).
Proof.
  intro E. unfold py_div. change (int 0 : Q) with 0.
  apply eqb_Q_false in E. rewrite E. reflexivity.
Qed.

Lemma py_div_Q_raise (a b : Q) : b == 0 -> py_div a b = Raise ZeroDivisionError.
Proof.
  intro E. unfold py_div. change (int 0 : Q) with 0.
  apply eqb_Q_true in E. rewrite E. reflexivity.
Qed.

Lemma py_max_Q (a b : Q) : py_max a b == Qmax a b.
Proof.
  unfold py_max. destruct (num_ltb a b) eqn:L.
  - apply ltb_Q_true in L. symmetry. apply Q.max_r. lra.
  - apply ltb_Q_false in L. symmetry. apply Q.max_l. lra.
Qed.

Lemma py_min_Q (a b : Q) : py_min a b == Qmin a b.
Proof.
  unfold py_min. destruct (num_ltb b a) eqn:L.
  - apply ltb_Q_true in L. symmetry. apply Q.min_r. lra.
  - apply ltb_Q_false in L. symmetry. apply Q.min_l. lra.
Qed.

Lemma py_max_Q_cases (a b : Q) :
  (a < b /\ py_max a b = b) \/ (b <= a /\ py_max a b = a).
Proof.
  unfold py_max. destruct (num_ltb a b) eqn:L.
  - left. apply ltb_Q_true in L. auto.
  - right. apply ltb_Q_false in L. auto.
Qed.

Lemma py_min_Q_cases (a b : Q) :
  (b < a /\ py_min a b = b) \/ (a <= b /\ py_min a b = a).
Proof.
  unfold py_min. destruct (num_ltb b a) eqn:L.
  - left. apply ltb_Q_true in L. auto.
  - right. apply ltb_Q_false in L. auto.
Qed.

Lemma discharge_Q_ok (c : BatteryCell.t Q) (current dt : Q) :
  ~ capacity_ah c == 0 ->
  discharge c current dt =
  Ok (update_voltage (heated
        (set_soc c (py_max (soc c - soc_delta c current dt) 0)) current dt)).
Proof.
  intro E. unfold discharge. rewrite py_div_Q_ok by exact E. reflexivity.
Qed.

Lemma charge_Q_ok (c : BatteryCell.t Q) (current dt : Q) :
  ~ capacity_ah c == 0 ->
  charge c current dt =
  Ok (update_voltage (heated
        (set_soc c (py_min (soc c + soc_delta c current dt) 100)) current dt)).
Proof.
  intro E. unfold charge. rewrite py_div_Q_ok by exact E. reflexivity.
Qed.

Lemma soc_update_voltage (c : BatteryCell.t Q) : soc (update_voltage c) = soc c.
Proof. reflexivity. Qed.

Lemma generate_heat_Q (c : BatteryCell.t Q) (current dt : Q) :
  generate_heat c current dt = Ok (heated c current dt).
Proof. reflexivity. Qed.

Lemma soc_heated (c : BatteryCell.t Q) (current dt : Q) :
  soc (heated c current dt) = soc c.
Proof. reflexivity. Qed.

(** ** Discharge and charge of one cell *)


(** [charge] is symmetric to [discharge].  In exact arithmetic, where the
    square never overflows, it returns for every cell of non-zero capacity
    (also when the cell is already full) and leaves [soc] at the
    mathematical minimum of [soc + (current*dt/3600)/capacity_ah*100] and
    [100]. *)
Lemma charge_soc (c : BatteryCell.t Q) (current dt : Q) :
  ~ capacity_ah c == 0 ->
  exists c', charge c current dt = Ok c' /\
    soc c' == Qmin (soc c + (current * dt / 3600) / capacity_ah c * 100) 100.
Proof.
  intro Hcap. eexists. split.
  - apply charge_Q_ok. exact Hcap.
  - rewrite soc_update_voltage, soc_heated. apply py_min_Q.
Qed.


Example discharge_scenario_exact :
  exists c', discharge driver_cell 1 10 = Ok c' /\
    soc c' == 100 - (1 * 10 / 3600) / 2.5 * 100 /\ soc c' == 899 # 9.
Proof. eexists. split; [reflexivity|]. split; reflexivity. Qed.

(** The same scenario in binary64: [soc] is the double nearest to 99.8889
    that Python prints as 99.88888888888889. *)
Example discharge_scenario_binary64 :
  exists c', discharge driver_cell_binary64 1%float 10%float = Ok c' /\
    soc c' = (100 - (1 * 10 / 3600) / 2.5 * 100)%float /\
    soc c' = 0x1.8f8e38e38e38ep+6%float.
Proof. eexists. split; [vm_compute; reflexivity|]. split; vm_compute; reflexivity. Qed.

(** Depletion is clamped, not signalled: an hour at 5 A empties a 2.5 Ah cell. *)
Example discharge_depleted :
  exists c', discharge driver_cell 5 3600 = Ok c' /\ soc c' == 0.
Proof. eexists. split; reflexivity. Qed.

(** In exact arithmetic: when neither clamp fires ([charge] stays at or
    below 100 and the following [discharge] at or above 0), charging and
    then discharging with the same [current] and [dt] puts [soc] back to
    its value.  The capacity must be non-zero for the two calls to return;
    the signs of [current] and [dt] play no role. *)
Theorem charge_then_discharge_soc (c : BatteryCell.t Q) (current dt : Q) :
  ~ capacity_ah c == 0 ->
  soc c + (current * dt / 3600) / capacity_ah c * 100 <= 100 ->
  0 <= (soc c + (current * dt / 3600) / capacity_ah c * 100)
       - (current * dt / 3600) / capacity_ah c * 100 ->
  exists c1 c2,
    charge c current dt = Ok c1 /\
    discharge c1 current dt = Ok c2 /\
    soc c2 == soc c.
Proof.
  set (delta := (current * dt / 3600) / capacity_ah c * 100).
  intros Hcap Hhi Hlo.
  eexists. eexists. split; [apply charge_Q_ok; exact Hcap|].
  split; [apply discharge_Q_ok; exact Hcap|].
  rewrite !soc_update_voltage, !soc_heated.
  unfold soc_delta.
  cbn [soc capacity_ah set_soc update_voltage heated cool_down set_temp set_voltage].
  fold delta.
  destruct (py_min_Q_cases (soc c + delta) 100) as [[L E]|[L E]]; [lra|].
  rewrite E.
  destruct (py_max_Q_cases (soc c + delta - delta) 0) as [[L' E']|[L' E']]; [lra|].
  rewrite E'. ring.
Qed.

Lemma charge_then_discharge_soc_witness :
  ~ capacity_ah half_charged_cell == 0 /\
  soc half_charged_cell + (1 * 10 / 3600) / capacity_ah half_charged_cell * 100 <= 100 /\
  0 <= (soc half_charged_cell + (1 * 10 / 3600) / capacity_ah half_charged_cell * 100)
       - (1 * 10 / 3600) / capacity_ah half_charged_cell * 100 /\
  exists c1 c2,
    charge half_charged_cell 1 10 = Ok c1 /\
    discharge c1 1 10 = Ok c2 /\
    soc c2 == soc half_charged_cell.
Proof.
  assert (H1 : ~ capacity_ah half_charged_cell == 0) by (vm_compute; discriminate).
  assert (H2 : soc half_charged_cell
               + (1 * 10 / 3600) / capacity_ah half_charged_cell * 100 <= 100)
    by (vm_compute; discriminate).
  assert (H3 : 0 <= (soc half_charged_cell
                     + (1 * 10 / 3600) / capacity_ah half_charged_cell * 100)
                    - (1 * 10 / 3600) / capacity_ah half_charged_cell * 100)
    by (vm_compute; discriminate).
  repeat split; try assumption.
  exact (charge_then_discharge_soc half_charged_cell 1 10 H1 H2 H3).
Defined.

(** In binary64 the sum and the difference are each rounded, and the round
    trip is exact only up to that rounding, the tolerance the specification
    allows: 50 comes back as 50, 15.9 as 15.900000000000002. *)
Example charge_then_discharge_binary64 :
  exists c1 c2 d1 d2,
    charge (init 2.5 3.7 50 100 25)%float 1%float 10%float = Ok c1 /\
    discharge c1 1%float 10%float = Ok c2 /\
    soc c2 = 50%float /\
    charge (init 2.5 3.7 15.9 100 25)%float 1%float 10%float = Ok d1 /\
    discharge d1 1%float 10%float = Ok d2 /\
    soc d2 = 0x1.fcccccccccccep+3%float /\
    PrimFloat.sub (soc d2) 15.9%float = 0x1p-49%float.
Proof.
  do 4 eexists.
  split; [vm_compute; reflexivity|]. split; [vm_compute; reflexivity|].
  split; [reflexivity|].
  split; [vm_compute; reflexivity|]. split; [vm_compute; reflexivity|].
  split; vm_compute; reflexivity.
Qed.

(** ** Heat *)


(** In binary64 the square of a finite current can be out of range, and
    [**] then raises instead of returning infinity. *)
Example generate_heat_overflow_binary64 :
  generate_heat driver_cell_binary64 1e200%float 10%float = Raise OverflowError.
Proof. vm_compute. reflexivity. Qed.

(** ** The per-cell pass of [simulate_step] *)

(** In [simulate_step] the value handed to [discharge] or [charge], and so
    to [generate_heat], is the magnitude of the commanded current. *)
Lemma step_cell_Q (c : BatteryCell.t Q) (current dt : Q) :
  (0 < current /\ BatteryPack.step_cell current dt c = discharge c current dt) \/
  (current < 0 /\ 0 < - current /\
     BatteryPack.step_cell current dt c = charge c (- current) dt) \/
  (current == 0 /\ BatteryPack.step_cell current dt c = Ok c).
Proof.
  unfold BatteryPack.step_cell. change (int 0 : Q) with 0.
  destruct (num_ltb 0 current) eqn:P.
  - left. apply ltb_Q_true in P. auto.
  - apply ltb_Q_false in P. destruct (num_ltb current 0) eqn:N.
    + right; left. apply ltb_Q_true in N. repeat split; [assumption|lra].
    + right; right. apply ltb_Q_false in N. split; [lra|reflexivity].
Qed.

Section ForEach.
Context {X : Type} (f : X -> result X).

Lemma for_each_ok (R : X -> X -> Prop) (xs : list X) :
  Forall (fun x => exists y, f x = Ok y /\ R x y) xs ->
  exists ys, for_each f xs = Ok ys /\ Forall2 R xs ys.
Proof.
  induction 1 as [|x xs (y & E & Rxy) _ (ys & Es & Rs)]; cbn.
  - exists []. split; [reflexivity|constructor].
  - exists (y :: ys). rewrite E, Es. split; [reflexivity|].
    constructor; assumption.
Qed.

Lemma for_each_inv (xs ys : list X) :
  for_each f xs = Ok ys -> Forall2 (fun x y => f x = Ok y) xs ys.
Proof.
  revert ys. induction xs as [|x xs IH]; cbn; intros ys E.
  - injection E as <-. constructor.
  - destruct (f x) as [y|e] eqn:Ex; cbn in E; [|discriminate].
    destruct (for_each f xs) as [zs|e] eqn:Es; cbn in E; [|discriminate].
    injection E as <-. constructor; [assumption|apply IH; reflexivity].
Qed.

Lemma for_each_raise (xs : list X) (e : exn) :
  for_each f xs = Raise e -> Exists (fun x => f x = Raise e) xs.
Proof.
  induction xs as [|x xs IH]; cbn; [discriminate|].
  destruct (f x) as [y|e'] eqn:Ex; cbn.
  - destruct (for_each f xs) as [zs|e'] eqn:Es; cbn; [discriminate|].
    intro K. apply Exists_cons_tl, IH. exact K.
  - intro K. apply Exists_cons_hd. congruence.
Qed.

(** When [e] is the only exception [f] raises on [xs], one raising element
    is enough for the loop to raise [e]. *)
Lemma for_each_raises (xs : list X) (e : exn) :
  Forall (fun x => f x = Raise e \/ exists y, f x = Ok y) xs ->
  Exists (fun x => f x = Raise e) xs ->
  for_each f xs = Raise e.
Proof.
  induction 1 as [|x xs [Ex|(y & Ex)] _ IH]; intro K; cbn.
  - inversion K.
  - rewrite Ex. reflexivity.
  - rewrite Ex. cbn. inversion K as [? ? K'|? ? K']; subst; [congruence|].
    rewrite (IH K'). reflexivity.
Qed.

Lemma for_each_id (xs : list X) :
  Forall (fun x => f x = Ok x) xs -> for_each f xs = Ok xs.
Proof.
  induction 1 as [|x xs E _ IH]; cbn; [reflexivity|].
  rewrite E, IH. reflexivity.
Qed.

End ForEach.

(** ** Range invariant *)

Lemma soc_delta_nonneg (c : BatteryCell.t Q) (current dt : Q) :
  0 < capacity_ah c -> 0 < current -> 0 < dt -> 0 <= soc_delta c current dt.
Proof.
  intros Hc Hi Hd. unfold soc_delta.
  apply Qmult_le_0_compat; [|lra].
  apply Qle_shift_div_l; [assumption|].
  rewrite Qmult_0_l.
  apply Qle_shift_div_l; [lra|].
  rewrite Qmult_0_l. apply Qlt_le_weak, Qmult_lt_0_compat; assumption.
Qed.

Lemma discharge_cell_ok (c : BatteryCell.t Q) (current dt : Q) :
  cell_ok c -> 0 < current -> 0 < dt ->
  exists c', discharge c current dt = Ok c' /\ cell_ok c'.
Proof.
  intros (Hc & (Hs & Hh)) Hi Hd.
  eexists. split; [apply discharge_Q_ok; lra|].
  pose proof (soc_delta_nonneg c current dt Hc Hi Hd) as D.
  split; [exact Hc|]. split; [|exact Hh].
  rewrite soc_update_voltage, soc_heated. cbn [soc set_soc].
  destruct (py_max_Q_cases (soc c - soc_delta c current dt) 0) as [[L E]|[L E]];
    rewrite E; lra.
Qed.

Lemma charge_cell_ok (c : BatteryCell.t Q) (current dt : Q) :
  cell_ok c -> 0 < current -> 0 < dt ->
  exists c', charge c current dt = Ok c' /\ cell_ok c'.
Proof.
  intros (Hc & (Hs & Hh)) Hi Hd.
  eexists. split; [apply charge_Q_ok; lra|].
  pose proof (soc_delta_nonneg c current dt Hc Hi Hd) as D.
  split; [exact Hc|]. split; [|exact Hh].
  rewrite soc_update_voltage, soc_heated. cbn [soc set_soc].
  destruct (py_min_Q_cases (soc c + soc_delta c current dt) 100) as [[L E]|[L E]];
    rewrite E; lra.
Qed.

Lemma step_cell_ok (c : BatteryCell.t Q) (current dt : Q) :
  cell_ok c -> 0 < dt ->
  exists c', BatteryPack.step_cell current dt c = Ok c' /\ cell_ok c'.
Proof.
  intros Hc Hd.
  destruct (step_cell_Q c current dt) as [(P & E)|[(N & P & E)|(Z & E)]]; rewrite E.
  - apply discharge_cell_ok; assumption.
  - apply charge_cell_ok; assumption.
  - exists c. split; [reflexivity|assumption].
Qed.

(** What [degrade_health] leaves in [soh], with the mathematical maximum. *)
Lemma degrade_health_soh (c : BatteryCell.t Q) (n : N) :
  soh (degrade_health c n) == Qmax (soh c - 0.01 * inject_Z (Z.of_N n)) 60.
Proof.
  unfold degrade_health. cbn [soh set_soh].
  change (lit_0_01 : Q) with 0.01. change (int 60 : Q) with 60.
  change (num_of_Z (Z.of_N n) : Q) with (inject_Z (Z.of_N n)).
  change (@num_sub Q _) with Qminus. change (@num_mul Q _) with Qmult.
  destruct (num_ltb (soh c - 0.01 * inject_Z (Z.of_N n)) 60) eqn:L; cbn [soh set_soh].
  - apply ltb_Q_true in L. symmetry. apply Q.max_r. lra.
  - apply ltb_Q_false in L. symmetry. apply Q.max_l. lra.
Qed.

Lemma degrade_health_frame (c : BatteryCell.t Q) (n : N) :
  let c' := degrade_health c n in
  capacity_ah c' = capacity_ah c /\ voltage_nominal c' = voltage_nominal c /\
  soc c' = soc c /\ temp c' = temp c /\ voltage c' = voltage c.
Proof.
  unfold degrade_health.
  destruct (num_ltb _ _); cbn; repeat split.
Qed.

Lemma inject_N_nonneg (n : N) : 0 <= inject_Z (Z.of_N n).
Proof.
  change 0 with (inject_Z 0). rewrite <- Zle_Qle. lia.
Qed.

Lemma degrade_health_cell_ok (c : BatteryCell.t Q) (n : N) :
  cell_ok c -> cell_ok (degrade_health c n).
Proof.
  intros (Hc & (Hs & Hh)).
  destruct (degrade_health_frame c n) as (Ec & _ & Es & _).
  pose proof (degrade_health_soh c n) as Eh.
  pose proof (inject_N_nonneg n) as Hn.
  unfold cell_ok, in_range. rewrite Ec, Es, Eh.
  split; [exact Hc|]. split; [exact Hs|].
  split; [apply Q.le_max_r|].
  apply Q.max_lub; lra.
Qed.

Lemma simulate_step_after_pass {A : Type} `{PyNum A}
      (p : BatteryPack.t A) (current dt : A) (cs : list (BatteryCell.t A)) :
  for_each (BatteryPack.step_cell current dt) (BatteryPack.cells p) = Ok cs ->
  BatteryPack.simulate_step p current dt =
  Ok (if BatteryPack.all_soc (int 100) cs || BatteryPack.all_soc (int 0) cs
      then {| BatteryPack.cells :=
                map (fun c => degrade_health c (BatteryPack.cycles p + 1)) cs;
              BatteryPack.cycles := (BatteryPack.cycles p + 1)%N |}
      else {| BatteryPack.cells := cs;
              BatteryPack.cycles := BatteryPack.cycles p |}).
Proof.
  intro E. unfold BatteryPack.simulate_step. rewrite E. cbn.
  destruct (_ || _); reflexivity.
Qed.

Lemma Forall2_Forall_r {X Y : Type} (R : X -> Y -> Prop) (P : Y -> Prop)
      (xs : list X) (ys : list Y) :
  Forall2 (fun x y => R x y /\ P y) xs ys -> Forall P ys.
Proof.
  induction 1 as [|x y xs ys [_ Py] _ IH]; constructor; assumption.
Qed.

Lemma simulate_step_ok (p : BatteryPack.t Q) (current dt : Q) :
  Forall cell_ok (BatteryPack.cells p) -> 0 < dt ->
  exists p', BatteryPack.simulate_step p current dt = Ok p' /\
    Forall cell_ok (BatteryPack.cells p').
Proof.
  intros Hp Hd.
  destruct (for_each_ok (BatteryPack.step_cell current dt)
              (fun c c' => True /\ cell_ok c') (BatteryPack.cells p))
    as (cs & E & F).
  { eapply Forall_impl; [|exact Hp].
    intros c Hc. destruct (step_cell_ok c current dt Hc Hd) as (c' & Ec & Hc').
    exists c'. auto. }
  apply Forall2_Forall_r in F.
  eexists. split; [apply simulate_step_after_pass; exact E|].
  destruct (_ || _); cbn [BatteryPack.cells]; [|exact F].
  apply Forall_map. eapply Forall_impl; [|exact F].
  intros c Hc. apply degrade_health_cell_ok. exact Hc.
Qed.

Lemma run_ok (profile : list (Q * Q)) (p : BatteryPack.t Q) :
  Forall cell_ok (BatteryPack.cells p) -> positive_dt profile ->
  exists p', BatteryPack.run p profile = Ok p' /\
    Forall cell_ok (BatteryPack.cells p').
Proof.
  revert p. induction profile as [|[current dt] rest IH]; intros p Hp Hd.
  - exists p. split; [reflexivity|assumption].
  - inversion Hd as [|? ? Hd1 Hd2]; subst. cbn [snd] in Hd1.
    destruct (simulate_step_ok p current dt Hp Hd1) as (p1 & E1 & H1).
    destruct (IH p1 H1 Hd2) as (p' & E' & H').
    exists p'. cbn [BatteryPack.run]. rewrite E1. cbn [bind]. auto.
Qed.

(** In exact arithmetic, where the square never overflows: a pack whose
    cells have a positive capacity and start with [0 <= soc <= 100] and
    [60 <= soh <= 100] runs any profile of arbitrary currents and positive
    time steps without an exception, and every cell is within the same
    bounds afterwards. *)
Theorem soc_soh_bounds_invariant (p : BatteryPack.t Q) (profile : list (Q * Q)) :
  Forall (fun c => 0 < capacity_ah c) (BatteryPack.cells p) ->
  Forall in_range (BatteryPack.cells p) ->
  positive_dt profile ->
  exists p', BatteryPack.run p profile = Ok p' /\
    Forall in_range (BatteryPack.cells p').
Proof.
  intros Hc Hr Hd.
  assert (Hp : Forall cell_ok (BatteryPack.cells p)).
  { rewrite Forall_forall in *. intros c Hin. split; auto. }
  destruct (run_ok profile p Hp Hd) as (p' & E & H').
  exists p'. split; [exact E|].
  eapply Forall_impl; [|exact H']. intros c Hcell. apply Hcell.
Qed.

(** The one-step form of C3, for any current. *)
Corollary simulate_step_bounds (p : BatteryPack.t Q) (current dt : Q) :
  Forall (fun c => 0 < capacity_ah c) (BatteryPack.cells p) ->
  Forall in_range (BatteryPack.cells p) ->
  0 < dt ->
  exists p', BatteryPack.simulate_step p current dt = Ok p' /\
    Forall in_range (BatteryPack.cells p').
Proof.
  intros Hc Hr Hd.
  assert (Hp : Forall cell_ok (BatteryPack.cells p)).
  { rewrite Forall_forall in *. intros c Hin. split; auto. }
  destruct (simulate_step_ok p current dt Hp Hd) as (p' & E & H').
  exists p'. split; [exact E|].
  eapply Forall_impl; [|exact H']. intros c Hcell. apply Hcell.
Qed.

Lemma soc_soh_bounds_invariant_witness :
  Forall (fun c => 0 < capacity_ah c) (BatteryPack.cells driver_pack) /\
  Forall in_range (BatteryPack.cells driver_pack) /\
  positive_dt short_profile /\
  exists p', BatteryPack.run driver_pack short_profile = Ok p' /\
    Forall in_range (BatteryPack.cells p').
Proof.
  assert (Hc : Forall (fun c => 0 < capacity_ah c) (BatteryPack.cells driver_pack))
    by (repeat constructor).
  assert (Hr : Forall in_range (BatteryPack.cells driver_pack))
    by (repeat constructor; cbn; discriminate).
  assert (Hd : positive_dt short_profile) by (repeat constructor).
  repeat split; try assumption.
  exact (soc_soh_bounds_invariant driver_pack short_profile Hc Hr Hd).
Defined.

(** ** State of health along a run *)

Lemma simulate_step_inv {A : Type} `{PyNum A}
      (p p' : BatteryPack.t A) (current dt : A) :
  BatteryPack.simulate_step p current dt = Ok p' ->
  exists cs,
    for_each (BatteryPack.step_cell current dt) (BatteryPack.cells p) = Ok cs /\
    p' = (if BatteryPack.all_soc (int 100) cs || BatteryPack.all_soc (int 0) cs
          then {| BatteryPack.cells :=
                    map (fun c => degrade_health c (BatteryPack.cycles p + 1)) cs;
                  BatteryPack.cycles := (BatteryPack.cycles p + 1)%N |}
          else {| BatteryPack.cells := cs;
                  BatteryPack.cycles := BatteryPack.cycles p |}).
Proof.
  intro E.
  destruct (for_each (BatteryPack.step_cell current dt) (BatteryPack.cells p))
    as [cs|e] eqn:Ecs.
  - exists cs. split; [reflexivity|].
    rewrite (simulate_step_after_pass p current dt cs Ecs) in E.
    injection E as <-. reflexivity.
  - unfold BatteryPack.simulate_step in E. rewrite Ecs in E. discriminate.
Qed.

(** The per-cell pass writes [soc], [temp] and [voltage] only. *)
Lemma step_cell_soh {A : Type} `{PyNum A}
      (c c' : BatteryCell.t A) (current dt : A) :
  BatteryPack.step_cell current dt c = Ok c' ->
  soh c' = soh c /\ capacity_ah c' = capacity_ah c /\
  voltage_nominal c' = voltage_nominal c.
Proof.
  unfold BatteryPack.step_cell, discharge, charge, generate_heat, py_div.
  repeat match goal with
         | |- context [if ?b then _ else _] => destruct b
         | |- context [num_pow2 ?x] => destruct (num_pow2 x)
         end; cbn; intro E; try discriminate; injection E as <-; cbn; auto.
Qed.

Lemma degrade_health_le (c : BatteryCell.t Q) (n : N) :
  60 <= soh c ->
  soh (degrade_health c n) <= soh c /\ 60 <= soh (degrade_health c n).
Proof.
  intro F. rewrite degrade_health_soh.
  pose proof (inject_N_nonneg n) as Hn.
  split; [apply Q.max_lub; lra|apply Q.le_max_r].
Qed.

Lemma Forall2_map_r {X Y Z : Type} (R : X -> Y -> Prop) (S : X -> Z -> Prop)
      (g : Y -> Z) (xs : list X) (ys : list Y) :
  (forall x y, R x y -> S x (g y)) ->
  Forall2 R xs ys -> Forall2 S xs (map g ys).
Proof.
  intro K. induction 1; cbn; constructor; auto.
Qed.

Lemma Forall2_trans {X : Type} (R : X -> X -> Prop) :
  (forall x y z, R x y -> R y z -> R x z) ->
  forall xs ys zs, Forall2 R xs ys -> Forall2 R ys zs -> Forall2 R xs zs.
Proof.
  intros T xs ys zs F. revert zs.
  induction F as [|x y xs ys Rxy _ IH]; intros zs G; inversion G; subst;
    constructor; eauto.
Qed.

Lemma Forall2_Forall_l {X Y : Type} (P : X -> Prop) (R : X -> Y -> Prop)
      (S : X -> Y -> Prop) (xs : list X) (ys : list Y) :
  (forall x y, P x -> R x y -> S x y) ->
  Forall P xs -> Forall2 R xs ys -> Forall2 S xs ys.
Proof.
  intros K F G. induction G; inversion F; subst; constructor; auto.
Qed.

Lemma simulate_step_soh (p p' : BatteryPack.t Q) (current dt : Q) :
  Forall (fun c => 60 <= soh c) (BatteryPack.cells p) ->
  BatteryPack.simulate_step p current dt = Ok p' ->
  Forall2 (fun c c' => soh c' <= soh c /\ 60 <= soh c')
          (BatteryPack.cells p) (BatteryPack.cells p').
Proof.
  intros F E.
  destruct (simulate_step_inv p p' current dt E) as (cs & Ecs & ->).
  apply for_each_inv in Ecs.
  assert (G : Forall2 (fun c c' => soh c' = soh c /\ 60 <= soh c')
                      (BatteryPack.cells p) cs).
  { eapply Forall2_Forall_l; [|exact F|exact Ecs].
    intros c c' Fc Ec. cbn in Ec.
    destruct (step_cell_soh c c' current dt Ec) as (-> & _). auto. }
  destruct (_ || _); cbn [BatteryPack.cells].
  - eapply Forall2_map_r; [|exact G].
    intros c c' (Eh & Fc').
    destruct (degrade_health_le c' (BatteryPack.cycles p + 1) Fc') as (L1 & L2).
    rewrite <- Eh. auto.
  - eapply Forall2_impl; [|exact G].
    intros c c' (Eh & Fc'). split; [rewrite Eh; apply Qle_refl|exact Fc'].
Qed.

Lemma run_soh (profile : list (Q * Q)) (p p' : BatteryPack.t Q) :
  Forall (fun c => 60 <= soh c) (BatteryPack.cells p) ->
  BatteryPack.run p profile = Ok p' ->
  Forall2 (fun c c' => soh c' <= soh c) (BatteryPack.cells p) (BatteryPack.cells p')
  /\ Forall (fun c => 60 <= soh c) (BatteryPack.cells p').
Proof.
  revert p. induction profile as [|[current dt] rest IH]; intros p F E;
    cbn [BatteryPack.run] in E.
  - injection E as <-. split; [|exact F].
    clear F. induction (BatteryPack.cells p) as [|c cs IHcs]; constructor;
      [apply Qle_refl|exact IHcs].
  - destruct (BatteryPack.simulate_step p current dt) as [p1|e] eqn:E1;
      cbn [bind] in E; [|discriminate].
    pose proof (simulate_step_soh p p1 current dt F E1) as G.
    assert (F1 : Forall (fun c => 60 <= soh c) (BatteryPack.cells p1)).
    { eapply Forall2_Forall_r. exact G. }
    destruct (IH p1 F1 E) as (M & F').
    split; [|exact F'].
    eapply Forall2_trans; [|eapply Forall2_impl; [|exact G]|exact M].
    + intros x y z Hxy Hyz. cbn in *. lra.
    + intros c c' (L & _). exact L.
Qed.

(** C8, as amended.  In a pack whose cells start at or above the floor
    ([60 <= soh]), [soh] never increases: between any two moments of a run
    (after [before] and after [before ++ after]) every cell's [soh] has
    stayed or dropped. *)
Theorem soh_non_increasing (p p1 p2 : BatteryPack.t Q) (before after : list (Q * Q)) :
  Forall (fun c => 60 <= soh c) (BatteryPack.cells p) ->
  BatteryPack.run p before = Ok p1 ->
  BatteryPack.run p1 after = Ok p2 ->
  Forall2 (fun c1 c2 => soh c2 <= soh c1)
          (BatteryPack.cells p1) (BatteryPack.cells p2).
Proof.
  intros F E1 E2.
  destruct (run_soh before p p1 F E1) as (_ & F1).
  destruct (run_soh after p1 p2 F1 E2) as (M & _).
  exact M.
Qed.

Lemma soh_non_increasing_witness :
  Forall (fun c => 60 <= soh c) (BatteryPack.cells driver_pack) /\
  exists p1 p2,
    BatteryPack.run driver_pack [(0, 10)] = Ok p1 /\
    BatteryPack.run p1 short_profile = Ok p2 /\
    Forall2 (fun c1 c2 => soh c2 <= soh c1)
            (BatteryPack.cells p1) (BatteryPack.cells p2).
Proof.
  assert (F : Forall (fun c => 60 <= soh c) (BatteryPack.cells driver_pack))
    by (repeat constructor; cbn; discriminate).
  split; [exact F|].
  eexists. eexists.
  split; [vm_compute; reflexivity|].
  split; [vm_compute; reflexivity|].
  apply (soh_non_increasing driver_pack _ _ [(0, 10)] short_profile F);
    vm_compute; reflexivity.
Defined.

(** C8 as stated fails: a cell that starts below the floor ([soh = 50], which
    is [<= 100]) is lifted to 60 by the first [degrade_health]. *)
Lemma soh_raised_to_floor :
  Forall (fun c => soh c <= 100) (BatteryPack.cells low_health_pack) /\
  exists p',
    BatteryPack.run low_health_pack [(0, 10)] = Ok p' /\
    map (@soh Q) (BatteryPack.cells low_health_pack) = [50] /\
    map (@soh Q) (BatteryPack.cells p') = [60] /\
    ~ Forall2 (fun c c' => soh c' <= soh c)
              (BatteryPack.cells low_health_pack) (BatteryPack.cells p').
Proof.
  split; [repeat constructor; cbn; discriminate|].
  eexists. split; [vm_compute; reflexivity|].
  split; [reflexivity|]. split; [reflexivity|].
  intro K. inversion K as [|? ? ? ? L _]; subst.
  vm_compute in L. apply L. reflexivity.
Qed.

(** ** Identical cells *)

Lemma Forall2_In_r {X Y : Type} (R : X -> Y -> Prop) (xs : list X) (ys : list Y) (y : Y) :
  Forall2 R xs ys -> In y ys -> exists x, In x xs /\ R x y.
Proof.
  induction 1 as [|x0 y0 xs ys R0 _ IH]; cbn; [contradiction|].
  intros [<-|Hin].
  - exists x0. auto.
  - destruct (IH Hin) as (x & Hx & Rx). exists x. auto.
Qed.

Section Identical.
Context {A : Type} `{PyNum A}.

Lemma simulate_step_identical (p p' : BatteryPack.t A) (current dt : A) :
  identical_cells p ->
  BatteryPack.simulate_step p current dt = Ok p' ->
  identical_cells p' /\
  length (BatteryPack.cells p') = length (BatteryPack.cells p).
Proof.
  intros I E.
  destruct (simulate_step_inv p p' current dt E) as (cs & Ecs & ->).
  apply for_each_inv in Ecs.
  assert (Ics : forall c1 c2, In c1 cs -> In c2 cs -> c1 = c2).
  { intros c1 c2 H1 H2.
    destruct (Forall2_In_r _ _ _ c1 Ecs H1) as (x1 & X1 & E1).
    destruct (Forall2_In_r _ _ _ c2 Ecs H2) as (x2 & X2 & E2).
    rewrite (I x1 x2 X1 X2) in E1. congruence. }
  assert (Len : length cs = length (BatteryPack.cells p)).
  { symmetry. eapply Forall2_length. exact Ecs. }
  destruct (_ || _); unfold identical_cells; cbn [BatteryPack.cells].
  - split; [|rewrite length_map; exact Len].
    intros c1 c2 H1 H2.
    apply in_map_iff in H1. destruct H1 as (x1 & <- & X1).
    apply in_map_iff in H2. destruct H2 as (x2 & <- & X2).
    rewrite (Ics x1 x2 X1 X2). reflexivity.
  - split; [exact Ics|exact Len].
Qed.

Lemma run_identical (profile : list (A * A)) (p p' : BatteryPack.t A) :
  identical_cells p ->
  BatteryPack.run p profile = Ok p' ->
  identical_cells p' /\
  length (BatteryPack.cells p') = length (BatteryPack.cells p).
Proof.
  revert p. induction profile as [|[current dt] rest IH]; intros p I E;
    cbn [BatteryPack.run] in E.
  - injection E as <-. auto.
  - destruct (BatteryPack.simulate_step p current dt) as [p1|e] eqn:E1;
      cbn [bind] in E; [|discriminate].
    destruct (simulate_step_identical p p1 current dt I E1) as (I1 & L1).
    destruct (IH p1 I1 E) as (I' & L'). split; [exact I'|congruence].
Qed.

Lemma init_identical (num_cells : Z) (cell_capacity cell_voltage : A) :
  identical_cells (BatteryPack.init num_cells cell_capacity cell_voltage).
Proof.
  intros c1 c2 H1 H2. cbn in H1, H2.
  apply repeat_spec in H1, H2. congruence.
Qed.

(** In a pack built by [BatteryPack(num_cells, cell_capacity,
    cell_voltage)], after any sequence of [simulate_step] calls that all
    return, all cells are in the same state, and there are as many of them
    as at construction.  This holds for any arithmetic, binary64
    included. *)
Theorem cells_stay_identical
        (num_cells : Z) (cell_capacity cell_voltage : A)
        (profile : list (A * A)) (p : BatteryPack.t A) :
  BatteryPack.run (BatteryPack.init num_cells cell_capacity cell_voltage) profile = Ok p ->
  identical_cells p /\ length (BatteryPack.cells p) = Z.to_nat num_cells.
Proof.
  intro E.
  destruct (run_identical profile _ p
              (init_identical num_cells cell_capacity cell_voltage) E) as (I & L).
  split; [exact I|]. rewrite L. cbn. apply repeat_length.
Qed.

End Identical.

Lemma cells_stay_identical_witness :
  exists p,
    BatteryPack.run (BatteryPack.init 4 2.5 3.7) short_profile = Ok p /\
    identical_cells p /\ length (BatteryPack.cells p) = Z.to_nat 4.
Proof.
  eexists. split; [vm_compute; reflexivity|].
  apply (cells_stay_identical 4 2.5 3.7 short_profile).
  vm_compute. reflexivity.
Defined.

(** A run that does not raise exists whenever the capacity is not zero. *)
Lemma run_constructed_ok (num_cells : Z) (cell_capacity cell_voltage : Q)
      (profile : list (Q * Q)) :
  0 < cell_capacity -> positive_dt profile ->
  exists p,
    BatteryPack.run (BatteryPack.init num_cells cell_capacity cell_voltage) profile = Ok p.
Proof.
  intros Hc Hd.
  destruct (run_ok profile (BatteryPack.init num_cells cell_capacity cell_voltage))
    as (p & E & _); [|exact Hd|exists p; exact E].
  apply Forall_forall. intros c Hin. cbn in Hin. apply repeat_spec in Hin. subst c.
  split; [exact Hc|]. repeat split; cbn; discriminate.
Qed.

(** ** Cycle detection *)

Lemma all_soc_Q (x : Q) (cs : list (BatteryCell.t Q)) :
  BatteryPack.all_soc x cs = true <-> Forall (fun c => soc c == x) cs.
Proof.
  unfold BatteryPack.all_soc. rewrite forallb_forall, Forall_forall.
  split; intros K c Hin; apply eqb_Q_true, K, Hin.
Qed.

Lemma step_cell_rest (c : BatteryCell.t Q) (dt : Q) :
  BatteryPack.step_cell 0 dt c = Ok c.
Proof. reflexivity. Qed.

(** C10.  On a pack whose cells all have [soc == 100], [simulate_step(0, dt)]
    returns normally, adds one to [cycles], and replaces every cell by its
    [degrade_health] at the new count: [soh] becomes the maximum of
    [soh - 0.01 * (cycles + 1)] and the floor 60, the other attributes stay. *)
Theorem rest_step_counts_cycle (p : BatteryPack.t Q) (dt : Q) :
  Forall (fun c => soc c == 100) (BatteryPack.cells p) ->
  exists p',
    BatteryPack.simulate_step p 0 dt = Ok p' /\
    BatteryPack.cycles p' = (BatteryPack.cycles p + 1)%N /\
    Forall2 (fun c c' =>
               soh c' == Qmax (soh c - 0.01 * inject_Z (Z.of_N (BatteryPack.cycles p + 1))) 60 /\
               soc c' = soc c /\ temp c' = temp c /\ voltage c' = voltage c /\
               capacity_ah c' = capacity_ah c /\ voltage_nominal c' = voltage_nominal c)
            (BatteryPack.cells p) (BatteryPack.cells p').
Proof.
  intro F.
  assert (E : for_each (BatteryPack.step_cell 0 dt) (BatteryPack.cells p)
              = Ok (BatteryPack.cells p)).
  { apply for_each_id. apply Forall_forall. intros c _. apply step_cell_rest. }
  eexists. split; [apply simulate_step_after_pass; exact E|].
  apply (all_soc_Q 100) in F. change (int 100 : Q) with 100. rewrite F.
  cbn [orb BatteryPack.cycles BatteryPack.cells]. split; [reflexivity|].
  clear. induction (BatteryPack.cells p) as [|c cs IH]; cbn [map]; constructor;
    [|exact IH].
  split; [apply degrade_health_soh|].
  destruct (degrade_health_frame c (BatteryPack.cycles p + 1)) as (? & ? & ? & ? & ?).
  auto.
Qed.

(** A freshly constructed pack at rest: [cycles] goes from 0 to 1 and every
    [soh] from 100 to 99.99. *)
Lemma rest_step_counts_cycle_witness :
  Forall (fun c => soc c == 100) (BatteryPack.cells driver_pack) /\
  exists p',
    BatteryPack.simulate_step driver_pack 0 10 = Ok p' /\
    BatteryPack.cycles p' = (BatteryPack.cycles driver_pack + 1)%N /\
    Forall2 (fun c c' =>
               soh c' == Qmax (soh c - 0.01 * inject_Z (Z.of_N (BatteryPack.cycles driver_pack + 1))) 60 /\
               soc c' = soc c /\ temp c' = temp c /\ voltage c' = voltage c /\
               capacity_ah c' = capacity_ah c /\ voltage_nominal c' = voltage_nominal c)
            (BatteryPack.cells driver_pack) (BatteryPack.cells p').
Proof.
  assert (F : Forall (fun c => soc c == 100) (BatteryPack.cells driver_pack))
    by (repeat constructor).
  split; [exact F|].
  exact (rest_step_counts_cycle driver_pack 10 F).
Defined.

Example rest_step_fresh_pack :
  exists p', BatteryPack.simulate_step driver_pack 0 10 = Ok p' /\
    BatteryPack.cycles p' = 1%N /\
    map (@soh Q) (BatteryPack.cells p') = [99.99; 99.99; 99.99; 99.99].
Proof. eexists. split; [vm_compute; reflexivity|]. split; reflexivity. Qed.

Example rest_step_fresh_pack_binary64 :
  exists p', BatteryPack.simulate_step driver_pack_binary64 0%float 10%float = Ok p' /\
    BatteryPack.cycles p' = 1%N /\
    map (@soh float) (BatteryPack.cells p')
    = [99.99; 99.99; 99.99; 99.99]%float.
Proof. eexists. split; [vm_compute; reflexivity|]. split; reflexivity. Qed.

(** While the pack stays saturated, every charging step counts a cycle. *)
Lemma saturated_charge_counts (p : BatteryPack.t Q) (current dt : Q) :
  Forall (fun c => 0 < capacity_ah c /\ soc c == 100) (BatteryPack.cells p) ->
  current < 0 -> 0 < dt ->
  exists p',
    BatteryPack.simulate_step p current dt = Ok p' /\
    BatteryPack.cycles p' = (BatteryPack.cycles p + 1)%N /\
    Forall (fun c => 0 < capacity_ah c /\ soc c == 100) (BatteryPack.cells p').
Proof.
  intros F Hi Hd.
  destruct (for_each_ok (BatteryPack.step_cell current dt)
              (fun c c' => True /\ (0 < capacity_ah c' /\ soc c' == 100))
              (BatteryPack.cells p)) as (cs & E & G).
  { eapply Forall_impl; [|exact F]. intros c (Hc & Hs).
    destruct (step_cell_Q c current dt) as [(P & _)|[(_ & P & Ec)|(Z & _)]];
      [lra| |lra].
    rewrite Ec. eexists. split; [apply charge_Q_ok; lra|].
    split; [exact I|]. split; [exact Hc|].
    rewrite soc_update_voltage, soc_heated. cbn [soc set_soc].
    pose proof (soc_delta_nonneg c (- current) dt Hc P Hd) as D.
    destruct (py_min_Q_cases (soc c + soc_delta c (- current) dt) 100)
      as [[L K]|[L K]]; rewrite K; lra. }
  apply Forall2_Forall_r in G.
  eexists. split; [apply simulate_step_after_pass; exact E|].
  assert (S : BatteryPack.all_soc 100 cs = true).
  { apply all_soc_Q. eapply Forall_impl; [|exact G]. intros c (_ & Hs). exact Hs. }
  change (int 100 : Q) with 100. rewrite S.
  cbn [orb BatteryPack.cycles BatteryPack.cells]. split; [reflexivity|].
  apply Forall_map. eapply Forall_impl; [|exact G]. intros c (Hc & Hs).
  destruct (degrade_health_frame c (BatteryPack.cycles p + 1)) as (-> & _ & -> & _).
  auto.
Qed.

(** C1 fails on the code.  The driver's pack starts with every cell at
    [soc = 100]; a charging step ([current = -1], [dt = 10]) leaves every
    cell at 100, crosses nothing, and still [cycles] goes from 0 to 1; the
    next such step takes it to 2. *)
Theorem cycles_counted_on_every_saturated_step :
  BatteryPack.cycles driver_pack = 0%N /\
  map (@soc Q) (BatteryPack.cells driver_pack) = [100; 100; 100; 100] /\
  exists p1 p2,
    BatteryPack.simulate_step driver_pack (-1) 10 = Ok p1 /\
    map (@soc Q) (BatteryPack.cells p1) = [100; 100; 100; 100] /\
    BatteryPack.cycles p1 = 1%N /\
    BatteryPack.simulate_step p1 (-1) 10 = Ok p2 /\
    map (@soc Q) (BatteryPack.cells p2) = [100; 100; 100; 100] /\
    BatteryPack.cycles p2 = 2%N.
Proof.
  split; [reflexivity|]. split; [reflexivity|].
  eexists. eexists.
  split; [vm_compute; reflexivity|]. split; [reflexivity|]. split; [reflexivity|].
  split; [vm_compute; reflexivity|]. split; reflexivity.
Qed.

Example cycles_counted_on_every_saturated_step_binary64 :
  exists p1 p2,
    BatteryPack.simulate_step driver_pack_binary64 (-1)%float 10%float = Ok p1 /\
    BatteryPack.cycles p1 = 1%N /\
    BatteryPack.simulate_step p1 (-1)%float 10%float = Ok p2 /\
    BatteryPack.cycles p2 = 2%N.
Proof.
  eexists. eexists.
  split; [vm_compute; reflexivity|]. split; [reflexivity|].
  split; [vm_compute; reflexivity|]. reflexivity.
Qed.

(** ** Voltage *)

Lemma update_voltage_consistent (c : BatteryCell.t Q) :
  voltage_consistent (update_voltage c).
Proof. unfold voltage_consistent. cbn. reflexivity. Qed.

(** [discharge] and [charge] end with [update_voltage]. *)
Lemma discharge_voltage_consistent (c c' : BatteryCell.t Q) (current dt : Q) :
  discharge c current dt = Ok c' -> voltage_consistent c'.
Proof.
  unfold discharge. destruct (py_div _ _) as [q|e]; cbn; [|discriminate].
  intro E. injection E as <-. apply update_voltage_consistent.
Qed.

Lemma charge_voltage_consistent (c c' : BatteryCell.t Q) (current dt : Q) :
  charge c current dt = Ok c' -> voltage_consistent c'.
Proof.
  unfold charge. destruct (py_div _ _) as [q|e]; cbn; [|discriminate].
  intro E. injection E as <-. apply update_voltage_consistent.
Qed.

(** A freshly constructed cell is consistent: [voltage = voltage_nominal]
    with [soc = soh = 100]. *)
Lemma init_default_voltage_consistent (capacity voltage_nom : Q) :
  voltage_consistent (init_default capacity voltage_nom).
Proof. unfold voltage_consistent. cbn. field. Qed.

(** [degrade_health] changes [soh] and leaves the stored [voltage] as it was. *)
Lemma degrade_health_breaks_voltage (c : BatteryCell.t Q) (n : N) :
  voltage_consistent c ->
  ~ voltage_nominal c * soc c == 0 ->
  60 <= soh c - 0.01 * inject_Z (Z.of_N n) ->
  (0 < n)%N ->
  ~ voltage_consistent (degrade_health c n).
Proof.
  unfold voltage_consistent. intros V NZ Fl Pos K.
  destruct (degrade_health_frame c n) as (_ & Evn & Es & _ & Ev).
  pose proof (degrade_health_soh c n) as Eh.
  rewrite Ev, Evn, Es, Eh, V in K.
  rewrite Q.max_l in K by exact Fl.
  assert (Hn : 0 < inject_Z (Z.of_N n)).
  { change 0 with (inject_Z 0). rewrite <- Zlt_Qlt. lia. }
  set (k := inject_Z (Z.of_N n)) in *.
  assert (Z : voltage_nominal c * soc c * k == 0).
  { assert (K' : voltage_nominal c * (soc c / 100) * (soh c / 100)
                 - voltage_nominal c * (soc c / 100) * ((soh c - 0.01 * k) / 100) == 0)
      by (rewrite <- K; ring).
    assert (Z : voltage_nominal c * soc c * k
                == 1000000 * (voltage_nominal c * (soc c / 100) * (soh c / 100)
                              - voltage_nominal c * (soc c / 100)
                                * ((soh c - 0.01 * k) / 100))) by field.
    rewrite K' in Z. rewrite Z. ring. }
  apply Qmult_integral in Z. destruct Z as [Z|Z]; [contradiction|lra].
Qed.

(** C2 fails on the code.  After one charging step of the driver's pack the
    cycle check fires and [degrade_health] lowers [soh] to 99.99, but no
    [update_voltage] follows: [voltage] is still 3.7, not
    [3.7 * (100/100) * (99.99/100)]. *)
Theorem voltage_stale_after_degrade :
  exists p1,
    BatteryPack.simulate_step driver_pack (-1) 10 = Ok p1 /\
    Forall (fun c =>
              voltage_nominal c == 3.7 /\ soc c == 100 /\ soh c == 99.99 /\
              voltage c == 3.7 /\
              voltage_nominal c * (soc c / 100) * (soh c / 100) == 3.69963 /\
              ~ voltage_consistent c)
           (BatteryPack.cells p1).
Proof.
  eexists. split; [vm_compute; reflexivity|].
  repeat constructor; try reflexivity; vm_compute; discriminate.
Qed.

Example voltage_stale_after_degrade_binary64 :
  exists p1,
    BatteryPack.simulate_step driver_pack_binary64 (-1)%float 10%float = Ok p1 /\
    Forall (fun c =>
              soh c = 99.99%float /\ voltage c = 3.7%float /\
              (voltage_nominal c * (soc c / 100) * (soh c / 100))%float
              = 3.69963%float)
           (BatteryPack.cells p1).
Proof.
  eexists. split; [vm_compute; reflexivity|].
  repeat constructor; vm_compute; reflexivity.
Qed.

(** The same after a step with no current at all. *)
Example voltage_stale_after_rest :
  exists p1,
    BatteryPack.simulate_step driver_pack 0 10 = Ok p1 /\
    Forall (fun c => ~ voltage_consistent c) (BatteryPack.cells p1).
Proof.
  eexists. split; [vm_compute; reflexivity|].
  repeat constructor; vm_compute; discriminate.
Qed.

(** The driver script itself ends in such a state: after its 720 steps the
    last charging step brings [soc] back to 100, the cycle is counted once,
    [soh] is 99.99 and [voltage] is left at 3.7. *)
Example driver_script_final_state_binary64 :
  exists p,
    BatteryPack.run driver_pack_binary64 driver_profile_binary64 = Ok p /\
    BatteryPack.cycles p = 1%N /\
    Forall (fun c => soc c = 100%float /\ soh c = 99.99%float /\
                     voltage c = 3.7%float)
           (BatteryPack.cells p).
Proof.
  eexists. split; [vm_compute; reflexivity|].
  split; [reflexivity|]. repeat constructor.
Qed.

(** ** Errors *)

Lemma discharge_Q_raise (c : BatteryCell.t Q) (current dt : Q) :
  capacity_ah c == 0 -> discharge c current dt = Raise ZeroDivisionError.
Proof.
  intro E. unfold discharge. rewrite py_div_Q_raise by exact E. reflexivity.
Qed.

Lemma charge_Q_raise (c : BatteryCell.t Q) (current dt : Q) :
  capacity_ah c == 0 -> charge c current dt = Raise ZeroDivisionError.
Proof.
  intro E. unfold charge. rewrite py_div_Q_raise by exact E. reflexivity.
Qed.

Lemma step_cell_raise_Q (c : BatteryCell.t Q) (current dt : Q) (e : exn) :
  BatteryPack.step_cell current dt c = Raise e <->
  e = ZeroDivisionError /\ ~ current == 0 /\ capacity_ah c == 0.
Proof.
  destruct (Qeq_dec (capacity_ah c) 0) as [Z|NZ];
    destruct (step_cell_Q c current dt) as [(P & E)|[(N & P & E)|(Z0 & E)]];
    rewrite E; clear E.
  - rewrite discharge_Q_raise by exact Z.
    split; [intro K; injection K as <-;
            split; [reflexivity|split; [lra|exact Z]]
           |intros (-> & _); reflexivity].
  - rewrite charge_Q_raise by exact Z.
    split; [intro K; injection K as <-;
            split; [reflexivity|split; [lra|exact Z]]
           |intros (-> & _); reflexivity].
  - split; [discriminate|intros (_ & K & _); contradiction].
  - rewrite discharge_Q_ok by exact NZ.
    split; [discriminate|intros (_ & _ & K); contradiction].
  - rewrite charge_Q_ok by exact NZ.
    split; [discriminate|intros (_ & _ & K); contradiction].
  - split; [discriminate|intros (_ & K & _); contradiction].
Qed.

Lemma step_cell_total_Q (c : BatteryCell.t Q) (current dt : Q) :
  BatteryPack.step_cell current dt c = Raise ZeroDivisionError \/
  exists c', BatteryPack.step_cell current dt c = Ok c'.
Proof.
  destruct (BatteryPack.step_cell current dt c) as [c'|e] eqn:E.
  - right. exists c'. reflexivity.
  - left. apply step_cell_raise_Q in E. destruct E as (-> & _). reflexivity.
Qed.

(** In exact arithmetic, where the square never overflows, the one
    exception [simulate_step] can raise is the [ZeroDivisionError] of the
    division by [capacity_ah], and it raises it exactly when the current is
    not zero and some cell has capacity zero. *)
Theorem simulate_step_raises_iff (p : BatteryPack.t Q) (current dt : Q) (e : exn) :
  BatteryPack.simulate_step p current dt = Raise e <->
  e = ZeroDivisionError /\ ~ current == 0 /\
  Exists (fun c => capacity_ah c == 0) (BatteryPack.cells p).
Proof.
  split.
  - intro K.
    destruct (for_each (BatteryPack.step_cell current dt) (BatteryPack.cells p))
      as [cs|e'] eqn:E.
    + rewrite (simulate_step_after_pass p current dt cs E) in K. discriminate.
    + unfold BatteryPack.simulate_step in K. rewrite E in K. cbn in K.
      injection K as ->.
      apply for_each_raise in E. apply Exists_exists in E.
      destruct E as (c & Hin & Ec). apply step_cell_raise_Q in Ec.
      destruct Ec as (-> & NZ & Z). repeat split; [exact NZ|].
      apply Exists_exists. exists c. auto.
  - intros (-> & NZ & Ex).
    unfold BatteryPack.simulate_step.
    rewrite (for_each_raises (BatteryPack.step_cell current dt)
               (BatteryPack.cells p) ZeroDivisionError); [reflexivity| |].
    + apply Forall_forall. intros c _. apply step_cell_total_Q.
    + eapply Exists_impl; [|exact Ex]. intros c Z. cbn beta.
      apply step_cell_raise_Q. auto.
Qed.

(** Hence it returns whenever the current is zero or no capacity is. *)
Corollary simulate_step_returns (p : BatteryPack.t Q) (current dt : Q) :
  current == 0 \/ Forall (fun c => ~ capacity_ah c == 0) (BatteryPack.cells p) ->
  exists p', BatteryPack.simulate_step p current dt = Ok p'.
Proof.
  intro H.
  destruct (BatteryPack.simulate_step p current dt) as [p'|e] eqn:E;
    [exists p'; reflexivity|].
  exfalso.
  destruct (for_each (BatteryPack.step_cell current dt) (BatteryPack.cells p))
    as [cs|e'] eqn:Ecs.
  - rewrite (simulate_step_after_pass p current dt cs Ecs) in E. discriminate.
  - apply for_each_raise in Ecs. apply Exists_exists in Ecs.
    destruct Ecs as (c & Hin & Ec). apply step_cell_raise_Q in Ec.
    destruct Ec as (_ & NZ & Z). destruct H as [H|H]; [contradiction|].
    rewrite Forall_forall in H. exact (H c Hin Z).
Qed.

(** The averages divide by [len(self.cells)]: they raise on an empty pack,
    and only there. *)
Lemma get_average_soc_raises (p : BatteryPack.t Q) :
  BatteryPack.get_average_soc p = Raise ZeroDivisionError <-> BatteryPack.cells p = [].
Proof.
  unfold BatteryPack.get_average_soc, BatteryPack.len, py_div.
  destruct (BatteryPack.cells p) as [|c cs]; cbn [length];
    [split; reflexivity|].
  split; [|discriminate].
  destruct (num_eqb _ _) eqn:K; [|discriminate].
  exfalso. apply eqb_Q_true in K. change (int 0 : Q) with (inject_Z 0) in K.
  cbn [num_of_Z Q_PyNum] in K. unfold Qeq in K. cbn [Qnum Qden inject_Z] in K. lia.
Qed.

(** C5 fails on the code: each of the listed violations is accepted and
    processed with the ordinary update rules.
    - capacity and voltage [-2.5] and [-3.7]: the pack is built, and one hour
      of discharge at 1 A "drops" [soc] by -40, to 140;
    - [num_cells = 0]: the pack is built empty, and a step counts a cycle,
      both [all(...)] being true of no cells;
    - [dt = -3600]: [soc] goes to 140 on discharge;
    - [dt = 0]: the step returns;
    - [current = inf], [current = nan] (binary64): the step returns, with
      [temp = nan] in the first case. *)
Lemma preconditions_not_validated :
  (exists p, BatteryPack.simulate_step (BatteryPack.init 4 (-2.5) (-3.7)) 1 3600 = Ok p /\
             BatteryPack.cells p <> [] /\
             Forall (fun c => soc c == 140) (BatteryPack.cells p)) /\
  (exists p, BatteryPack.simulate_step (BatteryPack.init 0 2.5 3.7) 1 10 = Ok p /\
             BatteryPack.cells p = [] /\ BatteryPack.cycles p = 1%N) /\
  (exists p, BatteryPack.simulate_step driver_pack 1 (-3600) = Ok p /\
             BatteryPack.cells p <> [] /\
             Forall (fun c => soc c == 140) (BatteryPack.cells p)) /\
  (exists p, BatteryPack.simulate_step driver_pack 1 0 = Ok p) /\
  (exists p, BatteryPack.simulate_step driver_pack_binary64 infinity 10%float = Ok p /\
             map (fun c => is_nan (temp c)) (BatteryPack.cells p) = [true; true; true; true]) /\
  (exists p, BatteryPack.simulate_step driver_pack_binary64 nan 10%float = Ok p).
Proof.
  split; [eexists; split; [vm_compute; reflexivity
                          |split; [discriminate|repeat constructor]]|].
  split; [eexists; split; [vm_compute; reflexivity|split; reflexivity]|].
  split; [eexists; split; [vm_compute; reflexivity
                          |split; [discriminate|repeat constructor]]|].
  split; [eexists; vm_compute; reflexivity|].
  split; [eexists; split; [vm_compute; reflexivity|vm_compute; reflexivity]|].
  eexists; vm_compute; reflexivity.
Qed.

(** * Further properties of the pack *)

(** ** What a step never touches *)

Lemma degrade_health_fixed {A : Type} `{PyNum A} (c : BatteryCell.t A) (n : N) :
  capacity_ah (degrade_health c n) = capacity_ah c /\
  voltage_nominal (degrade_health c n) = voltage_nominal c /\
  soc (degrade_health c n) = soc c /\
  temp (degrade_health c n) = temp c /\
  voltage (degrade_health c n) = voltage c.
Proof.
  unfold degrade_health. destruct (num_ltb _ _); cbn; repeat split.
Qed.

Lemma Forall2_refl_on {X : Type} (R : X -> X -> Prop) (xs : list X) :
  (forall x, R x x) -> Forall2 R xs xs.
Proof.
  intro K. induction xs; constructor; auto.
Qed.

Section AnyArithmetic.
Context {A : Type} `{PyNum A}.

Lemma simulate_step_fixed (p p' : BatteryPack.t A) (current dt : A) :
  BatteryPack.simulate_step p current dt = Ok p' ->
  Forall2 same_fixed (BatteryPack.cells p) (BatteryPack.cells p').
Proof.
  intro E.
  destruct (simulate_step_inv p p' current dt E) as (cs & Ecs & ->).
  apply for_each_inv in Ecs.
  assert (G : Forall2 same_fixed (BatteryPack.cells p) cs).
  { eapply Forall2_impl; [|exact Ecs]. intros c c' Ec. cbn in Ec.
    destruct (step_cell_soh c c' current dt Ec) as (_ & Ecap & Evn).
    split; assumption. }
  destruct (_ || _); cbn [BatteryPack.cells]; [|exact G].
  eapply Forall2_map_r; [|exact G].
  intros c c' (Ecap & Evn).
  destruct (degrade_health_fixed c' (BatteryPack.cycles p + 1)) as (F1 & F2 & _).
  split; congruence.
Qed.

(** X1.  Whatever the arithmetic, a run that returns leaves the pack with
    the same number of cells, in the same order, each with the
    [capacity_ah] and [voltage_nominal] it was built with. *)
Theorem run_keeps_fixed_attributes
        (profile : list (A * A)) (p p' : BatteryPack.t A) :
  BatteryPack.run p profile = Ok p' ->
  length (BatteryPack.cells p') = length (BatteryPack.cells p) /\
  Forall2 (fun c c' => capacity_ah c' = capacity_ah c /\
                       voltage_nominal c' = voltage_nominal c)
          (BatteryPack.cells p) (BatteryPack.cells p').
Proof.
  intro E.
  assert (G : Forall2 same_fixed (BatteryPack.cells p) (BatteryPack.cells p')).
  { revert p E. induction profile as [|[current dt] rest IH]; intros p E;
      cbn [BatteryPack.run] in E.
    - injection E as <-. apply Forall2_refl_on. intro c. split; reflexivity.
    - destruct (BatteryPack.simulate_step p current dt) as [p1|e] eqn:E1;
        cbn [bind] in E; [|discriminate].
      eapply Forall2_trans;
        [|exact (simulate_step_fixed p p1 current dt E1)|exact (IH p1 E)].
      intros x y z (H1 & H2) (H3 & H4). split; congruence. }
  split; [symmetry; eapply Forall2_length; exact G|exact G].
Qed.

Lemma simulate_step_cycles (p p' : BatteryPack.t A) (current dt : A) :
  BatteryPack.simulate_step p current dt = Ok p' ->
  BatteryPack.cycles p' = BatteryPack.cycles p \/
  BatteryPack.cycles p' = (BatteryPack.cycles p + 1)%N.
Proof.
  intro E.
  destruct (simulate_step_inv p p' current dt E) as (cs & _ & ->).
  destruct (_ || _); cbn; auto.
Qed.

(** X2.  [cycles] never decreases, and a run of [k] steps adds at most [k]
    to it: a step counts one cycle or none. *)
Theorem run_cycles_bounds
        (profile : list (A * A)) (p p' : BatteryPack.t A) :
  BatteryPack.run p profile = Ok p' ->
  (BatteryPack.cycles p <= BatteryPack.cycles p'
   <= BatteryPack.cycles p + N.of_nat (length profile))%N.
Proof.
  revert p. induction profile as [|[current dt] rest IH]; intros p E;
    cbn [BatteryPack.run] in E.
  - injection E as <-. cbn [length]. lia.
  - destruct (BatteryPack.simulate_step p current dt) as [p1|e] eqn:E1;
      cbn [bind] in E; [|discriminate].
    pose proof (IH p1 E) as B.
    cbn [length].
    destruct (simulate_step_cycles p p1 current dt E1) as [C|C]; rewrite C in B; lia.
Qed.

(** X3.  A pack without cells: both [all(...)] tests hold of no cells, so
    every step, whatever the current and [dt], returns and counts a cycle. *)
Theorem empty_pack_counts_every_step
        (profile : list (A * A)) (p : BatteryPack.t A) :
  BatteryPack.cells p = [] ->
  BatteryPack.run p profile =
  Ok {| BatteryPack.cells := [];
        BatteryPack.cycles := (BatteryPack.cycles p + N.of_nat (length profile))%N |}.
Proof.
  revert p. induction profile as [|[current dt] rest IH]; intros [cs n] E;
    cbn in E; subst cs.
  - cbn. rewrite N.add_0_r. reflexivity.
  - cbn [BatteryPack.run]. unfold BatteryPack.simulate_step at 1.
    cbn [BatteryPack.cells for_each bind BatteryPack.all_soc forallb orb map
         BatteryPack.cycles].
    rewrite IH by reflexivity. cbn [BatteryPack.cycles length].
    f_equal. f_equal. lia.
Qed.

End AnyArithmetic.

Lemma run_keeps_fixed_attributes_witness :
  exists p',
    BatteryPack.run driver_pack short_profile = Ok p' /\
    length (BatteryPack.cells p') = length (BatteryPack.cells driver_pack) /\
    Forall2 (fun c c' => capacity_ah c' = capacity_ah c /\
                         voltage_nominal c' = voltage_nominal c)
            (BatteryPack.cells driver_pack) (BatteryPack.cells p').
Proof.
  eexists. split; [vm_compute; reflexivity|].
  apply (run_keeps_fixed_attributes short_profile driver_pack).
  vm_compute. reflexivity.
Defined.

Lemma run_cycles_bounds_witness :
  exists p',
    BatteryPack.run driver_pack short_profile = Ok p' /\
    (BatteryPack.cycles driver_pack <= BatteryPack.cycles p'
     <= BatteryPack.cycles driver_pack + N.of_nat (length short_profile))%N.
Proof.
  eexists. split; [vm_compute; reflexivity|].
  apply (run_cycles_bounds short_profile driver_pack).
  vm_compute. reflexivity.
Defined.

Lemma empty_pack_counts_every_step_witness :
  BatteryPack.cells empty_pack = [] /\
  BatteryPack.run empty_pack short_profile =
  Ok {| BatteryPack.cells := [];
        BatteryPack.cycles := (BatteryPack.cycles empty_pack
                               + N.of_nat (length short_profile))%N |}.
Proof.
  split; [reflexivity|].
  apply (empty_pack_counts_every_step short_profile empty_pack).
  reflexivity.
Defined.

(** ** The read-out functions *)

Lemma len_Q_zero (p : BatteryPack.t Q) :
  BatteryPack.len p == 0 <-> BatteryPack.cells p = [].
Proof.
  unfold BatteryPack.len. cbn [num_of_Z Q_PyNum].
  unfold Qeq. cbn [Qnum Qden inject_Z].
  destruct (BatteryPack.cells p) as [|c cs]; cbn [length].
  - split; reflexivity.
  - split; [lia|discriminate].
Qed.

Lemma average_raises_Q (total : Q) (p : BatteryPack.t Q) :
  py_div total (BatteryPack.len p) = Raise ZeroDivisionError
  <-> BatteryPack.cells p = [].
Proof.
  rewrite <- len_Q_zero. split.
  - intro K. destruct (Qeq_dec (BatteryPack.len p) 0) as [Z|NZ]; [exact Z|].
    rewrite py_div_Q_ok in K by exact NZ. discriminate.
  - apply py_div_Q_raise.
Qed.

(** X4.  The three averages divide by [len(self.cells)]: each raises
    [ZeroDivisionError] on a pack without cells and on no other pack. *)
Theorem averages_raise_iff_empty (p : BatteryPack.t Q) :
  (BatteryPack.get_average_soc p = Raise ZeroDivisionError
   <-> BatteryPack.cells p = []) /\
  (BatteryPack.get_average_temp p = Raise ZeroDivisionError
   <-> BatteryPack.cells p = []) /\
  (BatteryPack.get_average_soh p = Raise ZeroDivisionError
   <-> BatteryPack.cells p = []).
Proof.
  split; [apply average_raises_Q|]. split; apply average_raises_Q.
Qed.

Lemma py_sum_Q_repeat (x a : Q) (n : nat) :
  fold_left num_add (repeat x n) a == a + inject_Z (Z.of_nat n) * x.
Proof.
  revert a. induction n as [|n IH]; intro a.
  - cbn. ring.
  - cbn [repeat fold_left]. rewrite IH.
    rewrite Nat2Z.inj_succ. unfold Z.succ. rewrite inject_Z_plus.
    cbn [num_add Q_PyNum]. ring.
Qed.

Lemma identical_repeat {X : Type} (l : list X) (c : X) :
  (forall x y, In x l -> In y l -> x = y) -> In c l ->
  l = repeat c (length l).
Proof.
  intros I Hc. induction l as [|x l IH]; [reflexivity|].
  cbn [length repeat]. rewrite (I x c (or_introl eq_refl) Hc). f_equal.
  destruct l as [|y l]; [reflexivity|].
  assert (Hy : In c (y :: l)).
  { rewrite <- (I y c (or_intror (or_introl eq_refl)) Hc). left. reflexivity. }
  apply IH; [|exact Hy].
  intros a b Ha Hb. apply I; right; assumption.
Qed.

Lemma py_sum_identical (p : BatteryPack.t Q) (c : BatteryCell.t Q)
      (f : BatteryCell.t Q -> Q) :
  identical_cells p -> In c (BatteryPack.cells p) ->
  py_sum (map f (BatteryPack.cells p)) == BatteryPack.len p * f c.
Proof.
  intros I Hc. unfold py_sum, BatteryPack.len.
  rewrite (identical_repeat (BatteryPack.cells p) c I Hc) at 1.
  rewrite map_repeat, py_sum_Q_repeat. cbn [num_of_Z Q_PyNum]. ring.
Qed.

Lemma average_identical (p : BatteryPack.t Q) (c : BatteryCell.t Q)
      (f : BatteryCell.t Q -> Q) :
  identical_cells p -> In c (BatteryPack.cells p) ->
  exists a, py_div (py_sum (map f (BatteryPack.cells p))) (BatteryPack.len p) = Ok a
            /\ a == f c.
Proof.
  intros I Hc.
  assert (NZ : ~ BatteryPack.len p == 0).
  { intro Z. apply len_Q_zero in Z. rewrite Z in Hc. contradiction. }
  eexists. split; [apply py_div_Q_ok; exact NZ|].
  rewrite (py_sum_identical p c f I Hc). field. exact NZ.
Qed.

(** X5.  In exact arithmetic: when all cells of a pack are in the same
    state (as they are in a pack built by [BatteryPack(...)] for as long
    as its calls return), each average is the value of any one cell, and
    the pack voltage is the number of cells times one cell's voltage.  In
    binary64 the sums and the quotients round, and a read-out can differ
    from the cell's value in the last places. *)
Theorem readouts_of_identical_cells (p : BatteryPack.t Q) (c : BatteryCell.t Q) :
  identical_cells p -> In c (BatteryPack.cells p) ->
  (exists a, BatteryPack.get_average_soc p = Ok a /\ a == soc c) /\
  (exists a, BatteryPack.get_average_temp p = Ok a /\ a == temp c) /\
  (exists a, BatteryPack.get_average_soh p = Ok a /\ a == soh c) /\
  BatteryPack.get_pack_voltage p
  == inject_Z (Z.of_nat (length (BatteryPack.cells p))) * voltage c.
Proof.
  intros I Hc.
  split; [exact (average_identical p c (@soc Q) I Hc)|].
  split; [exact (average_identical p c (@temp Q) I Hc)|].
  split; [exact (average_identical p c (@soh Q) I Hc)|].
  exact (py_sum_identical p c (@voltage Q) I Hc).
Qed.

(** The scenario of the specification: four fresh cells of 3.7 V in series
    read 14.8 V, and average 100 % charge. *)
Lemma readouts_of_identical_cells_witness :
  identical_cells driver_pack /\ In driver_cell (BatteryPack.cells driver_pack) /\
  (exists a, BatteryPack.get_average_soc driver_pack = Ok a /\ a == soc driver_cell) /\
  (exists a, BatteryPack.get_average_temp driver_pack = Ok a /\ a == temp driver_cell) /\
  (exists a, BatteryPack.get_average_soh driver_pack = Ok a /\ a == soh driver_cell) /\
  BatteryPack.get_pack_voltage driver_pack
  == inject_Z (Z.of_nat (length (BatteryPack.cells driver_pack))) * voltage driver_cell.
Proof.
  assert (I : identical_cells driver_pack) by (apply init_identical).
  assert (Hc : In driver_cell (BatteryPack.cells driver_pack)) by (left; reflexivity).
  split; [exact I|]. split; [exact Hc|].
  exact (readouts_of_identical_cells driver_pack driver_cell I Hc).
Defined.

Example pack_voltage_fresh_pack :
  BatteryPack.get_pack_voltage driver_pack == 14.8 /\
  BatteryPack.get_average_soc driver_pack = Ok (400 / 4) /\
  BatteryPack.get_pack_voltage driver_pack_binary64 = 14.8%float.
Proof. split; [reflexivity|]. split; [reflexivity|]. vm_compute. reflexivity. Qed.

(** ** When a cycle is counted *)

Lemma all_soc_Q_false (x : Q) (cs : list (BatteryCell.t Q)) :
  BatteryPack.all_soc x cs = false <-> ~ Forall (fun c => soc c == x) cs.
Proof.
  split.
  - intros F K. apply all_soc_Q in K. congruence.
  - intro K. destruct (BatteryPack.all_soc x cs) eqn:E; [|reflexivity].
    exfalso. apply K. apply all_soc_Q. exact E.
Qed.

Lemma Forall_soc_map_degrade (x : Q) (n : N) (cs : list (BatteryCell.t Q)) :
  Forall (fun c => soc c == x) (map (fun c => degrade_health c n) cs)
  <-> Forall (fun c => soc c == x) cs.
Proof.
  rewrite Forall_map. split; apply Forall_impl; intros c K;
    destruct (degrade_health_frame c n) as (_ & _ & Es & _);
    [rewrite <- Es|rewrite Es]; exact K.
Qed.

(** X6.  A step that returns has counted a cycle exactly when it leaves every
    cell at [soc == 100] or every cell at [soc == 0]; one cell elsewhere is
    enough to prevent the count, and then no [soh] is changed. *)
Theorem cycle_counted_iff_saturated (p p' : BatteryPack.t Q) (current dt : Q) :
  BatteryPack.simulate_step p current dt = Ok p' ->
  (BatteryPack.cycles p' = (BatteryPack.cycles p + 1)%N /\
   (Forall (fun c => soc c == 100) (BatteryPack.cells p') \/
    Forall (fun c => soc c == 0) (BatteryPack.cells p')))
  \/
  (BatteryPack.cycles p' = BatteryPack.cycles p /\
   ~ Forall (fun c => soc c == 100) (BatteryPack.cells p') /\
   ~ Forall (fun c => soc c == 0) (BatteryPack.cells p') /\
   Forall2 (fun c c' => soh c' = soh c) (BatteryPack.cells p) (BatteryPack.cells p')).
Proof.
  intro E.
  destruct (simulate_step_inv p p' current dt E) as (cs & Ecs & ->).
  change (int 100 : Q) with 100. change (int 0 : Q) with 0.
  destruct (BatteryPack.all_soc 100 cs) eqn:H100; cbn [orb].
  - left. cbn. split; [reflexivity|]. left.
    apply Forall_soc_map_degrade. apply all_soc_Q. exact H100.
  - destruct (BatteryPack.all_soc 0 cs) eqn:H0.
    + left. cbn. split; [reflexivity|]. right.
      apply Forall_soc_map_degrade. apply all_soc_Q. exact H0.
    + right. cbn. split; [reflexivity|].
      split; [apply all_soc_Q_false; exact H100|].
      split; [apply all_soc_Q_false; exact H0|].
      apply for_each_inv in Ecs.
      eapply Forall2_impl; [|exact Ecs]. intros c c' Ec. cbn in Ec.
      destruct (step_cell_soh c c' current dt Ec) as (Eh & _). exact Eh.
Qed.

(** The example of the specification: three cells at 100 and one at 99.99. *)
Lemma cycle_counted_iff_saturated_witness :
  exists p',
    BatteryPack.simulate_step outlier_pack 0 10 = Ok p' /\
    ((BatteryPack.cycles p' = (BatteryPack.cycles outlier_pack + 1)%N /\
      (Forall (fun c => soc c == 100) (BatteryPack.cells p') \/
       Forall (fun c => soc c == 0) (BatteryPack.cells p')))
     \/
     (BatteryPack.cycles p' = BatteryPack.cycles outlier_pack /\
      ~ Forall (fun c => soc c == 100) (BatteryPack.cells p') /\
      ~ Forall (fun c => soc c == 0) (BatteryPack.cells p') /\
      Forall2 (fun c c' => soh c' = soh c)
              (BatteryPack.cells outlier_pack) (BatteryPack.cells p'))).
Proof.
  eexists. split; [vm_compute; reflexivity|].
  apply (cycle_counted_iff_saturated outlier_pack _ 0 10).
  vm_compute. reflexivity.
Defined.

Example outlier_prevents_cycle :
  exists p', BatteryPack.simulate_step outlier_pack 0 10 = Ok p' /\
             BatteryPack.cycles p' = 0%N.
Proof. eexists. split; [vm_compute; reflexivity|reflexivity]. Qed.

(** X7.  With no current, a pack that is neither all at 100 nor all at 0 is
    returned exactly as it was: no charge moves, no heat is generated, and
    no cooling takes place either ([cool_down] is only reached through
    [discharge] and [charge]). *)
Theorem rest_step_is_identity (p : BatteryPack.t Q) (dt : Q) :
  ~ Forall (fun c => soc c == 100) (BatteryPack.cells p) ->
  ~ Forall (fun c => soc c == 0) (BatteryPack.cells p) ->
  BatteryPack.simulate_step p 0 dt = Ok p.
Proof.
  intros H100 H0.
  assert (E : for_each (BatteryPack.step_cell 0 dt) (BatteryPack.cells p)
              = Ok (BatteryPack.cells p)).
  { apply for_each_id. apply Forall_forall. intros c _. apply step_cell_rest. }
  rewrite (simulate_step_after_pass p 0 dt (BatteryPack.cells p) E).
  apply all_soc_Q_false in H100, H0.
  change (int 100 : Q) with 100. change (int 0 : Q) with 0.
  rewrite H100, H0. cbn [orb]. destruct p; reflexivity.
Qed.

Lemma rest_step_is_identity_witness :
  ~ Forall (fun c => soc c == 100) (BatteryPack.cells outlier_pack) /\
  ~ Forall (fun c => soc c == 0) (BatteryPack.cells outlier_pack) /\
  BatteryPack.simulate_step outlier_pack 0 10 = Ok outlier_pack.
Proof.
  assert (H100 : ~ Forall (fun c => soc c == 100) (BatteryPack.cells outlier_pack)).
  { intro K. inversion K as [|? ? L _]; subst. vm_compute in L. discriminate. }
  assert (H0 : ~ Forall (fun c => soc c == 0) (BatteryPack.cells outlier_pack)).
  { intro K. inversion K as [|? ? L _]; subst. vm_compute in L. discriminate. }
  split; [exact H100|]. split; [exact H0|].
  exact (rest_step_is_identity outlier_pack 10 H100 H0).
Defined.

(** ** Voltage after a step that moves charge *)

Lemma step_cell_voltage_consistent (c c' : BatteryCell.t Q) (current dt : Q) :
  ~ current == 0 ->
  BatteryPack.step_cell current dt c = Ok c' -> voltage_consistent c'.
Proof.
  intros NZ E.
  destruct (step_cell_Q c current dt) as [(P & K)|[(N & P & K)|(Z & K)]];
    rewrite K in E.
  - exact (discharge_voltage_consistent c c' current dt E).
  - exact (charge_voltage_consistent c c' (- current) dt E).
  - contradiction.
Qed.

(** X8.  After a step with a non-zero current that counted no cycle, the
    stored [voltage] of every cell is
    [voltage_nominal * (soc/100) * (soh/100)], whatever it was before. *)
Theorem voltage_consistent_after_step (p p' : BatteryPack.t Q) (current dt : Q) :
  ~ current == 0 ->
  BatteryPack.simulate_step p current dt = Ok p' ->
  BatteryPack.cycles p' = BatteryPack.cycles p ->
  Forall voltage_consistent (BatteryPack.cells p').
Proof.
  intros NZ E C.
  destruct (simulate_step_inv p p' current dt E) as (cs & Ecs & ->).
  apply for_each_inv in Ecs.
  destruct (_ || _); cbn [BatteryPack.cells BatteryPack.cycles] in *; [lia|].
  apply (Forall2_Forall_r (fun _ _ => True) voltage_consistent (BatteryPack.cells p)).
  eapply Forall2_impl; [|exact Ecs]. intros c c' Ec. cbn in Ec.
  split; [exact I|exact (step_cell_voltage_consistent c c' current dt NZ Ec)].
Qed.

Lemma voltage_consistent_after_step_witness :
  ~ 1 == 0 /\
  exists p',
    BatteryPack.simulate_step driver_pack 1 10 = Ok p' /\
    BatteryPack.cycles p' = BatteryPack.cycles driver_pack /\
    Forall voltage_consistent (BatteryPack.cells p').
Proof.
  assert (NZ : ~ 1 == 0) by discriminate.
  split; [exact NZ|].
  eexists. split; [vm_compute; reflexivity|]. split; [reflexivity|].
  apply (voltage_consistent_after_step driver_pack _ 1 10 NZ);
    [vm_compute; reflexivity|reflexivity].
Defined.

(** ** Temperature *)

Lemma step_cell_temp (c c' : BatteryCell.t Q) (current dt : Q) :
  BatteryPack.step_cell current dt c = Ok c' ->
  temp c' = temp c \/
  temp c' == 0.99 * (temp c + step_heat (current, dt)) + 0.25.
Proof.
  intro E. unfold step_heat. cbn [fst snd].
  destruct (Qeq_dec (capacity_ah c) 0) as [Z|NZ].
  - destruct (step_cell_Q c current dt) as [(P & K)|[(N & P & K)|(Z0 & K)]];
      rewrite K in E.
    + rewrite discharge_Q_raise in E by exact Z. discriminate.
    + rewrite charge_Q_raise in E by exact Z. discriminate.
    + injection E as <-. left. reflexivity.
  - destruct (step_cell_Q c current dt) as [(P & K)|[(N & P & K)|(Z0 & K)]];
      rewrite K in E.
    + rewrite discharge_Q_ok in E by exact NZ. injection E as <-.
      right. cbn. field.
    + rewrite charge_Q_ok in E by exact NZ. injection E as <-.
      right. cbn. field.
    + injection E as <-. left. reflexivity.
Qed.

Lemma simulate_step_temp (p p' : BatteryPack.t Q) (current dt : Q) :
  BatteryPack.simulate_step p current dt = Ok p' ->
  Forall2 (fun c c' => temp c' = temp c \/
                       temp c' == 0.99 * (temp c + step_heat (current, dt)) + 0.25)
          (BatteryPack.cells p) (BatteryPack.cells p').
Proof.
  intro E.
  destruct (simulate_step_inv p p' current dt E) as (cs & Ecs & ->).
  apply for_each_inv in Ecs.
  assert (G : Forall2 (fun c c' => temp c' = temp c \/
                         temp c' == 0.99 * (temp c + step_heat (current, dt)) + 0.25)
                      (BatteryPack.cells p) cs).
  { eapply Forall2_impl; [|exact Ecs]. intros c c' Ec. cbn in Ec.
    exact (step_cell_temp c c' current dt Ec). }
  destruct (_ || _); cbn [BatteryPack.cells]; [|exact G].
  eapply Forall2_map_r; [|exact G].
  intros c c' K.
  destruct (degrade_health_frame c' (BatteryPack.cycles p + 1)) as (_ & _ & _ & Et & _).
  rewrite Et. exact K.
Qed.

Lemma Forall2_Forall_step {X : Type} (P : X -> Prop) (R : X -> X -> Prop)
      (xs ys : list X) :
  (forall x y, P x -> R x y -> P y) ->
  Forall P xs -> Forall2 R xs ys -> Forall P ys.
Proof.
  intros K F G. induction G as [|x y xs ys Rxy _ IH]; constructor;
    inversion F; subst; eauto.
Qed.

Lemma step_heat_nonneg (current dt : Q) : 0 <= dt -> 0 <= step_heat (current, dt).
Proof.
  intro Hd. unfold step_heat. cbn [fst snd].
  assert (S : 0 <= current ^ 2).
  { change (current ^ 2) with (current * current).
    destruct (Qlt_le_dec current 0) as [N|P].
    - setoid_replace (current * current) with ((- current) * (- current)) by ring.
      apply Qmult_le_0_compat; lra.
    - apply Qmult_le_0_compat; assumption. }
  apply Qle_shift_div_l; [reflexivity|]. rewrite Qmult_0_l.
  apply Qmult_le_0_compat; [|exact Hd].
  apply Qmult_le_0_compat; [exact S|discriminate].
Qed.

(** X9.  Cells that start at or above the ambient 25 degrees never get
    colder than ambient, for any currents and any non-negative time steps:
    the heat added is never negative and [cool_down] removes one hundredth
    of the excess over ambient. *)
Theorem temp_never_below_ambient
        (profile : list (Q * Q)) (p p' : BatteryPack.t Q) :
  Forall (fun c => 25 <= temp c) (BatteryPack.cells p) ->
  Forall (fun step => 0 <= snd step) profile ->
  BatteryPack.run p profile = Ok p' ->
  Forall (fun c => 25 <= temp c) (BatteryPack.cells p').
Proof.
  revert p. induction profile as [|[current dt] rest IH]; intros p F Hd E;
    cbn [BatteryPack.run] in E.
  - injection E as <-. exact F.
  - destruct (BatteryPack.simulate_step p current dt) as [p1|e] eqn:E1;
      cbn [bind] in E; [|discriminate].
    inversion Hd as [|? ? Hd1 Hd2]; subst. cbn [snd] in Hd1.
    apply (IH p1); [|exact Hd2|exact E].
    eapply Forall2_Forall_step; [|exact F|exact (simulate_step_temp p p1 current dt E1)].
    intros c c' Hc [K|K]; cbn beta in *.
    + rewrite K. exact Hc.
    + rewrite K. pose proof (step_heat_nonneg current dt Hd1). lra.
Qed.

(** X10.  No thermal runaway: if no step of the profile adds more than [h]
    degrees before cooling, cells that start at or below [25 + 99 * h] stay
    at or below it for the whole run. *)
Theorem temp_bounded
        (h : Q) (profile : list (Q * Q)) (p p' : BatteryPack.t Q) :
  Forall (fun c => temp c <= 25 + 99 * h) (BatteryPack.cells p) ->
  Forall (fun step => step_heat step <= h) profile ->
  BatteryPack.run p profile = Ok p' ->
  Forall (fun c => temp c <= 25 + 99 * h) (BatteryPack.cells p').
Proof.
  revert p. induction profile as [|[current dt] rest IH]; intros p F Hh E;
    cbn [BatteryPack.run] in E.
  - injection E as <-. exact F.
  - destruct (BatteryPack.simulate_step p current dt) as [p1|e] eqn:E1;
      cbn [bind] in E; [|discriminate].
    inversion Hh as [|? ? Hh1 Hh2]; subst.
    apply (IH p1); [|exact Hh2|exact E].
    eapply Forall2_Forall_step; [|exact F|exact (simulate_step_temp p p1 current dt E1)].
    intros c c' Hc [K|K]; cbn beta in *.
    + rewrite K. exact Hc.
    + rewrite K. lra.
Qed.

Lemma temp_never_below_ambient_witness :
  Forall (fun c => 25 <= temp c) (BatteryPack.cells driver_pack) /\
  Forall (fun step => 0 <= snd step) short_profile /\
  exists p',
    BatteryPack.run driver_pack short_profile = Ok p' /\
    Forall (fun c => 25 <= temp c) (BatteryPack.cells p').
Proof.
  assert (F : Forall (fun c => 25 <= temp c) (BatteryPack.cells driver_pack))
    by (repeat constructor; cbn; discriminate).
  assert (Hd : Forall (fun step => 0 <= snd step) short_profile)
    by (repeat constructor; cbn; discriminate).
  split; [exact F|]. split; [exact Hd|].
  eexists. split; [vm_compute; reflexivity|].
  apply (temp_never_below_ambient short_profile driver_pack _ F Hd).
  vm_compute. reflexivity.
Defined.

(** With the driver's 1 A and 10 s a step adds 0.001 degrees, so the cells
    never pass 25.099 degrees (the script ends at 25.0989...). *)
Lemma temp_bounded_witness :
  Forall (fun c => temp c <= 25 + 99 * 0.001) (BatteryPack.cells driver_pack) /\
  Forall (fun step => step_heat step <= 0.001) short_profile /\
  exists p',
    BatteryPack.run driver_pack short_profile = Ok p' /\
    Forall (fun c => temp c <= 25 + 99 * 0.001) (BatteryPack.cells p').
Proof.
  assert (F : Forall (fun c => temp c <= 25 + 99 * 0.001) (BatteryPack.cells driver_pack))
    by (repeat constructor; cbn; discriminate).
  assert (Hh : Forall (fun step => step_heat step <= 0.001) short_profile)
    by (repeat constructor; vm_compute; discriminate).
  split; [exact F|]. split; [exact Hh|].
  eexists. split; [vm_compute; reflexivity|].
  apply (temp_bounded 0.001 short_profile driver_pack _ F Hh).
  vm_compute. reflexivity.
Defined.

(** ** Direction of the charge *)

Lemma run_app {A : Type} `{PyNum A}
      (l1 l2 : list (A * A)) (p : BatteryPack.t A) :
  BatteryPack.run p (l1 ++ l2) =
  bind (BatteryPack.run p l1) (fun p1 => BatteryPack.run p1 l2).
Proof.
  revert p. induction l1 as [|[current dt] l1 IH]; intro p; cbn; [reflexivity|].
  destruct (BatteryPack.simulate_step p current dt) as [p1|e]; cbn;
    [apply IH|reflexivity].
Qed.

Lemma step_cell_discharge_Q (c : BatteryCell.t Q) (current dt : Q) :
  0 < capacity_ah c -> 0 < current ->
  exists c', BatteryPack.step_cell current dt c = Ok c' /\
    soc c' == Qmax (soc c - (current * dt / 3600) / capacity_ah c * 100) 0 /\
    soh c' = soh c /\ capacity_ah c' = capacity_ah c.
Proof.
  intros Hc Hi.
  destruct (step_cell_Q c current dt) as [(P & K)|[(N & P & K)|(Z & K)]];
    [|lra|lra].
  rewrite K. eexists. split; [apply discharge_Q_ok; lra|].
  split; [|split; reflexivity].
  rewrite soc_update_voltage, soc_heated. apply py_max_Q.
Qed.

Lemma step_cell_charge_Q (c : BatteryCell.t Q) (current dt : Q) :
  0 < capacity_ah c -> 0 < current ->
  exists c', BatteryPack.step_cell (- current) dt c = Ok c' /\
    soc c' == Qmin (soc c + (current * dt / 3600) / capacity_ah c * 100) 100 /\
    soh c' = soh c /\ capacity_ah c' = capacity_ah c.
Proof.
  intros Hc Hi.
  destruct (step_cell_Q c (- current) dt) as [(P & K)|[(N & P & K)|(Z & K)]];
    [lra| |lra].
  rewrite K. eexists. split; [apply charge_Q_ok; lra|].
  split; [|split; reflexivity].
  rewrite soc_update_voltage, soc_heated. cbn [soc set_soc].
  rewrite py_min_Q. unfold soc_delta.
  apply Q.min_compat; [|reflexivity].
  apply Qplus_comp; [reflexivity|]. field. lra.
Qed.

(** X11.  The sign of the current fixes the direction in which [soc] can
    move: in a pack of cells with positive capacity and [0 <= soc <= 100],
    a step with positive [dt] never raises a [soc] when the current is
    positive (discharge), never lowers one when it is negative (charge),
    and leaves every [soc] as it is when it is zero. *)
Theorem simulate_step_soc_direction (p p' : BatteryPack.t Q) (current dt : Q) :
  Forall (fun c => 0 < capacity_ah c /\ 0 <= soc c <= 100) (BatteryPack.cells p) ->
  0 < dt ->
  BatteryPack.simulate_step p current dt = Ok p' ->
  (0 < current ->
   Forall2 (fun c c' => soc c' <= soc c) (BatteryPack.cells p) (BatteryPack.cells p')) /\
  (current < 0 ->
   Forall2 (fun c c' => soc c <= soc c') (BatteryPack.cells p) (BatteryPack.cells p')) /\
  (current == 0 ->
   Forall2 (fun c c' => soc c' = soc c) (BatteryPack.cells p) (BatteryPack.cells p')).
Proof.
  intros F Hd E.
  destruct (simulate_step_inv p p' current dt E) as (cs & Ecs & ->).
  apply for_each_inv in Ecs.
  assert (G : forall R : BatteryCell.t Q -> BatteryCell.t Q -> Prop,
             (forall c c', 0 < capacity_ah c /\ 0 <= soc c <= 100 ->
                           BatteryPack.step_cell current dt c = Ok c' ->
                           forall n, R c (degrade_health c' n) /\ R c c') ->
             Forall2 R (BatteryPack.cells p)
                     (BatteryPack.cells
                        (if BatteryPack.all_soc (int 100) cs || BatteryPack.all_soc (int 0) cs
                         then {| BatteryPack.cells :=
                                   map (fun c => degrade_health c (BatteryPack.cycles p + 1)) cs;
                                 BatteryPack.cycles := (BatteryPack.cycles p + 1)%N |}
                         else {| BatteryPack.cells := cs;
                                 BatteryPack.cycles := BatteryPack.cycles p |}))).
  { intros R K.
    destruct (_ || _); cbn [BatteryPack.cells].
    - eapply Forall2_map_r with (R := fun c c' => forall n, R c (degrade_health c' n)).
      + intros c c' L. apply L.
      + eapply Forall2_Forall_l; [|exact F|exact Ecs].
        intros c c' Hc Ec n. cbn in Ec. apply (K c c' Hc Ec n).
    - eapply Forall2_Forall_l; [|exact F|exact Ecs].
      intros c c' Hc Ec. cbn in Ec. apply (K c c' Hc Ec 0%N). }
  split; [|split]; intro S; apply G; intros c c' (Hc & Hs) Ec n;
    destruct (degrade_health_frame c' n) as (_ & _ & -> & _).
  - destruct (step_cell_discharge_Q c current dt Hc S) as (c1 & E1 & S1 & _).
    rewrite E1 in Ec. injection Ec as <-.
    pose proof (soc_delta_nonneg c current dt Hc S Hd) as D. unfold soc_delta in D.
    assert (L : soc c1 <= soc c) by (rewrite S1; apply Q.max_lub; lra).
    split; exact L.
  - assert (P : 0 < - current) by lra.
    destruct (step_cell_charge_Q c (- current) dt Hc P) as (c1 & E1 & S1 & _).
    assert (Eq : BatteryPack.step_cell (- - current) dt c
                 = BatteryPack.step_cell current dt c).
    { destruct current as [[|a|a] b]; reflexivity. }
    rewrite Eq, Ec in E1. injection E1 as <-.
    pose proof (soc_delta_nonneg c (- current) dt Hc P Hd) as D. unfold soc_delta in D.
    assert (L : soc c <= soc c') by (rewrite S1; apply Q.min_glb; lra).
    split; exact L.
  - destruct (step_cell_Q c current dt) as [(P & K)|[(N & P & K)|(Z & K)]];
      [lra|lra|].
    rewrite K in Ec. injection Ec as <-. split; reflexivity.
Qed.

Lemma simulate_step_soc_direction_witness :
  Forall (fun c => 0 < capacity_ah c /\ 0 <= soc c <= 100) (BatteryPack.cells driver_pack) /\
  0 < 10 /\
  exists p',
    BatteryPack.simulate_step driver_pack 1 10 = Ok p' /\
    (0 < 1 ->
     Forall2 (fun c c' => soc c' <= soc c)
             (BatteryPack.cells driver_pack) (BatteryPack.cells p')) /\
    (1 < 0 ->
     Forall2 (fun c c' => soc c <= soc c')
             (BatteryPack.cells driver_pack) (BatteryPack.cells p')) /\
    (1 == 0 ->
     Forall2 (fun c c' => soc c' = soc c)
             (BatteryPack.cells driver_pack) (BatteryPack.cells p')).
Proof.
  assert (F : Forall (fun c => 0 < capacity_ah c /\ 0 <= soc c <= 100)
                     (BatteryPack.cells driver_pack))
    by (repeat constructor; cbn; discriminate).
  assert (Hd : 0 < 10) by reflexivity.
  split; [exact F|]. split; [exact Hd|].
  eexists. split; [vm_compute; reflexivity|].
  apply (simulate_step_soc_direction driver_pack _ 1 10 F Hd).
  vm_compute. reflexivity.
Defined.

(** ** Cumulative wear *)

Lemma rest_step_saturated (p : BatteryPack.t Q) (dt : Q) :
  Forall (fun c => soc c == 100) (BatteryPack.cells p) ->
  BatteryPack.simulate_step p 0 dt =
  Ok {| BatteryPack.cells :=
          map (fun c => degrade_health c (BatteryPack.cycles p + 1)) (BatteryPack.cells p);
        BatteryPack.cycles := (BatteryPack.cycles p + 1)%N |}.
Proof.
  intro F.
  assert (E : for_each (BatteryPack.step_cell 0 dt) (BatteryPack.cells p)
              = Ok (BatteryPack.cells p)).
  { apply for_each_id. apply Forall_forall. intros c _. apply step_cell_rest. }
  rewrite (simulate_step_after_pass p 0 dt (BatteryPack.cells p) E).
  apply (all_soc_Q 100) in F. change (int 100 : Q) with 100. rewrite F.
  reflexivity.
Qed.

Lemma Qmax_floor_twice (a w : Q) :
  0 <= w -> Qmax (Qmax a 60 - w) 60 == Qmax (a - w) 60.
Proof.
  intro Hw.
  destruct (Q.max_spec a 60) as [[L1 E1]|[L1 E1]];
    destruct (Q.max_spec (a - w) 60) as [[L2 E2]|[L2 E2]];
    destruct (Q.max_spec (Qmax a 60 - w) 60) as [[L3 E3]|[L3 E3]];
    rewrite ?E2, ?E3; rewrite ?E1 in *; lra.
Qed.

Lemma Forall2_map_l {X Y Z : Type} (R : Y -> Z -> Prop) (g : X -> Y)
      (xs : list X) (zs : list Z) :
  Forall2 R (map g xs) zs -> Forall2 (fun x z => R (g x) z) xs zs.
Proof.
  revert zs. induction xs as [|x xs IH]; intros zs F; inversion F; subst;
    constructor; auto.
Qed.

Lemma inject_nat_nonneg (k : nat) : 0 <= inject_Z (Z.of_nat k).
Proof.
  change 0 with (inject_Z 0). rewrite <- Zle_Qle. lia.
Qed.

(** X12.  Wear is cumulative.  In a pack that rests at full charge, every
    step counts a cycle and subtracts 0.01 times the count reached, so in
    exact arithmetic, after [k] such steps from a count of [n], the health
    of a cell that started at or above the floor is
    [soh - 0.01 * (k*n + k*(k+1)/2)], clamped at 60: the loss grows with
    the square of the number of steps.  In binary64 each of the [k]
    subtractions rounds, and [soh] follows the closed form up to that
    rounding. *)
Theorem rest_steps_cumulative_wear (dts : list Q) (p : BatteryPack.t Q) :
  Forall (fun c => soc c == 100 /\ 60 <= soh c) (BatteryPack.cells p) ->
  exists p',
    BatteryPack.run p (map (fun dt => (0, dt)) dts) = Ok p' /\
    BatteryPack.cycles p' = (BatteryPack.cycles p + N.of_nat (length dts))%N /\
    Forall2 (fun c c' =>
               soh c' ==
               Qmax (soh c
                     - 0.01 * (inject_Z (Z.of_nat (length dts))
                               * inject_Z (Z.of_N (BatteryPack.cycles p))
                               + inject_Z (Z.of_nat (length dts))
                                 * (inject_Z (Z.of_nat (length dts)) + 1) / 2))
                    60)
            (BatteryPack.cells p) (BatteryPack.cells p').
Proof.
  revert p. induction dts as [|dt dts IH]; intros p F.
  - exists p. split; [reflexivity|]. split; [cbn; lia|].
    eapply Forall_impl in F.
    2:{ intros c Hc. exact (proj2 Hc). }
    induction F as [|c cs Hc _ IHF]; constructor; [|exact IHF].
    cbn [length Z.of_nat]. symmetry.
    setoid_replace (soh c - 0.01 * (inject_Z 0 * inject_Z (Z.of_N (BatteryPack.cycles p))
                                    + inject_Z 0 * (inject_Z 0 + 1) / 2))
      with (soh c) by (change (inject_Z 0) with 0; field).
    apply Q.max_l. exact Hc.
  - cbn [map BatteryPack.run].
    rewrite rest_step_saturated.
    2:{ eapply Forall_impl; [|exact F]. intros c Hc. exact (proj1 Hc). }
    cbn [bind].
    set (n := BatteryPack.cycles p).
    set (p1 := {| BatteryPack.cells := map (fun c => degrade_health c (n + 1)) (BatteryPack.cells p);
                  BatteryPack.cycles := (n + 1)%N |}).
    destruct (IH p1) as (p' & E' & C' & W').
    { cbn [p1 BatteryPack.cells]. apply Forall_map.
      eapply Forall_impl; [|exact F]. intros c (Hs & Hh).
      destruct (degrade_health_frame c (n + 1)) as (_ & _ & -> & _).
      split; [exact Hs|]. rewrite degrade_health_soh. apply Q.le_max_r. }
    exists p'. split; [exact E'|].
    split; [rewrite C'; cbn [p1 BatteryPack.cycles length]; lia|].
    cbn [p1 BatteryPack.cells BatteryPack.cycles] in W'.
    apply Forall2_map_l in W'.
    eapply Forall2_impl; [|exact W']. intros c c' K. cbn beta in K.
    rewrite K. rewrite degrade_health_soh.
    set (k := length dts) in *.
    assert (EK : inject_Z (Z.of_nat (length (dt :: dts))) == inject_Z (Z.of_nat k) + 1).
    { cbn [length]. fold k. rewrite Nat2Z.inj_succ. unfold Z.succ.
      rewrite inject_Z_plus. reflexivity. }
    assert (EN : inject_Z (Z.of_N (n + 1)) == inject_Z (Z.of_N n) + 1).
    { rewrite N2Z.inj_add. rewrite inject_Z_plus. reflexivity. }
    rewrite EK, EN.
    pose proof (inject_nat_nonneg k) as HK.
    pose proof (inject_N_nonneg n) as HN.
    set (K' := inject_Z (Z.of_nat k)) in *.
    set (N' := inject_Z (Z.of_N n)) in *.
    rewrite Qmax_floor_twice.
    + apply Q.max_compat; [|reflexivity]. field.
    + apply Qmult_le_0_compat; [discriminate|].
      assert (T1 : 0 <= K' * (N' + 1)) by (apply Qmult_le_0_compat; lra).
      assert (T2 : 0 <= K' * (K' + 1) / 2).
      { apply Qle_shift_div_l; [reflexivity|]. rewrite Qmult_0_l.
        apply Qmult_le_0_compat; lra. }
      lra.
Qed.

(** Three idle steps of a fresh pack: 100 - 0.01 * (1 + 2 + 3) = 99.94. *)
Lemma rest_steps_cumulative_wear_witness :
  Forall (fun c => soc c == 100 /\ 60 <= soh c) (BatteryPack.cells driver_pack) /\
  exists p',
    BatteryPack.run driver_pack (map (fun dt => (0, dt)) [10; 10; 10]) = Ok p' /\
    BatteryPack.cycles p' = (BatteryPack.cycles driver_pack + N.of_nat (length [10; 10; 10]))%N /\
    Forall2 (fun c c' =>
               soh c' ==
               Qmax (soh c
                     - 0.01 * (inject_Z (Z.of_nat (length [10; 10; 10]))
                               * inject_Z (Z.of_N (BatteryPack.cycles driver_pack))
                               + inject_Z (Z.of_nat (length [10; 10; 10]))
                                 * (inject_Z (Z.of_nat (length [10; 10; 10])) + 1) / 2))
                    60)
            (BatteryPack.cells driver_pack) (BatteryPack.cells p').
Proof.
  assert (F : Forall (fun c => soc c == 100 /\ 60 <= soh c) (BatteryPack.cells driver_pack)).
  { repeat constructor; cbn; discriminate. }
  split; [exact F|].
  exact (rest_steps_cumulative_wear [10; 10; 10] driver_pack F).
Defined.

Example three_idle_steps :
  exists p', BatteryPack.run driver_pack [(0, 10); (0, 10); (0, 10)] = Ok p' /\
             BatteryPack.cycles p' = 3%N /\
             Forall (fun c => soh c == 99.94) (BatteryPack.cells p').
Proof.
  eexists. split; [vm_compute; reflexivity|]. split; [reflexivity|].
  repeat constructor.
Qed.

(** ** A full cycle *)

Lemma uniform_eq (C s s' : Q) (cs : list (BatteryCell.t Q)) :
  s == s' -> uniform C s cs -> uniform C s' cs.
Proof.
  intros E (NE & F). split; [exact NE|].
  eapply Forall_impl; [|exact F]. intros c (Hc & Hs). split; [exact Hc|].
  rewrite Hs. exact E.
Qed.

Lemma all_soc_uniform (C s x : Q) (cs : list (BatteryCell.t Q)) :
  uniform C s cs -> (BatteryPack.all_soc x cs = true <-> s == x).
Proof.
  intros (NE & F). rewrite all_soc_Q. split.
  - intro G. destruct cs as [|c cs]; [contradiction|].
    inversion F as [|? ? (_ & Hs) _]; subst.
    inversion G as [|? ? Hx _]; subst. rewrite <- Hs. exact Hx.
  - intro E. eapply Forall_impl; [|exact F]. intros c (_ & Hs).
    rewrite Hs. exact E.
Qed.

Lemma Forall2_nonempty {X Y : Type} (R : X -> Y -> Prop) (xs : list X) (ys : list Y) :
  Forall2 R xs ys -> xs <> [] -> ys <> [].
Proof.
  intros F NE. destruct F; [contradiction|discriminate].
Qed.

Section FullCycle.
Variables (C current dt : Q).
Hypothesis (HC : 0 < C) (HI : 0 < current) (Hdt : 0 < dt).

Let delta : Q := (current * dt / 3600) / C * 100.

Lemma delta_pos : 0 < delta.
Proof.
  unfold delta.
  apply Qmult_lt_0_compat; [|reflexivity].
  apply Qlt_shift_div_l; [exact HC|]. rewrite Qmult_0_l.
  apply Qlt_shift_div_l; [reflexivity|]. rewrite Qmult_0_l.
  apply Qmult_lt_0_compat; assumption.
Qed.

Lemma pass_discharge (s : Q) (cs : list (BatteryCell.t Q)) :
  uniform C s cs ->
  exists cs', for_each (BatteryPack.step_cell current dt) cs = Ok cs' /\
    uniform C (Qmax (s - delta) 0) cs' /\
    Forall2 (fun c c' => soh c' = soh c) cs cs'.
Proof.
  intros (NE & F).
  destruct (for_each_ok (BatteryPack.step_cell current dt)
              (fun c c' => soh c' = soh c /\
                           (capacity_ah c' == C /\ soc c' == Qmax (s - delta) 0)) cs)
    as (cs' & E & G).
  { eapply Forall_impl; [|exact F]. intros c (Hc & Hs).
    assert (Pc : 0 < capacity_ah c) by (rewrite Hc; exact HC).
    destruct (step_cell_discharge_Q c current dt Pc HI) as (c' & Ec & Sc & Eh & Ecap).
    exists c'. split; [exact Ec|]. split; [exact Eh|].
    split; [rewrite Ecap; exact Hc|].
    rewrite Sc, Hs, Hc. reflexivity. }
  exists cs'. split; [exact E|]. split.
  - split; [exact (Forall2_nonempty _ _ _ G NE)|].
    exact (Forall2_Forall_r _ _ _ _ G).
  - eapply Forall2_impl; [|exact G]. intros c c' (Eh & _). exact Eh.
Qed.

Lemma pass_charge (s : Q) (cs : list (BatteryCell.t Q)) :
  uniform C s cs ->
  exists cs', for_each (BatteryPack.step_cell (- current) dt) cs = Ok cs' /\
    uniform C (Qmin (s + delta) 100) cs' /\
    Forall2 (fun c c' => soh c' = soh c) cs cs'.
Proof.
  intros (NE & F).
  destruct (for_each_ok (BatteryPack.step_cell (- current) dt)
              (fun c c' => soh c' = soh c /\
                           (capacity_ah c' == C /\ soc c' == Qmin (s + delta) 100)) cs)
    as (cs' & E & G).
  { eapply Forall_impl; [|exact F]. intros c (Hc & Hs).
    assert (Pc : 0 < capacity_ah c) by (rewrite Hc; exact HC).
    destruct (step_cell_charge_Q c current dt Pc HI) as (c' & Ec & Sc & Eh & Ecap).
    exists c'. split; [exact Ec|]. split; [exact Eh|].
    split; [rewrite Ecap; exact Hc|].
    rewrite Sc, Hs, Hc. reflexivity. }
  exists cs'. split; [exact E|]. split.
  - split; [exact (Forall2_nonempty _ _ _ G NE)|].
    exact (Forall2_Forall_r _ _ _ _ G).
  - eapply Forall2_impl; [|exact G]. intros c c' (Eh & _). exact Eh.
Qed.

Lemma step_not_saturated (p : BatteryPack.t Q) (i s' : Q) (cs' : list (BatteryCell.t Q)) :
  for_each (BatteryPack.step_cell i dt) (BatteryPack.cells p) = Ok cs' ->
  uniform C s' cs' -> 0 < s' -> s' < 100 ->
  BatteryPack.simulate_step p i dt =
  Ok {| BatteryPack.cells := cs'; BatteryPack.cycles := BatteryPack.cycles p |}.
Proof.
  intros E U L0 L100.
  rewrite (simulate_step_after_pass p i dt cs' E).
  change (int 100 : Q) with 100. change (int 0 : Q) with 0.
  destruct (BatteryPack.all_soc 100 cs') eqn:H100.
  { apply (all_soc_uniform C s' 100 cs' U) in H100. lra. }
  destruct (BatteryPack.all_soc 0 cs') eqn:H0.
  { apply (all_soc_uniform C s' 0 cs' U) in H0. lra. }
  reflexivity.
Qed.

Lemma discharge_phase (j : nat) (p : BatteryPack.t Q) (s : Q) :
  uniform C s (BatteryPack.cells p) -> s <= 100 ->
  inject_Z (Z.of_nat j) * delta < s ->
  exists p',
    BatteryPack.run p (repeat (current, dt) j) = Ok p' /\
    BatteryPack.cycles p' = BatteryPack.cycles p /\
    uniform C (s - inject_Z (Z.of_nat j) * delta) (BatteryPack.cells p') /\
    Forall2 (fun c c' => soh c' = soh c) (BatteryPack.cells p) (BatteryPack.cells p').
Proof.
  pose proof delta_pos as D.
  revert p s. induction j as [|j IH]; intros p s U Hs Hj.
  - exists p. split; [reflexivity|]. split; [reflexivity|]. split.
    + eapply uniform_eq; [|exact U]. cbn. ring.
    + apply Forall2_refl_on. reflexivity.
  - rewrite Nat2Z.inj_succ in *. unfold Z.succ in *. rewrite inject_Z_plus in *.
    pose proof (inject_nat_nonneg j) as Hn.
    set (J := inject_Z (Z.of_nat j)) in *. change (inject_Z 1) with 1 in *.
    assert (Hjd : 0 <= J * delta) by (apply Qmult_le_0_compat; lra).
    destruct (pass_discharge s (BatteryPack.cells p) U) as (cs' & E & U' & G).
    assert (U1 : uniform C (s - delta) cs').
    { eapply uniform_eq; [|exact U']. apply Q.max_l. lra. }
    cbn [repeat BatteryPack.run].
    rewrite (step_not_saturated p current (s - delta) cs' E U1) by lra.
    cbn [bind].
    destruct (IH {| BatteryPack.cells := cs'; BatteryPack.cycles := BatteryPack.cycles p |}
                 (s - delta)) as (p' & E' & C' & U'' & G'); [exact U1|lra|lra|].
    exists p'. split; [exact E'|]. split; [exact C'|]. split.
    + eapply uniform_eq; [|exact U'']. ring.
    + eapply Forall2_trans; [|exact G|exact G']. intros x y z. congruence.
Qed.

Lemma charge_phase (j : nat) (p : BatteryPack.t Q) (s : Q) :
  uniform C s (BatteryPack.cells p) -> 0 < s ->
  s + inject_Z (Z.of_nat j) * delta < 100 ->
  exists p',
    BatteryPack.run p (repeat (- current, dt) j) = Ok p' /\
    BatteryPack.cycles p' = BatteryPack.cycles p /\
    uniform C (s + inject_Z (Z.of_nat j) * delta) (BatteryPack.cells p') /\
    Forall2 (fun c c' => soh c' = soh c) (BatteryPack.cells p) (BatteryPack.cells p').
Proof.
  pose proof delta_pos as D.
  revert p s. induction j as [|j IH]; intros p s U Hs Hj.
  - exists p. split; [reflexivity|]. split; [reflexivity|]. split.
    + eapply uniform_eq; [|exact U]. cbn. ring.
    + apply Forall2_refl_on. reflexivity.
  - rewrite Nat2Z.inj_succ in *. unfold Z.succ in *. rewrite inject_Z_plus in *.
    pose proof (inject_nat_nonneg j) as Hn.
    set (J := inject_Z (Z.of_nat j)) in *. change (inject_Z 1) with 1 in *.
    assert (Hjd : 0 <= J * delta) by (apply Qmult_le_0_compat; lra).
    destruct (pass_charge s (BatteryPack.cells p) U) as (cs' & E & U' & G).
    assert (U1 : uniform C (s + delta) cs').
    { eapply uniform_eq; [|exact U']. apply Q.min_l. lra. }
    cbn [repeat BatteryPack.run].
    rewrite (step_not_saturated p (- current) (s + delta) cs' E U1) by lra.
    cbn [bind].
    destruct (IH {| BatteryPack.cells := cs'; BatteryPack.cycles := BatteryPack.cycles p |}
                 (s + delta)) as (p' & E' & C' & U'' & G'); [exact U1|lra|lra|].
    exists p'. split; [exact E'|]. split; [exact C'|]. split.
    + eapply uniform_eq; [|exact U'']. ring.
    + eapply Forall2_trans; [|exact G|exact G']. intros x y z. congruence.
Qed.

Lemma charge_to_full (p : BatteryPack.t Q) (s : Q) :
  uniform C s (BatteryPack.cells p) -> 100 <= s + delta ->
  exists p',
    BatteryPack.simulate_step p (- current) dt = Ok p' /\
    BatteryPack.cycles p' = (BatteryPack.cycles p + 1)%N /\
    Forall (fun c => soc c == 100) (BatteryPack.cells p') /\
    Forall2 (fun c c' =>
               soh c' == Qmax (soh c - 0.01 * inject_Z (Z.of_N (BatteryPack.cycles p + 1))) 60)
            (BatteryPack.cells p) (BatteryPack.cells p').
Proof.
  intros U Hs.
  destruct (pass_charge s (BatteryPack.cells p) U) as (cs' & E & U' & G).
  assert (U1 : uniform C 100 cs').
  { eapply uniform_eq; [|exact U']. apply Q.min_r. exact Hs. }
  eexists. split; [apply simulate_step_after_pass; exact E|].
  assert (H100 : BatteryPack.all_soc 100 cs' = true).
  { apply (all_soc_uniform C 100 100 cs' U1). reflexivity. }
  change (int 100 : Q) with 100. rewrite H100.
  cbn [orb BatteryPack.cycles BatteryPack.cells].
  split; [reflexivity|]. split.
  - apply Forall_soc_map_degrade. apply all_soc_Q. exact H100.
  - eapply Forall2_map_r; [|exact G]. intros c c' Eh. cbn beta in Eh.
    rewrite degrade_health_soh, Eh. reflexivity.
Qed.

End FullCycle.

Lemma full_cycle_run
        (C current dt : Q) (k : nat) (p : BatteryPack.t Q) :
  0 < C -> 0 < current -> 0 < dt -> (1 <= k)%nat ->
  inject_Z (Z.of_nat k) * ((current * dt / 3600) / C * 100) < 100 ->
  uniform C 100 (BatteryPack.cells p) ->
  exists p',
    BatteryPack.run p (repeat (current, dt) k ++ repeat (- current, dt) k) = Ok p' /\
    BatteryPack.cycles p' = (BatteryPack.cycles p + 1)%N /\
    Forall (fun c => soc c == 100) (BatteryPack.cells p') /\
    Forall2 (fun c c' =>
               soh c' == Qmax (soh c - 0.01 * inject_Z (Z.of_N (BatteryPack.cycles p + 1))) 60)
            (BatteryPack.cells p) (BatteryPack.cells p').
Proof.
  intros HC HI Hdt Hk Hdrop U.
  pose proof (delta_pos C current dt HC HI Hdt) as D.
  set (delta := (current * dt / 3600) / C * 100) in *.
  destruct k as [|j]; [lia|]. clear Hk.
  assert (EK : inject_Z (Z.of_nat (S j)) == inject_Z (Z.of_nat j) + 1).
  { rewrite Nat2Z.inj_succ. unfold Z.succ. rewrite inject_Z_plus. reflexivity. }
  pose proof (inject_nat_nonneg j) as Hj.
  destruct (discharge_phase C current dt HC HI Hdt (S j) p 100 U)
    as (p1 & E1 & C1 & U1 & G1); [apply Qle_refl|exact Hdrop|].
  fold delta in U1.
  destruct (charge_phase C current dt HC HI Hdt j p1
              (100 - inject_Z (Z.of_nat (S j)) * delta) U1)
    as (p2 & E2 & C2 & U2 & G2).
  { fold delta. lra. }
  { fold delta. rewrite EK. lra. }
  fold delta in U2.
  destruct (charge_to_full C current dt HC HI p2
              (100 - inject_Z (Z.of_nat (S j)) * delta + inject_Z (Z.of_nat j) * delta) U2)
    as (p3 & E3 & C3 & S3 & G3).
  { fold delta. rewrite EK. lra. }
  exists p3. split.
  - rewrite run_app, E1. cbn [bind].
    replace (repeat (- current, dt) (S j))
      with (repeat (- current, dt) j ++ [(- current, dt)])
      by (symmetry; apply repeat_cons).
    rewrite run_app, E2. cbn [bind BatteryPack.run]. rewrite E3. reflexivity.
  - split; [rewrite C3, C2, C1; reflexivity|]. split; [exact S3|].
    rewrite C2, C1 in G3.
    assert (G12 : Forall2 (fun c c' => soh c' = soh c)
                          (BatteryPack.cells p) (BatteryPack.cells p2)).
    { eapply Forall2_trans; [|exact G1|exact G2]. intros x y z. congruence. }
    clear - G12 G3. revert G3. generalize (BatteryPack.cells p3).
    induction G12 as [|c c2 l l2 Eh _ IH]; intros l3 G3; inversion G3; subst;
      constructor.
    + rewrite <- Eh. assumption.
    + apply IH. assumption.
Qed.



(** The driver script, in exact arithmetic: 360 steps at 1 A and 360 at -1 A
    drop 40 % and restore them; one cycle, health 99.99. *)
Example driver_script_exact :
  exists p',
    BatteryPack.run driver_pack (repeat (1, 10) 360 ++ repeat (- 1, 10) 360) = Ok p' /\
    BatteryPack.cycles p' = 1%N /\
    Forall (fun c => soc c == 100) (BatteryPack.cells p') /\
    Forall (fun c => soh c == 99.99) (BatteryPack.cells p').
Proof.
  destruct (full_cycle_run 2.5 1 10 360 driver_pack) as (p' & E & Cy & S & G);
    try reflexivity; [lia|split; [discriminate|repeat constructor]|].
  exists p'. split; [exact E|]. split; [exact Cy|]. split; [exact S|].
  apply (Forall2_Forall_r (fun _ _ => True) (fun c => soh c == 99.99)
                          (BatteryPack.cells driver_pack)).
  eapply Forall2_Forall_l with (P := fun c => soh c = 100); [|repeat constructor|exact G].
  intros c c' Hc K. cbn beta in *. split; [exact I|].
  rewrite K, Hc. reflexivity.
Qed.

(** ** More on one cell *)

Lemma charge_soc_witness :
  ~ capacity_ah half_charged_cell == 0 /\
  exists c', charge half_charged_cell 1 10 = Ok c' /\
    soc c' == Qmin (soc half_charged_cell
                    + (1 * 10 / 3600) / capacity_ah half_charged_cell * 100) 100.
Proof.
  assert (H : ~ capacity_ah half_charged_cell == 0) by (vm_compute; discriminate).
  split; [exact H|].
  exact (charge_soc half_charged_cell 1 10 H).
Defined.

(** X15.  The other order of C6: when neither clamp fires ([discharge]
    stays at or above 0 and the following [charge] at or below 100),
    discharging and then charging with the same [current] and [dt] puts
    [soc] back to its value. *)
Theorem discharge_then_charge_soc (c : BatteryCell.t Q) (current dt : Q) :
  ~ capacity_ah c == 0 ->
  0 <= soc c - (current * dt / 3600) / capacity_ah c * 100 ->
  (soc c - (current * dt / 3600) / capacity_ah c * 100)
  + (current * dt / 3600) / capacity_ah c * 100 <= 100 ->
  exists c1 c2,
    discharge c current dt = Ok c1 /\
    charge c1 current dt = Ok c2 /\
    soc c2 == soc c.
Proof.
  set (delta := (current * dt / 3600) / capacity_ah c * 100).
  intros Hcap Hlo Hhi.
  eexists. eexists. split; [apply discharge_Q_ok; exact Hcap|].
  split; [apply charge_Q_ok; exact Hcap|].
  rewrite !soc_update_voltage, !soc_heated.
  unfold soc_delta.
  cbn [soc capacity_ah set_soc update_voltage heated cool_down set_temp set_voltage].
  fold delta.
  destruct (py_max_Q_cases (soc c - delta) 0) as [[L E]|[L E]]; [lra|].
  rewrite E.
  destruct (py_min_Q_cases (soc c - delta + delta) 100) as [[L' E']|[L' E']]; [lra|].
  rewrite E'. ring.
Qed.

Lemma discharge_then_charge_soc_witness :
  ~ capacity_ah half_charged_cell == 0 /\
  0 <= soc half_charged_cell
       - (1 * 10 / 3600) / capacity_ah half_charged_cell * 100 /\
  (soc half_charged_cell - (1 * 10 / 3600) / capacity_ah half_charged_cell * 100)
  + (1 * 10 / 3600) / capacity_ah half_charged_cell * 100 <= 100 /\
  exists c1 c2,
    discharge half_charged_cell 1 10 = Ok c1 /\
    charge c1 1 10 = Ok c2 /\
    soc c2 == soc half_charged_cell.
Proof.
  assert (H1 : ~ capacity_ah half_charged_cell == 0) by (vm_compute; discriminate).
  assert (H2 : 0 <= soc half_charged_cell
                    - (1 * 10 / 3600) / capacity_ah half_charged_cell * 100)
    by (vm_compute; discriminate).
  assert (H3 : (soc half_charged_cell
                - (1 * 10 / 3600) / capacity_ah half_charged_cell * 100)
               + (1 * 10 / 3600) / capacity_ah half_charged_cell * 100 <= 100)
    by (vm_compute; discriminate).
  repeat (split; [assumption|]).
  exact (discharge_then_charge_soc half_charged_cell 1 10 H1 H2 H3).
Defined.

(** ** Running empty *)

(** The other end of the cycle test, in exact arithmetic where the square
    never overflows: when a discharging step takes away at least what is
    left in every cell of a non-empty pack of equal cells, the step returns
    with every cell at [soc == 0], counts a cycle and lowers every [soh] by
    0.01 times the new count, clamped at 60. *)
Theorem discharge_to_empty_counts_cycle
        (C s current dt : Q) (p : BatteryPack.t Q) :
  0 < C -> 0 < current ->
  s <= (current * dt / 3600) / C * 100 ->
  BatteryPack.cells p <> [] ->
  Forall (fun c => capacity_ah c == C /\ soc c == s) (BatteryPack.cells p) ->
  exists p',
    BatteryPack.simulate_step p current dt = Ok p' /\
    BatteryPack.cycles p' = (BatteryPack.cycles p + 1)%N /\
    Forall (fun c => soc c == 0) (BatteryPack.cells p') /\
    Forall2 (fun c c' =>
               soh c' == Qmax (soh c - 0.01 * inject_Z (Z.of_N (BatteryPack.cycles p + 1))) 60)
            (BatteryPack.cells p) (BatteryPack.cells p').
Proof.
  intros HC HI Hs NE F.
  assert (U : uniform C s (BatteryPack.cells p)) by (split; assumption).
  destruct (pass_discharge C current dt HC HI s (BatteryPack.cells p) U)
    as (cs' & E & U' & G).
  assert (U0 : uniform C 0 cs').
  { eapply uniform_eq; [|exact U']. apply Q.max_r. lra. }
  eexists. split; [apply simulate_step_after_pass; exact E|].
  assert (H0 : BatteryPack.all_soc 0 cs' = true).
  { apply (all_soc_uniform C 0 0 cs' U0). reflexivity. }
  change (int 100 : Q) with 100. change (int 0 : Q) with 0. rewrite H0.
  rewrite orb_true_r. cbn [BatteryPack.cycles BatteryPack.cells].
  split; [reflexivity|]. split.
  - apply Forall_soc_map_degrade. apply all_soc_Q. exact H0.
  - eapply Forall2_map_r; [|exact G]. intros c c' Eh. cbn beta in Eh.
    rewrite degrade_health_soh, Eh. reflexivity.
Qed.

Lemma discharge_to_empty_counts_cycle_witness :
  0 < 2.5 /\ 0 < 1 /\ 0.05 <= (1 * 10 / 3600) / 2.5 * 100 /\
  BatteryPack.cells nearly_empty_pack <> [] /\
  Forall (fun c => capacity_ah c == 2.5 /\ soc c == 0.05)
         (BatteryPack.cells nearly_empty_pack) /\
  exists p',
    BatteryPack.simulate_step nearly_empty_pack 1 10 = Ok p' /\
    BatteryPack.cycles p' = (BatteryPack.cycles nearly_empty_pack + 1)%N /\
    Forall (fun c => soc c == 0) (BatteryPack.cells p') /\
    Forall2 (fun c c' =>
               soh c' == Qmax (soh c - 0.01 * inject_Z (Z.of_N (BatteryPack.cycles nearly_empty_pack + 1))) 60)
            (BatteryPack.cells nearly_empty_pack) (BatteryPack.cells p').
Proof.
  assert (H1 : 0 < 2.5) by reflexivity.
  assert (H2 : 0 < 1) by reflexivity.
  assert (H3 : 0.05 <= (1 * 10 / 3600) / 2.5 * 100) by (vm_compute; discriminate).
  assert (H4 : BatteryPack.cells nearly_empty_pack <> []) by discriminate.
  assert (H5 : Forall (fun c => capacity_ah c == 2.5 /\ soc c == 0.05)
                      (BatteryPack.cells nearly_empty_pack))
    by (repeat constructor).
  repeat (split; [assumption|]).
  exact (discharge_to_empty_counts_cycle 2.5 0.05 1 10 nearly_empty_pack H1 H2 H3 H4 H5).
Defined.

(** ** The simulation loop *)

Lemma loop_cons {A : Type} `{PyNum A}
      (p : BatteryPack.t A) (dt : A) (step : nat) (rest : list nat) :
  Driver.loop p dt (step :: rest) =
  bind (BatteryPack.simulate_step p
          (Driver.current_at (num_mul (int (Z.of_nat step)) dt)) dt)
       (fun p1 =>
          bind (Driver.read_out (num_mul (int (Z.of_nat step)) dt) p1)
               (fun x =>
                  bind (Driver.loop p1 dt rest)
                       (fun r => Ok (fst r, x :: snd r)))).
Proof. reflexivity. Qed.

(** X17.  Whatever the arithmetic, when the loop of the script returns, the
    pack it leaves is the pack that the bare sequence of [simulate_step]
    calls of its current profile leaves (reading the averages changes
    nothing), and it has recorded one sample per step. *)
Theorem loop_follows_profile {A : Type} `{PyNum A}
        (steps : list nat) (dt : A) (p p' : BatteryPack.t A)
        (samples : list (Driver.sample A)) :
  Driver.loop p dt steps = Ok (p', samples) ->
  BatteryPack.run p (Driver.profile dt steps) = Ok p' /\
  length samples = length steps.
Proof.
  revert p p' samples. induction steps as [|step rest IH]; intros p p' samples E.
  - cbn in E. injection E as <- <-. split; reflexivity.
  - rewrite loop_cons in E.
    destruct (BatteryPack.simulate_step p _ dt) as [p1|e] eqn:E1;
      cbn [bind] in E; [|discriminate].
    destruct (Driver.read_out _ p1) as [x|e]; cbn [bind] in E; [|discriminate].
    destruct (Driver.loop p1 dt rest) as [[p2 xs]|e] eqn:E2;
      cbn [bind fst snd] in E; [|discriminate].
    injection E as <- <-.
    destruct (IH p1 p2 xs E2) as (R & L).
    split; [|cbn [length]; rewrite L; reflexivity].
    unfold Driver.profile. cbn [map BatteryPack.run].
    rewrite E1. cbn [bind]. exact R.
Qed.

Lemma loop_follows_profile_witness :
  exists p' samples,
    Driver.loop driver_pack 10 [0%nat; 1%nat; 2%nat] = Ok (p', samples) /\
    BatteryPack.run driver_pack (Driver.profile 10 [0%nat; 1%nat; 2%nat]) = Ok p' /\
    length samples = length [0%nat; 1%nat; 2%nat].
Proof.
  eexists. eexists. split; [vm_compute; reflexivity|].
  apply (loop_follows_profile [0%nat; 1%nat; 2%nat] 10 driver_pack).
  vm_compute. reflexivity.
Defined.

Lemma read_out_Q_ok (time : Q) (p : BatteryPack.t Q) :
  BatteryPack.cells p <> [] -> exists x, Driver.read_out time p = Ok x.
Proof.
  intro NE.
  assert (NZ : ~ BatteryPack.len p == 0).
  { intro Z. apply len_Q_zero in Z. contradiction. }
  unfold Driver.read_out, BatteryPack.get_average_soc,
    BatteryPack.get_average_temp, BatteryPack.get_average_soh.
  rewrite !py_div_Q_ok by exact NZ. cbn [bind]. eexists. reflexivity.
Qed.

Lemma read_out_Q_raise (time : Q) (p : BatteryPack.t Q) :
  BatteryPack.cells p = [] -> Driver.read_out time p = Raise ZeroDivisionError.
Proof.
  intro E. unfold Driver.read_out, BatteryPack.get_average_soc.
  rewrite py_div_Q_raise; [reflexivity|]. apply len_Q_zero. exact E.
Qed.

(** X18.  A pack without cells is built and stepped without complaint, but
    the loop of the script stops with [ZeroDivisionError] at its first
    read-out, the average over no cells. *)
Theorem loop_raises_on_empty_pack
        (p : BatteryPack.t Q) (dt : Q) (step : nat) (rest : list nat) :
  BatteryPack.cells p = [] ->
  Driver.loop p dt (step :: rest) = Raise ZeroDivisionError.
Proof.
  intro E. rewrite loop_cons.
  unfold BatteryPack.simulate_step at 1. rewrite E.
  cbn [for_each bind BatteryPack.all_soc forallb orb map].
  rewrite read_out_Q_raise by reflexivity. reflexivity.
Qed.

Lemma loop_raises_on_empty_pack_witness :
  BatteryPack.cells empty_pack = [] /\
  Driver.loop empty_pack 10 (0%nat :: [1%nat; 2%nat]) = Raise ZeroDivisionError.
Proof.
  split; [reflexivity|].
  apply (loop_raises_on_empty_pack empty_pack 10 0 [1%nat; 2%nat]). reflexivity.
Defined.

Lemma simulate_step_nonempty {A : Type} `{PyNum A}
      (p p' : BatteryPack.t A) (current dt : A) :
  BatteryPack.simulate_step p current dt = Ok p' ->
  BatteryPack.cells p <> [] -> BatteryPack.cells p' <> [].
Proof.
  intros E NE.
  exact (Forall2_nonempty _ _ _ (simulate_step_fixed p p' current dt E) NE).
Qed.

Lemma loop_ok (steps : list nat) (dt : Q) (p : BatteryPack.t Q) :
  BatteryPack.cells p <> [] -> Forall cell_ok (BatteryPack.cells p) -> 0 < dt ->
  exists p' samples,
    Driver.loop p dt steps = Ok (p', samples) /\
    BatteryPack.run p (Driver.profile dt steps) = Ok p' /\
    length samples = length steps /\
    Forall cell_ok (BatteryPack.cells p').
Proof.
  intros NE Hp Hd. revert p NE Hp.
  induction steps as [|step rest IH]; intros p NE Hp.
  - exists p, []. repeat split; [exact Hp].
  - rewrite loop_cons.
    destruct (simulate_step_ok p
                (Driver.current_at (num_mul (int (Z.of_nat step)) dt)) dt Hp Hd)
      as (p1 & E1 & H1).
    rewrite E1. cbn [bind].
    pose proof (simulate_step_nonempty p p1 _ dt E1 NE) as NE1.
    destruct (read_out_Q_ok (num_mul (int (Z.of_nat step)) dt) p1 NE1) as (x & Ex).
    rewrite Ex. cbn [bind].
    destruct (IH p1 NE1 H1) as (p' & xs & E' & R' & L & R).
    rewrite E'. cbn [bind fst snd].
    exists p', (x :: xs). split; [reflexivity|].
    split; [unfold Driver.profile; cbn [map BatteryPack.run]; rewrite E1; exact R'|].
    split; [cbn [length]; rewrite L; reflexivity|exact R].
Qed.

(** X19.  On a non-empty pack of cells with positive capacity and [soc],
    [soh] in range, with a positive [dt], the loop of the script never
    raises: it returns a pack and one sample per step, and the cells are
    still in range. *)
Theorem loop_returns
        (steps : list nat) (dt : Q) (p : BatteryPack.t Q) :
  BatteryPack.cells p <> [] ->
  Forall (fun c => 0 < capacity_ah c) (BatteryPack.cells p) ->
  Forall in_range (BatteryPack.cells p) ->
  0 < dt ->
  exists p' samples,
    Driver.loop p dt steps = Ok (p', samples) /\
    length samples = length steps /\
    Forall in_range (BatteryPack.cells p').
Proof.
  intros NE Hc Hr Hd.
  assert (Hp : Forall cell_ok (BatteryPack.cells p)).
  { rewrite Forall_forall in *. intros c Hin. split; auto. }
  destruct (loop_ok steps dt p NE Hp Hd) as (p' & samples & E & _ & L & R).
  exists p', samples. split; [exact E|]. split; [exact L|].
  eapply Forall_impl; [|exact R]. intros c Hcell. apply Hcell.
Qed.

Lemma loop_returns_witness :
  BatteryPack.cells driver_pack <> [] /\
  Forall (fun c => 0 < capacity_ah c) (BatteryPack.cells driver_pack) /\
  Forall in_range (BatteryPack.cells driver_pack) /\
  0 < 10 /\
  exists p' samples,
    Driver.loop driver_pack 10 [0%nat; 1%nat; 2%nat] = Ok (p', samples) /\
    length samples = length [0%nat; 1%nat; 2%nat] /\
    Forall in_range (BatteryPack.cells p').
Proof.
  assert (H1 : BatteryPack.cells driver_pack <> []) by discriminate.
  assert (H2 : Forall (fun c => 0 < capacity_ah c) (BatteryPack.cells driver_pack))
    by (repeat constructor).
  assert (H3 : Forall in_range (BatteryPack.cells driver_pack))
    by (repeat constructor; cbn; discriminate).
  assert (H4 : 0 < 10) by reflexivity.
  repeat (split; [assumption|]).
  exact (loop_returns [0%nat; 1%nat; 2%nat] 10 driver_pack H1 H2 H3 H4).
Defined.

(** The script as written, [sim_time = 7200] and [dt = 10], in exact
    arithmetic: 720 samples, one cycle counted (at the last step), every
    cell back at 100 % charge with 99.99 % health. *)
Example script_exact :
  exists p' samples,
    Driver.simulate driver_pack 7200 10 = Ok (p', samples) /\
    length samples = 720%nat /\
    BatteryPack.cycles p' = 1%N /\
    Forall (fun c => soc c == 100) (BatteryPack.cells p') /\
    Forall (fun c => soh c == 99.99) (BatteryPack.cells p').
Proof.
  destruct (loop_ok (seq 0 720) 10 driver_pack) as (p' & samples & E & R & L & _);
    [discriminate| |reflexivity|].
  { repeat constructor; cbn; discriminate. }
  destruct driver_script_exact as (p2 & R2 & Cy & S & Hh).
  assert (P : Driver.profile 10 (seq 0 720)
              = repeat (1, 10) 360 ++ repeat (- 1, 10) 360)
    by (vm_compute; reflexivity).
  rewrite P, R2 in R. injection R as <-.
  exists p2, samples. split; [exact E|].
  split; [rewrite L; reflexivity|]. auto.
Qed.

(** * Calls that raise *)

(** ** The two readings of a call agree *)

Section Agreement.
Context {A : Type} `{PyNum A}.

Lemma inplace_generate_heat_agrees (c : BatteryCell.t A) (current dt : A) :
  match generate_heat c current dt with
  | Ok c' => InPlace.generate_heat c current dt = (c', None)
  | Raise e => InPlace.generate_heat c current dt = (c, Some e)
  end.
Proof.
  unfold generate_heat, InPlace.generate_heat.
  destruct (num_pow2 current); reflexivity.
Qed.

Lemma inplace_discharge_agrees (c : BatteryCell.t A) (current dt : A) :
  match discharge c current dt with
  | Ok c' => InPlace.discharge c current dt = (c', None)
  | Raise e => snd (InPlace.discharge c current dt) = Some e
  end.
Proof.
  unfold discharge, InPlace.discharge.
  destruct (py_div _ _) as [q|e]; cbn [bind]; [|reflexivity].
  match goal with
  | |- context [generate_heat ?c1 current dt] =>
      pose proof (inplace_generate_heat_agrees c1 current dt) as K;
      destruct (generate_heat c1 current dt) as [c2|e]; rewrite K
  end; reflexivity.
Qed.

Lemma inplace_charge_agrees (c : BatteryCell.t A) (current dt : A) :
  match charge c current dt with
  | Ok c' => InPlace.charge c current dt = (c', None)
  | Raise e => snd (InPlace.charge c current dt) = Some e
  end.
Proof.
  unfold charge, InPlace.charge.
  destruct (py_div _ _) as [q|e]; cbn [bind]; [|reflexivity].
  match goal with
  | |- context [generate_heat ?c1 current dt] =>
      pose proof (inplace_generate_heat_agrees c1 current dt) as K;
      destruct (generate_heat c1 current dt) as [c2|e]; rewrite K
  end; reflexivity.
Qed.

Lemma inplace_step_cell_agrees (current dt : A) (c : BatteryCell.t A) :
  match BatteryPack.step_cell current dt c with
  | Ok c' => InPlace.step_cell current dt c = (c', None)
  | Raise e => snd (InPlace.step_cell current dt c) = Some e
  end.
Proof.
  unfold BatteryPack.step_cell, InPlace.step_cell.
  destruct (num_ltb _ current); [apply inplace_discharge_agrees|].
  destruct (num_ltb current _); [apply inplace_charge_agrees|reflexivity].
Qed.

Lemma inplace_for_each_agrees {X : Type}
      (f : X -> result X) (g : X -> X * option exn) (xs : list X) :
  (forall x, match f x with
             | Ok y => g x = (y, None)
             | Raise e => snd (g x) = Some e
             end) ->
  match for_each f xs with
  | Ok ys => InPlace.for_each g xs = (ys, None)
  | Raise e => snd (InPlace.for_each g xs) = Some e
  end.
Proof.
  intro K. induction xs as [|x xs IH]; cbn [for_each InPlace.for_each];
    [reflexivity|].
  pose proof (K x) as Kx. destruct (f x) as [y|e]; cbn [bind].
  - rewrite Kx. destruct (for_each f xs) as [ys|e]; cbn [bind].
    + rewrite IH. reflexivity.
    + destruct (InPlace.for_each g xs) as [zs r]. exact IH.
  - destruct (g x) as [y r]. cbn [snd] in Kx. subst r. reflexivity.
Qed.

(** A call that returns leaves the pack it returns; a call that raises
    raises the same exception in both readings. *)
Lemma inplace_simulate_step_agrees (p : BatteryPack.t A) (current dt : A) :
  match BatteryPack.simulate_step p current dt with
  | Ok p' => InPlace.simulate_step p current dt = (p', None)
  | Raise e => snd (InPlace.simulate_step p current dt) = Some e
  end.
Proof.
  unfold BatteryPack.simulate_step, InPlace.simulate_step.
  pose proof (inplace_for_each_agrees (BatteryPack.step_cell current dt)
                (InPlace.step_cell current dt) (BatteryPack.cells p)
                (inplace_step_cell_agrees current dt)) as K.
  destruct (for_each _ _) as [cs|e]; cbn [bind].
  - rewrite K. destruct (_ || _); reflexivity.
  - destruct (InPlace.for_each _ _) as [cs r]. cbn [snd] in K. subst r.
    reflexivity.
Qed.

End Agreement.

(** ** Identical cells, and the call that raises *)

(** C9 fails on the code: [simulate_step(1e200, 10)] on the driver's pack
    raises [OverflowError] from [current ** 2] in the first cell, after
    [discharge] has set that cell's [soc] to 0; the three other cells are
    untouched, at 100. *)
Lemma cells_differ_after_overflow :
  exists p',
    InPlace.simulate_step driver_pack_binary64 1e200%float 10%float
    = (p', Some OverflowError) /\
    map (@soc float) (BatteryPack.cells p') = [0; 100; 100; 100]%float /\
    ~ identical_cells p'.
Proof.
  eexists. split; [vm_compute; reflexivity|].
  split; [reflexivity|].
  intro I.
  assert (K : soc (nth 0 (BatteryPack.cells
                            (fst (InPlace.simulate_step driver_pack_binary64
                                    1e200%float 10%float)))
                        driver_cell_binary64)
              = soc (nth 1 (BatteryPack.cells
                              (fst (InPlace.simulate_step driver_pack_binary64
                                      1e200%float 10%float)))
                         driver_cell_binary64)).
  { f_equal. apply I; vm_compute; auto. }
  vm_compute in K. discriminate.
Qed.

(** ** The range invariant, whatever a call raises *)

Lemma inplace_for_each_Forall {X : Type} (P : X -> Prop)
      (g : X -> X * option exn) (xs : list X) :
  (forall x, P x -> P (fst (g x))) ->
  Forall P xs -> Forall P (fst (InPlace.for_each g xs)).
Proof.
  intros K F. induction F as [|x xs Px Pxs IH]; cbn [InPlace.for_each];
    [constructor|].
  pose proof (K x Px) as Kx. destruct (g x) as [y [e|]]; cbn [fst] in *.
  - constructor; assumption.
  - destruct (InPlace.for_each g xs) as [ys r]. cbn [fst] in *.
    constructor; assumption.
Qed.

Section PartialSquare.
Variable pow2 : Q -> result Q.

Lemma inplace_discharge_fields (c : BatteryCell.t Q) (current dt : Q) :
  ~ capacity_ah c == 0 ->
  soc (fst (InPlace.discharge (H := Q_partial_square pow2) c current dt))
  = py_max (soc c - soc_delta c current dt) 0 /\
  soh (fst (InPlace.discharge (H := Q_partial_square pow2) c current dt)) = soh c /\
  capacity_ah (fst (InPlace.discharge (H := Q_partial_square pow2) c current dt))
  = capacity_ah c.
Proof.
  intro NZ. unfold InPlace.discharge.
  change (@py_div Q (Q_partial_square pow2)) with (@py_div Q Q_PyNum).
  rewrite py_div_Q_ok by exact NZ.
  unfold InPlace.generate_heat. cbn [num_pow2 Q_partial_square].
  destruct (pow2 current); cbn; repeat split.
Qed.

Lemma inplace_charge_fields (c : BatteryCell.t Q) (current dt : Q) :
  ~ capacity_ah c == 0 ->
  soc (fst (InPlace.charge (H := Q_partial_square pow2) c current dt))
  = py_min (soc c + soc_delta c current dt) 100 /\
  soh (fst (InPlace.charge (H := Q_partial_square pow2) c current dt)) = soh c /\
  capacity_ah (fst (InPlace.charge (H := Q_partial_square pow2) c current dt))
  = capacity_ah c.
Proof.
  intro NZ. unfold InPlace.charge.
  change (@py_div Q (Q_partial_square pow2)) with (@py_div Q Q_PyNum).
  rewrite py_div_Q_ok by exact NZ.
  unfold InPlace.generate_heat. cbn [num_pow2 Q_partial_square].
  destruct (pow2 current); cbn; repeat split.
Qed.

Lemma inplace_step_cell_cases (c : BatteryCell.t Q) (current dt : Q) :
  (0 < current /\
   InPlace.step_cell (H := Q_partial_square pow2) current dt c
   = InPlace.discharge (H := Q_partial_square pow2) c current dt) \/
  (current < 0 /\ 0 < - current /\
   InPlace.step_cell (H := Q_partial_square pow2) current dt c
   = InPlace.charge (H := Q_partial_square pow2) c (- current) dt) \/
  (current == 0 /\
   InPlace.step_cell (H := Q_partial_square pow2) current dt c = (c, None)).
Proof.
  unfold InPlace.step_cell.
  change (@num_ltb Q (Q_partial_square pow2)) with (@num_ltb Q Q_PyNum).
  change (@num_of_Z Q (Q_partial_square pow2) 0) with 0.
  destruct (num_ltb 0 current) eqn:P.
  - left. apply ltb_Q_true in P. auto.
  - apply ltb_Q_false in P. destruct (num_ltb current 0) eqn:N.
    + right; left. apply ltb_Q_true in N. repeat split; [assumption|lra].
    + right; right. apply ltb_Q_false in N. split; [lra|reflexivity].
Qed.

Lemma inplace_step_cell_ok (c : BatteryCell.t Q) (current dt : Q) :
  cell_ok c -> 0 < dt ->
  cell_ok (fst (InPlace.step_cell (H := Q_partial_square pow2) current dt c)).
Proof.
  intros (Hc & (Hs & Hh)) Hd.
  assert (NZ : ~ capacity_ah c == 0) by lra.
  destruct (inplace_step_cell_cases c current dt) as [(P & E)|[(N & P & E)|(Z & E)]];
    rewrite E.
  - destruct (inplace_discharge_fields c current dt NZ) as (Es & Eh & Ec).
    pose proof (soc_delta_nonneg c current dt Hc P Hd) as D.
    unfold cell_ok, in_range. rewrite Es, Eh, Ec.
    split; [exact Hc|]. split; [|exact Hh].
    destruct (py_max_Q_cases (soc c - soc_delta c current dt) 0) as [[L K]|[L K]];
      rewrite K; lra.
  - destruct (inplace_charge_fields c (- current) dt NZ) as (Es & Eh & Ec).
    pose proof (soc_delta_nonneg c (- current) dt Hc P Hd) as D.
    unfold cell_ok, in_range. rewrite Es, Eh, Ec.
    split; [exact Hc|]. split; [|exact Hh].
    destruct (py_min_Q_cases (soc c + soc_delta c (- current) dt) 100) as [[L K]|[L K]];
      rewrite K; lra.
  - cbn [fst]. split; [exact Hc|]. split; [exact Hs|exact Hh].
Qed.

Lemma inplace_simulate_step_ok (p : BatteryPack.t Q) (current dt : Q) :
  Forall cell_ok (BatteryPack.cells p) -> 0 < dt ->
  Forall cell_ok
    (BatteryPack.cells
       (fst (InPlace.simulate_step (H := Q_partial_square pow2) p current dt))).
Proof.
  intros Hp Hd. unfold InPlace.simulate_step.
  pose proof (inplace_for_each_Forall cell_ok
                (InPlace.step_cell (H := Q_partial_square pow2) current dt)
                (BatteryPack.cells p)
                (fun c Hc => inplace_step_cell_ok c current dt Hc Hd) Hp) as F.
  destruct (InPlace.for_each _ _) as [cs [e|]]; cbn [fst] in *; [exact F|].
  destruct (_ || _); cbn [fst BatteryPack.cells]; [|exact F].
  apply Forall_map. eapply Forall_impl; [|exact F].
  intros c Hc.
  change (@degrade_health Q (Q_partial_square pow2)) with (@degrade_health Q Q_PyNum).
  apply degrade_health_cell_ok. exact Hc.
Qed.

Lemma inplace_run_ok (profile : list (Q * Q)) (p : BatteryPack.t Q) :
  Forall cell_ok (BatteryPack.cells p) -> positive_dt profile ->
  Forall cell_ok
    (BatteryPack.cells (InPlace.run (H := Q_partial_square pow2) p profile)).
Proof.
  revert p. induction profile as [|[current dt] rest IH]; intros p Hp Hd.
  - exact Hp.
  - inversion Hd as [|? ? Hd1 Hd2]; subst. cbn [snd] in Hd1.
    unfold InPlace.run. cbn [fold_left fst snd].
    apply IH; [|exact Hd2].
    apply inplace_simulate_step_ok; assumption.
Qed.

End PartialSquare.

(** C3, as amended.  Take a pack whose cells have a positive capacity and
    start with [0 <= soc <= 100] and [60 <= soh <= 100], and make any
    sequence of calls with arbitrary currents and positive time steps.
    Whether a call returns or raises from [current ** 2] (for whatever
    currents the square is out of range), every cell is within the same
    bounds after it: a call that raises has only clamped the [soc] of the
    cell it stopped in. *)
Theorem soc_soh_bounds_after_every_call
        (pow2 : Q -> result Q) (p : BatteryPack.t Q) (profile : list (Q * Q)) :
  Forall (fun c => 0 < capacity_ah c) (BatteryPack.cells p) ->
  Forall in_range (BatteryPack.cells p) ->
  positive_dt profile ->
  Forall in_range
    (BatteryPack.cells (InPlace.run (H := Q_partial_square pow2) p profile)).
Proof.
  intros Hc Hr Hd.
  assert (Hp : Forall cell_ok (BatteryPack.cells p)).
  { rewrite Forall_forall in *. intros c Hin. split; auto. }
  pose proof (inplace_run_ok pow2 profile p Hp Hd) as F.
  eapply Forall_impl; [|exact F]. intros c Hcell. apply Hcell.
Qed.

Lemma soc_soh_bounds_after_every_call_witness :
  Forall (fun c => 0 < capacity_ah c) (BatteryPack.cells driver_pack) /\
  Forall in_range (BatteryPack.cells driver_pack) /\
  positive_dt overflow_profile /\
  Forall in_range
    (BatteryPack.cells
       (InPlace.run (H := Q_partial_square small_square) driver_pack overflow_profile)).
Proof.
  assert (Hc : Forall (fun c => 0 < capacity_ah c) (BatteryPack.cells driver_pack))
    by (repeat constructor).
  assert (Hr : Forall in_range (BatteryPack.cells driver_pack))
    by (repeat constructor; cbn; discriminate).
  assert (Hd : positive_dt overflow_profile) by (repeat constructor).
  split; [exact Hc|]. split; [exact Hr|]. split; [exact Hd|].
  exact (soc_soh_bounds_after_every_call small_square driver_pack overflow_profile Hc Hr Hd).
Defined.

(** The second call of that profile raises, leaving the first cell empty
    and the three others as the first call left them. *)
Example overflow_profile_second_call :
  exists p1 p2,
    InPlace.simulate_step (H := Q_partial_square small_square) driver_pack 1 10
    = (p1, None) /\
    InPlace.simulate_step (H := Q_partial_square small_square) p1 2000 10
    = (p2, Some OverflowError) /\
    Forall2 (fun c x => soc c == x) (BatteryPack.cells p2)
            [0; 899 # 9; 899 # 9; 899 # 9].
Proof.
  eexists. eexists. split; [vm_compute; reflexivity|].
  split; [vm_compute; reflexivity|]. repeat constructor.
Qed.

(** The same in binary64, where the square of 1e200 is out of range: the
    first cell is emptied, and all cells are still within the bounds. *)
Example bounds_after_overflow_binary64 :
  exists p',
    InPlace.simulate_step driver_pack_binary64 1e200%float 10%float
    = (p', Some OverflowError) /\
    Forall (fun c => PrimFloat.leb 0 (soc c) && PrimFloat.leb (soc c) 100
                     && PrimFloat.leb 60 (soh c) && PrimFloat.leb (soh c) 100 = true)
           (BatteryPack.cells p').
Proof.
  eexists. split; [vm_compute; reflexivity|]. repeat constructor.
Qed.

(** C3 as stated fails: it does not ask for a positive capacity, and the
    constructor accepts a negative one.  The cells of
    [BatteryPack(4, -2.5, -3.7)] start within the bounds; one hour of
    discharge at 1 A "drops" their charge by -40, to 140. *)
Lemma bounds_broken_by_negative_capacity :
  Forall in_range (BatteryPack.cells negative_capacity_pack) /\
  0 < 3600 /\
  exists p',
    BatteryPack.simulate_step negative_capacity_pack 1 3600 = Ok p' /\
    InPlace.simulate_step negative_capacity_pack 1 3600 = (p', None) /\
    Forall (fun c => soc c == 140) (BatteryPack.cells p') /\
    ~ Forall in_range (BatteryPack.cells p').
Proof.
  split; [repeat constructor; cbn; discriminate|].
  split; [reflexivity|].
  eexists. split; [vm_compute; reflexivity|].
  split; [vm_compute; reflexivity|].
  split; [repeat constructor|].
  intro K. inversion K as [|? ? ((_ & L) & _) _]; subst.
  vm_compute in L. apply L. reflexivity.
Qed.

(** ** What a step rejects *)

Section Rejects.
Context {A : Type} `{PyNum A}.

Lemma step_cell_returns_iff (c : BatteryCell.t A) (current dt : A) :
  (exists c', BatteryPack.step_cell current dt c = Ok c') <->
  moving current = false \/
  (num_eqb (capacity_ah c) (int 0) = false /\
   exists squared, num_pow2 (magnitude current) = Ok squared).
Proof.
  unfold BatteryPack.step_cell, moving, magnitude.
  destruct (num_ltb (int 0) current); cbn [orb].
  - unfold discharge, py_div.
    destruct (num_eqb (capacity_ah c) (int 0)); cbn [bind].
    + split; [intros (c' & K); discriminate|].
      intros [K|(K & _)]; discriminate.
    + unfold generate_heat. destruct (num_pow2 current) as [sq|e]; cbn [bind].
      * split; [intros _; right; split; [reflexivity|exists sq; reflexivity]|].
        intros _. eexists. reflexivity.
      * split; [intros (c' & K); discriminate|].
        intros [K|(_ & sq & K)]; discriminate.
  - destruct (num_ltb current (int 0)).
    + unfold charge, py_div.
      destruct (num_eqb (capacity_ah c) (int 0)); cbn [bind].
      * split; [intros (c' & K); discriminate|].
        intros [K|(K & _)]; discriminate.
      * unfold generate_heat. destruct (num_pow2 (num_opp current)) as [sq|e];
          cbn [bind].
        -- split; [intros _; right; split; [reflexivity|exists sq; reflexivity]|].
           intros _. eexists. reflexivity.
        -- split; [intros (c' & K); discriminate|].
           intros [K|(_ & sq & K)]; discriminate.
    + split; [intros _; left; reflexivity|]. intros _. exists c. reflexivity.
Qed.

Lemma step_cell_raises (c : BatteryCell.t A) (current dt : A) (e : exn) :
  BatteryPack.step_cell current dt c = Raise e ->
  moving current = true /\
  ((num_eqb (capacity_ah c) (int 0) = true /\ e = ZeroDivisionError) \/
   num_pow2 (magnitude current) = Raise e).
Proof.
  unfold BatteryPack.step_cell, moving, magnitude.
  destruct (num_ltb (int 0) current); cbn [orb].
  - unfold discharge, py_div.
    destruct (num_eqb (capacity_ah c) (int 0)); cbn [bind].
    + intro K. injection K as <-. auto.
    + unfold generate_heat. destruct (num_pow2 current) as [sq|e']; cbn [bind];
        [discriminate|]. intro K. injection K as <-. auto.
  - destruct (num_ltb current (int 0)); [|discriminate].
    unfold charge, py_div.
    destruct (num_eqb (capacity_ah c) (int 0)); cbn [bind].
    + intro K. injection K as <-. auto.
    + unfold generate_heat. destruct (num_pow2 (num_opp current)) as [sq|e'];
        cbn [bind]; [discriminate|]. intro K. injection K as <-. auto.
Qed.

Lemma for_each_returns_iff {X : Type} (f : X -> result X) (xs : list X) :
  (exists ys, for_each f xs = Ok ys) <-> Forall (fun x => exists y, f x = Ok y) xs.
Proof.
  split.
  - intros (ys & E). apply for_each_inv in E.
    induction E as [|x y xs ys Exy _ IH]; constructor; [exists y; exact Exy|exact IH].
  - intro F.
    destruct (for_each_ok f (fun _ _ => True) xs) as (ys & E & _).
    { eapply Forall_impl; [|exact F]. intros x (y & E). exists y. auto. }
    exists ys. exact E.
Qed.

(** C5, as amended.  Whatever the arithmetic, [simulate_step] looks at
    nothing but the sign of the current, the zero test of each
    [capacity_ah] that Python's [/] makes, and the range test that [**]
    makes on the current: it returns exactly when the current is neither
    strictly positive nor strictly negative, or no cell has capacity zero
    and the square of the current is in range (or there is no cell).  The
    time step and the signs of capacity and voltage play no part.  When it raises, the current is strictly positive or
    strictly negative, and the exception is the [ZeroDivisionError] of a
    cell of capacity zero or the one [**] raised. *)
Theorem simulate_step_outcome (p : BatteryPack.t A) (current dt : A) :
  ((exists p', BatteryPack.simulate_step p current dt = Ok p') <->
   Forall (fun c =>
             moving current = false \/
             (num_eqb (capacity_ah c) (int 0) = false /\
              exists squared, num_pow2 (magnitude current) = Ok squared))
          (BatteryPack.cells p)) /\
  (forall e, BatteryPack.simulate_step p current dt = Raise e ->
             moving current = true /\
             ((e = ZeroDivisionError /\
               Exists (fun c => num_eqb (capacity_ah c) (int 0) = true)
                      (BatteryPack.cells p)) \/
              num_pow2 (magnitude current) = Raise e)).
Proof.
  split.
  - split.
    + intros (p' & E).
      destruct (simulate_step_inv p p' current dt E) as (cs & Ecs & _).
      assert (F : exists ys, for_each (BatteryPack.step_cell current dt)
                               (BatteryPack.cells p) = Ok ys)
        by (exists cs; exact Ecs).
      apply for_each_returns_iff in F.
      eapply Forall_impl; [|exact F]. intros c Kc. cbn beta in Kc.
      apply (step_cell_returns_iff c current dt). exact Kc.
    + intro F.
      assert (G : Forall (fun c => exists c', BatteryPack.step_cell current dt c = Ok c')
                         (BatteryPack.cells p)).
      { eapply Forall_impl; [|exact F]. intros c Kc. cbn beta in Kc.
        apply (step_cell_returns_iff c current dt). exact Kc. }
      apply for_each_returns_iff in G. destruct G as (cs & Ecs).
      eexists. apply simulate_step_after_pass. exact Ecs.
  - intros e K.
    destruct (for_each (BatteryPack.step_cell current dt) (BatteryPack.cells p))
      as [cs|e'] eqn:E.
    + rewrite (simulate_step_after_pass p current dt cs E) in K. discriminate.
    + unfold BatteryPack.simulate_step in K. rewrite E in K. cbn [bind] in K.
      injection K as ->.
      apply for_each_raise in E. apply Exists_exists in E.
      destruct E as (c & Hin & Ec).
      destruct (step_cell_raises c current dt e Ec) as (M & [(Z & ->)|P]).
      * split; [exact M|]. left. split; [reflexivity|].
        apply Exists_exists. exists c. auto.
      * split; [exact M|]. right. exact P.
Qed.

End Rejects.

Lemma float_pow2_raises (x : float) (e : exn) :
  float_pow2 x = Raise e -> e = OverflowError.
Proof.
  unfold float_pow2. destruct (_ && _); [|discriminate].
  intro K. injection K as <-. reflexivity.
Qed.

(** In binary64 this leaves two exceptions, and both arise at the call. *)
Lemma simulate_step_raises_binary64
      (p : BatteryPack.t float) (current dt : float) (e : exn) :
  BatteryPack.simulate_step p current dt = Raise e ->
  e = ZeroDivisionError \/ e = OverflowError.
Proof.
  intro K.
  destruct (for_each (BatteryPack.step_cell current dt) (BatteryPack.cells p))
    as [cs|e'] eqn:E.
  - rewrite (simulate_step_after_pass p current dt cs E) in K. discriminate.
  - unfold BatteryPack.simulate_step in K. rewrite E in K. cbn [bind] in K.
    injection K as ->.
    apply for_each_raise in E. apply Exists_exists in E.
    destruct E as (c & _ & Ec).
    destruct (step_cell_raises c current dt e Ec) as (_ & [(_ & ->)|P]);
      [left; reflexivity|].
    right. exact (float_pow2_raises _ e P).
Qed.

(** A NaN current is neither positive nor negative: nothing is divided, and
    even a pack of capacity zero is stepped without an exception. *)
Example nan_current_zero_capacity_binary64 :
  exists p',
    BatteryPack.simulate_step (BatteryPack.init 4 0 3.7)%float nan 10%float = Ok p' /\
    BatteryPack.cycles p' = 1%N.
Proof. eexists. split; [vm_compute; reflexivity|reflexivity]. Qed.

Example overflow_current_binary64 :
  BatteryPack.simulate_step driver_pack_binary64 1e200%float 10%float
  = Raise OverflowError.
Proof. vm_compute. reflexivity. Qed.

(** * Rounding *)

(** ** Charging and discharging back *)

Lemma charge_result {A : Type} `{PyNum A}
      (c c1 : BatteryCell.t A) (current dt : A) :
  charge c current dt = Ok c1 ->
  soc c1 = py_min (num_add (soc c) (soc_change c current dt)) (int 100) /\
  capacity_ah c1 = capacity_ah c.
Proof.
  unfold charge, py_div, soc_change.
  destruct (num_eqb (capacity_ah c) (int 0)); cbn [bind]; [discriminate|].
  unfold generate_heat. destruct (num_pow2 current); cbn [bind]; [|discriminate].
  intro E. injection E as <-. split; reflexivity.
Qed.

Lemma discharge_result {A : Type} `{PyNum A}
      (c c1 : BatteryCell.t A) (current dt : A) :
  discharge c current dt = Ok c1 ->
  soc c1 = py_max (num_sub (soc c) (soc_change c current dt)) (int 0) /\
  capacity_ah c1 = capacity_ah c.
Proof.
  unfold discharge, py_div, soc_change.
  destruct (num_eqb (capacity_ah c) (int 0)); cbn [bind]; [discriminate|].
  unfold generate_heat. destruct (num_pow2 current); cbn [bind]; [|discriminate].
  intro E. injection E as <-. split; reflexivity.
Qed.

Section Rounding.
Variables (R : PyNum Q) (u : Q).
Hypothesis add_err :
  forall a b, Qabs (@num_add Q R a b - (a + b)) <= u * Qabs (a + b).
Hypothesis sub_err :
  forall a b, Qabs (@num_sub Q R a b - (a - b)) <= u * Qabs (a - b).


End Rounding.

(** With no rounding at all the value comes back exactly. *)
Lemma charge_then_discharge_unrounded
      (R : PyNum Q) (c c1 c2 : BatteryCell.t Q) (current dt : Q) :
  (forall a b, @num_add Q R a b == a + b) ->
  (forall a b, @num_sub Q R a b == a - b) ->
  charge (H := R) c current dt = Ok c1 ->
  discharge (H := R) c1 current dt = Ok c2 ->
  @num_ltb Q R (@num_of_Z Q R 100)
           (@num_add Q R (soc c) (soc_change (H := R) c current dt)) = false ->
  @num_ltb Q R (@num_sub Q R (soc c1) (soc_change (H := R) c1 current dt))
           (@num_of_Z Q R 0) = false ->
  soc c2 == soc c.
Proof.
  intros Ha Hs E1 E2 T1 T2.
  destruct (charge_result c c1 current dt E1) as (S1 & C1).
  destruct (discharge_result c1 c2 current dt E2) as (S2 & _).
  assert (G : soc_change (H := R) c1 current dt = soc_change (H := R) c current dt).
  { unfold soc_change. rewrite C1. reflexivity. }
  rewrite G in *.
  unfold py_min in S1. rewrite T1 in S1.
  unfold py_max in S2. rewrite T2 in S2.
  rewrite S2, Hs, S1, Ha. ring.
Qed.





(** * One cell and one step, with a square that may overflow *)

(** X14.  [charge] in any arithmetic, binary64 included: it returns exactly
    when the capacity is not zero and [current ** 2] is in range; the cell
    it returns has [soc = min(soc + soc_gain, 100)] as the code computes
    it, and the [soh] and capacity it had; it raises [ZeroDivisionError]
    for a zero capacity and otherwise what [current ** 2] raises. *)
Theorem charge_outcome {A : Type} `{PyNum A}
        (c : BatteryCell.t A) (current dt : A) :
  ((exists c', charge c current dt = Ok c') <->
   (num_eqb (capacity_ah c) (int 0) = false /\
    exists squared, num_pow2 current = Ok squared)) /\
  (forall c', charge c current dt = Ok c' ->
     soc c' = py_min (num_add (soc c) (soc_change c current dt)) (int 100) /\
     soh c' = soh c /\ capacity_ah c' = capacity_ah c) /\
  (forall e, charge c current dt = Raise e ->
     (e = ZeroDivisionError /\ num_eqb (capacity_ah c) (int 0) = true) \/
     num_pow2 current = Raise e).
Proof.
  unfold charge, py_div, soc_change.
  destruct (num_eqb (capacity_ah c) (int 0)); cbn [bind].
  - split; [|split].
    + split; [intros (c' & K); discriminate|intros (K & _); discriminate].
    + intros c' K. discriminate.
    + intros e K. injection K as <-. left. split; reflexivity.
  - unfold generate_heat. destruct (num_pow2 current) as [sq|e']; cbn [bind].
    + split; [|split].
      * split; [intros _; split; [reflexivity|exists sq; reflexivity]|].
        intros _. eexists. reflexivity.
      * intros c' K. injection K as <-. repeat split.
      * intros e K. discriminate.
    + split; [|split].
      * split; [intros (c' & K); discriminate|].
        intros (_ & sq & K). discriminate.
      * intros c' K. discriminate.
      * intros e K. injection K as <-. right. reflexivity.
Qed.

(** In exact arithmetic the stored value is the mathematical minimum,
    whatever the square does. *)
Lemma charge_soc_partial_square
      (pow2 : Q -> result Q) (c c' : BatteryCell.t Q) (current dt : Q) :
  charge (H := Q_partial_square pow2) c current dt = Ok c' ->
  soc c' == Qmin (soc c + (current * dt / 3600) / capacity_ah c * 100) 100.
Proof.
  intro E. destruct (charge_result c c' current dt E) as (S & _).
  rewrite S. apply py_min_Q.
Qed.

(** [charge(1e200, 10)] on a cell of 2.5 Ah: the capacity is not zero and
    the call raises. *)
Example charge_overflow_binary64 :
  num_eqb (capacity_ah driver_cell_binary64) (int 0 : float) = false /\
  charge driver_cell_binary64 1e200%float 10%float = Raise OverflowError.
Proof. split; vm_compute; reflexivity. Qed.

Example charge_rounded_binary64 :
  exists c', charge rounding_cell_binary64 1%float 10%float = Ok c' /\
    soc c' = (15.9 + (1 * 10 / 3600) / 2.5 * 100)%float /\
    soc c' = 0x1.002d82d82d82ep+4%float.
Proof. eexists. split; [vm_compute; reflexivity|]. split; vm_compute; reflexivity. Qed.

(** ** Running empty, with a square that may overflow *)

Section RunningEmpty.
Variable pow2 : Q -> result Q.

Lemma step_cell_discharge_partial (c : BatteryCell.t Q) (current dt sq : Q) :
  0 < capacity_ah c -> 0 < current -> pow2 current = Ok sq ->
  exists c',
    BatteryPack.step_cell (H := Q_partial_square pow2) current dt c = Ok c' /\
    soc c' == Qmax (soc c - soc_delta c current dt) 0 /\
    soh c' = soh c /\ capacity_ah c' = capacity_ah c.
Proof.
  intros Hc Hi Hsq. unfold BatteryPack.step_cell.
  change (@num_ltb Q (Q_partial_square pow2)) with (@num_ltb Q Q_PyNum).
  change (@num_of_Z Q (Q_partial_square pow2) 0) with 0.
  assert (P : num_ltb 0 current = true) by (apply ltb_Q_true; exact Hi).
  rewrite P. unfold discharge.
  change (@py_div Q (Q_partial_square pow2)) with (@py_div Q Q_PyNum).
  rewrite py_div_Q_ok by lra.
  cbn [bind]. unfold generate_heat. cbn [num_pow2 Q_partial_square].
  rewrite Hsq. cbn [bind].
  eexists. split; [reflexivity|]. split; [|split; reflexivity].
  cbn [soc update_voltage cool_down set_temp set_soc set_voltage].
  apply py_max_Q.
Qed.

Lemma step_cell_discharge_raises (c : BatteryCell.t Q) (current dt : Q) (e : exn) :
  0 < capacity_ah c -> 0 < current -> pow2 current = Raise e ->
  BatteryPack.step_cell (H := Q_partial_square pow2) current dt c = Raise e /\
  exists c',
    InPlace.step_cell (H := Q_partial_square pow2) current dt c = (c', Some e) /\
    soc c' == Qmax (soc c - soc_delta c current dt) 0 /\
    soh c' = soh c /\ temp c' = temp c /\ voltage c' = voltage c.
Proof.
  intros Hc Hi Hsq. unfold BatteryPack.step_cell, InPlace.step_cell.
  change (@num_ltb Q (Q_partial_square pow2)) with (@num_ltb Q Q_PyNum).
  change (@num_of_Z Q (Q_partial_square pow2) 0) with 0.
  assert (P : num_ltb 0 current = true) by (apply ltb_Q_true; exact Hi).
  rewrite P. unfold discharge, InPlace.discharge.
  change (@py_div Q (Q_partial_square pow2)) with (@py_div Q Q_PyNum).
  rewrite py_div_Q_ok by lra.
  cbn [bind]. unfold generate_heat, InPlace.generate_heat.
  cbn [num_pow2 Q_partial_square]. rewrite Hsq. cbn [bind].
  split; [reflexivity|].
  eexists. split; [reflexivity|]. split; [|repeat split].
  cbn [soc set_soc]. apply py_max_Q.
Qed.

(** X16.  The other end of the cycle test, in exact arithmetic with a
    square that may overflow.  Take a non-empty pack of cells of equal
    positive capacity and equal charge, and a discharging step that takes
    away at least what is left.  If [current ** 2] is in range, the step
    returns with every cell at [soc == 0], counts a cycle and lowers every
    [soh] by 0.01 times the new count, clamped at 60.  If [current ** 2]
    raises, the step raises the same exception and counts no cycle: the
    first cell is left at [soc == 0] with its [soh], [temp] and [voltage]
    as they were, the other cells are untouched. *)
Theorem discharge_to_empty_outcome
        (C s current dt : Q) (p : BatteryPack.t Q) :
  0 < C -> 0 < current ->
  s <= (current * dt / 3600) / C * 100 ->
  BatteryPack.cells p <> [] ->
  Forall (fun c => capacity_ah c == C /\ soc c == s) (BatteryPack.cells p) ->
  (forall sq, pow2 current = Ok sq ->
     exists p',
       BatteryPack.simulate_step (H := Q_partial_square pow2) p current dt = Ok p' /\
       BatteryPack.cycles p' = (BatteryPack.cycles p + 1)%N /\
       Forall (fun c => soc c == 0) (BatteryPack.cells p') /\
       Forall2 (fun c c' =>
                  soh c' == Qmax (soh c - 0.01 * inject_Z (Z.of_N (BatteryPack.cycles p + 1))) 60)
               (BatteryPack.cells p) (BatteryPack.cells p')) /\
  (forall e, pow2 current = Raise e ->
     BatteryPack.simulate_step (H := Q_partial_square pow2) p current dt = Raise e /\
     exists first first' rest,
       BatteryPack.cells p = first :: rest /\
       InPlace.simulate_step (H := Q_partial_square pow2) p current dt
       = ({| BatteryPack.cells := first' :: rest;
             BatteryPack.cycles := BatteryPack.cycles p |}, Some e) /\
       soc first' == 0 /\ soh first' = soh first /\
       temp first' = temp first /\ voltage first' = voltage first).
Proof.
  intros HC HI Hs NE F. split.
  - intros sq Hsq.
    destruct (for_each_ok (BatteryPack.step_cell (H := Q_partial_square pow2) current dt)
                (fun c c' => soh c' = soh c /\ soc c' == 0) (BatteryPack.cells p))
      as (cs' & E & G).
    { eapply Forall_impl; [|exact F]. intros c (Hc & Hsc).
      assert (Pc : 0 < capacity_ah c) by (rewrite Hc; exact HC).
      destruct (step_cell_discharge_partial c current dt sq Pc HI Hsq)
        as (c' & Ec & Sc & Eh & _).
      exists c'. split; [exact Ec|]. split; [exact Eh|].
      rewrite Sc. apply Q.max_r. unfold soc_delta. rewrite Hsc, Hc. lra. }
    assert (Z : Forall (fun c => soc c == 0) cs').
    { exact (Forall2_Forall_r _ (fun c' => soc c' == 0) _ _ G). }
    eexists. split; [apply simulate_step_after_pass; exact E|].
    change (@BatteryPack.all_soc Q (Q_partial_square pow2))
      with (@BatteryPack.all_soc Q Q_PyNum).
    change (@num_of_Z Q (Q_partial_square pow2) 100) with 100.
    change (@num_of_Z Q (Q_partial_square pow2) 0) with 0.
    assert (H0 : BatteryPack.all_soc 0 cs' = true) by (apply all_soc_Q; exact Z).
    rewrite H0, orb_true_r. cbn [BatteryPack.cycles BatteryPack.cells].
    change (@degrade_health Q (Q_partial_square pow2)) with (@degrade_health Q Q_PyNum).
    split; [reflexivity|]. split.
    + apply Forall_soc_map_degrade. exact Z.
    + eapply Forall2_map_r; [|exact G]. intros c c' (Eh & _).
      rewrite degrade_health_soh, Eh. reflexivity.
  - intros e Hsq.
    destruct (BatteryPack.cells p) as [|first rest] eqn:Ecells; [contradiction|].
    inversion F as [|? ? (Hc & Hsc) _]; subst.
    assert (Pc : 0 < capacity_ah first) by (rewrite Hc; exact HC).
    destruct (step_cell_discharge_raises first current dt e Pc HI Hsq)
      as (R & first' & I & Sc & Eh & Et & Ev).
    split.
    + unfold BatteryPack.simulate_step. rewrite Ecells. cbn [for_each].
      rewrite R. reflexivity.
    + exists first, first', rest. split; [reflexivity|]. split.
      * unfold InPlace.simulate_step. rewrite Ecells. cbn [InPlace.for_each].
        rewrite I. reflexivity.
      * split; [|repeat split; assumption].
        rewrite Sc. apply Q.max_r. unfold soc_delta. rewrite Hsc, Hc. lra.
Qed.

End RunningEmpty.

(** The nearly empty pack at 1 A for 10 s, and at 2000 A with a square out
    of range above 1000. *)
Lemma discharge_to_empty_outcome_witness :
  0 < 2.5 /\ 0 < 1 /\ 0.05 <= (1 * 10 / 3600) / 2.5 * 100 /\
  BatteryPack.cells nearly_empty_pack <> [] /\
  Forall (fun c => capacity_ah c == 2.5 /\ soc c == 0.05)
         (BatteryPack.cells nearly_empty_pack) /\
  small_square 1 = Ok 1 /\
  exists p',
    BatteryPack.simulate_step (H := Q_partial_square small_square)
                              nearly_empty_pack 1 10 = Ok p' /\
    BatteryPack.cycles p' = (BatteryPack.cycles nearly_empty_pack + 1)%N /\
    Forall (fun c => soc c == 0) (BatteryPack.cells p') /\
    Forall2 (fun c c' =>
               soh c' == Qmax (soh c - 0.01 * inject_Z (Z.of_N (BatteryPack.cycles nearly_empty_pack + 1))) 60)
            (BatteryPack.cells nearly_empty_pack) (BatteryPack.cells p').
Proof.
  assert (H1 : 0 < 2.5) by reflexivity.
  assert (H2 : 0 < 1) by reflexivity.
  assert (H3 : 0.05 <= (1 * 10 / 3600) / 2.5 * 100) by (vm_compute; discriminate).
  assert (H4 : BatteryPack.cells nearly_empty_pack <> []) by discriminate.
  assert (H5 : Forall (fun c => capacity_ah c == 2.5 /\ soc c == 0.05)
                      (BatteryPack.cells nearly_empty_pack))
    by (repeat constructor).
  assert (H6 : small_square 1 = Ok 1) by reflexivity.
  repeat (split; [assumption|]).
  exact (proj1 (discharge_to_empty_outcome small_square 2.5 0.05 1 10
                  nearly_empty_pack H1 H2 H3 H4 H5) 1 H6).
Defined.

(** The raising case at a concrete input: 2000 A on the nearly empty pack. *)
Example discharge_to_empty_overflow :
  small_square 2000 = Raise OverflowError /\
  BatteryPack.simulate_step (H := Q_partial_square small_square)
                            nearly_empty_pack 2000 10 = Raise OverflowError /\
  exists p',
    InPlace.simulate_step (H := Q_partial_square small_square)
                          nearly_empty_pack 2000 10 = (p', Some OverflowError) /\
    BatteryPack.cycles p' = 0%N /\
    Forall2 (fun c x => soc c == x) (BatteryPack.cells p') [0; 0.05].
Proof.
  split; [reflexivity|]. split; [vm_compute; reflexivity|].
  eexists. split; [vm_compute; reflexivity|]. split; [reflexivity|].
  repeat constructor.
Qed.

(** The same two steps in binary64, on the driver's pack: an hour at 5 A
    empties it and counts a cycle; at 1e200 A the step raises, counts
    nothing and leaves the first cell empty and the others full. *)
Example discharge_to_empty_binary64 :
  exists p',
    BatteryPack.simulate_step driver_pack_binary64 5%float 3600%float = Ok p' /\
    BatteryPack.cycles p' = 1%N /\
    map (@soc float) (BatteryPack.cells p') = [0; 0; 0; 0]%float /\
    map (@soh float) (BatteryPack.cells p') = [99.99; 99.99; 99.99; 99.99]%float.
Proof.
  eexists. split; [vm_compute; reflexivity|]. split; [reflexivity|].
  split; vm_compute; reflexivity.
Qed.

(** ** Read-outs and wear in binary64 *)

(** The read-outs of equal cells are the cell's values in exact arithmetic
    only.  In binary64 the sum of three equal charges and its quotient by 3
    round: after one discharging step of a pack of three cells every cell
    holds 99.88888888888889 and [get_average_soc] returns
    99.88888888888887. *)
Example average_of_equal_cells_binary64 :
  exists p' a,
    BatteryPack.simulate_step three_cell_pack_binary64 1%float 10%float = Ok p' /\
    map (@soc float) (BatteryPack.cells p')
    = [99.88888888888889; 99.88888888888889; 99.88888888888889]%float /\
    BatteryPack.get_average_soc p' = Ok a /\
    a = 99.88888888888887%float /\
    PrimFloat.eqb a 99.88888888888889%float = false.
Proof.
  eexists. eexists. split; [vm_compute; reflexivity|].
  split; [vm_compute; reflexivity|].
  split; [vm_compute; reflexivity|].
  split; vm_compute; reflexivity.
Qed.

(** The closed form of the cumulative wear is exact arithmetic as well.  In
    binary64 four idle steps of the driver's pack subtract 0.01, 0.02, 0.03
    and 0.04 one after the other and leave [soh] at 99.89999999999999,
    where [100 - 0.01 * 10] is 99.9; the four cycles are counted all the
    same. *)
Example four_idle_steps_binary64 :
  exists p',
    BatteryPack.run driver_pack_binary64
                    [(0, 10); (0, 10); (0, 10); (0, 10)]%float = Ok p' /\
    BatteryPack.cycles p' = 4%N /\
    map (@soh float) (BatteryPack.cells p')
    = [99.89999999999999; 99.89999999999999;
       99.89999999999999; 99.89999999999999]%float /\
    (100 - 0.01 * 10)%float = 99.9%float /\
    PrimFloat.eqb 99.89999999999999%float 99.9%float = false.
Proof.
  eexists. split; [vm_compute; reflexivity|]. split; [reflexivity|].
  split; [vm_compute; reflexivity|]. split; vm_compute; reflexivity.
Qed.

(** * Identical cells, call by call *)

Section IdenticalCalls.
Context {A : Type} `{PyNum A}.

Lemma inplace_run_agrees (profile : list (A * A)) (p p' : BatteryPack.t A) :
  BatteryPack.run p profile = Ok p' -> InPlace.run p profile = p'.
Proof.
  revert p. induction profile as [|[current dt] rest IH]; intros p E;
    cbn [BatteryPack.run] in E.
  - injection E as <-. reflexivity.
  - pose proof (inplace_simulate_step_agrees p current dt) as K.
    destruct (BatteryPack.simulate_step p current dt) as [p1|e];
      cbn [bind] in E; [|discriminate].
    unfold InPlace.run. cbn [fold_left fst snd]. rewrite K. cbn [fst].
    apply IH. exact E.
Qed.

(** In a pack of equal cells the call that raises is the first one: it
    leaves the first cell as [discharge] or [charge] left it and the others
    untouched. *)
Lemma inplace_simulate_step_raises
      (p : BatteryPack.t A) (current dt : A) (e : exn) :
  identical_cells p ->
  BatteryPack.simulate_step p current dt = Raise e ->
  exists first rest,
    BatteryPack.cells p = first :: rest /\
    BatteryPack.step_cell current dt first = Raise e /\
    InPlace.simulate_step p current dt
    = ({| BatteryPack.cells := fst (InPlace.step_cell current dt first) :: rest;
          BatteryPack.cycles := BatteryPack.cycles p |}, Some e).
Proof.
  intros I K. unfold BatteryPack.simulate_step in K.
  destruct (for_each (BatteryPack.step_cell current dt) (BatteryPack.cells p))
    as [cs|e'] eqn:E; cbn [bind] in K.
  { destruct (_ || _); discriminate. }
  injection K as ->.
  destruct (BatteryPack.cells p) as [|first rest] eqn:Ecells;
    [cbn in E; discriminate|].
  assert (R : BatteryPack.step_cell current dt first = Raise e).
  { apply for_each_raise in E. apply Exists_exists in E.
    destruct E as (c & Hin & Ec).
    assert (Eq : c = first).
    { apply I; rewrite Ecells; [exact Hin|left; reflexivity]. }
    rewrite <- Eq. exact Ec. }
  exists first, rest. split; [reflexivity|]. split; [exact R|].
  pose proof (inplace_step_cell_agrees current dt first) as G.
  rewrite R in G.
  unfold InPlace.simulate_step. rewrite Ecells. cbn [InPlace.for_each].
  destruct (InPlace.step_cell current dt first) as [first' r].
  cbn [snd] in G. subst r. reflexivity.
Qed.

(** C9, as amended.  Take a pack built by [BatteryPack(num_cells,
    cell_capacity, cell_voltage)] and any sequence of [simulate_step] calls
    that all return, in any arithmetic, binary64 included.  The pack the
    calls leave behind is the one the last call returned, all its cells are
    in the same state, and there are as many as at construction.  The
    invariant ends with the first call that raises: that call stops in the
    first cell, which is left as [discharge] or [charge] left it when the
    exception came, while the other cells are untouched and no cycle is
    counted. *)
Theorem cells_identical_until_a_call_raises
        (num_cells : Z) (cell_capacity cell_voltage : A)
        (profile : list (A * A)) (p : BatteryPack.t A) :
  BatteryPack.run (BatteryPack.init num_cells cell_capacity cell_voltage) profile = Ok p ->
  InPlace.run (BatteryPack.init num_cells cell_capacity cell_voltage) profile = p /\
  identical_cells p /\
  length (BatteryPack.cells p) = Z.to_nat num_cells /\
  forall current dt e,
    BatteryPack.simulate_step p current dt = Raise e ->
    exists first rest,
      BatteryPack.cells p = first :: rest /\
      InPlace.simulate_step p current dt
      = ({| BatteryPack.cells := fst (InPlace.step_cell current dt first) :: rest;
            BatteryPack.cycles := BatteryPack.cycles p |}, Some e).
Proof.
  intro E.
  destruct (run_identical profile _ p
              (init_identical num_cells cell_capacity cell_voltage) E) as (I & L).
  split; [apply inplace_run_agrees; exact E|].
  split; [exact I|].
  split; [rewrite L; cbn; apply repeat_length|].
  intros current dt e K.
  destruct (inplace_simulate_step_raises p current dt e I K)
    as (first & rest & Ec & _ & Ei).
  exists first, rest. split; assumption.
Qed.

End IdenticalCalls.

(** The driver's pack through a discharge, a charge and an idle step. *)
Lemma cells_identical_until_a_call_raises_witness :
  exists p,
    BatteryPack.run (BatteryPack.init 4 2.5 3.7) short_profile = Ok p /\
    InPlace.run (BatteryPack.init 4 2.5 3.7) short_profile = p /\
    identical_cells p /\
    length (BatteryPack.cells p) = Z.to_nat 4 /\
    forall current dt e,
      BatteryPack.simulate_step p current dt = Raise e ->
      exists first rest,
        BatteryPack.cells p = first :: rest /\
        InPlace.simulate_step p current dt
        = ({| BatteryPack.cells := fst (InPlace.step_cell current dt first) :: rest;
              BatteryPack.cycles := BatteryPack.cycles p |}, Some e).
Proof.
  eexists. split; [vm_compute; reflexivity|].
  apply (cells_identical_until_a_call_raises 4 2.5 3.7 short_profile).
  vm_compute. reflexivity.
Defined.

(** A step of the driver's pack that returns, by the criterion of C5. *)
Lemma simulate_step_outcome_witness :
  exists p', BatteryPack.simulate_step driver_pack 1 10 = Ok p'.
Proof.
  apply (proj1 (simulate_step_outcome driver_pack 1 10)).
  change (BatteryPack.cells driver_pack)
    with [driver_cell; driver_cell; driver_cell; driver_cell].
  repeat (apply Forall_cons; [right; split; [reflexivity|eexists; reflexivity]|]).
  apply Forall_nil.
Defined.

(** ** The rounded round trip, measured *)

(** The counterexample of C6 in rational numbers: the charge comes back one
    unit in the last place of 15.9 too high, 2^-49, which is within the
    bound of the amended C6 for the unit roundoff of binary64. *)
Example charge_then_discharge_gap_binary64 :
  exists c1 c2 q0 q1 q2 g,
    charge rounding_cell_binary64 1%float 10%float = Ok c1 /\
    discharge c1 1%float 10%float = Ok c2 /\
    Q_of_float (soc rounding_cell_binary64) = Some q0 /\
    Q_of_float (soc c1) = Some q1 /\
    Q_of_float (soc c2) = Some q2 /\
    Q_of_float (soc_change rounding_cell_binary64 1%float 10%float) = Some g /\
    q2 - q0 == Qpower 2 (-49) /\
    Qabs (q2 - q0) <= unit_roundoff * (Qabs (q0 + g) + Qabs (q1 - g)).
Proof.
  do 6 eexists.
  split; [vm_compute; reflexivity|]. split; [vm_compute; reflexivity|].
  split; [vm_compute; reflexivity|]. split; [vm_compute; reflexivity|].
  split; [vm_compute; reflexivity|]. split; [vm_compute; reflexivity|].
  split; [vm_compute; reflexivity|]. vm_compute. discriminate.
Qed.
